(** * PNG metadata codec of IMAGEN ([src/index.tsx])

    A shallow embedding of the checksum primitive ([crcTable], [crc32]),
    the [tEXt] chunk writer ([writePngMetadata]) and the chunk reader
    ([extractPngMetadata]), together with the pieces of the JavaScript
    platform they call: 32-bit bitwise operators, [Uint8Array], [DataView],
    [String.fromCharCode], [TextEncoder] and [TextDecoder].

    JavaScript numbers are modelled as integers ([Z]); every number the
    codec computes is an integer far below 2^53, where doubles are exact.
    A [Uint8Array] (and the [ArrayBuffer] it spans) is a [list byte]; a
    JavaScript string is the list of its UTF-16 code units. *)

From Stdlib Require Import ZArith List Lia Bool String Ascii.
From coqutil Require Import Byte Z.bitblast.
Import ListNotations.
Local Open Scope Z_scope.

(** Linear arithmetic with division and remainder by constants. *)
Ltac zdm := Z.div_mod_to_equations; lia.

(* ================================================================== *)
(** * The JavaScript platform *)
(* ================================================================== *)

Module JS.

(** ** Completions: a call returns, throws, or is cut off by the loop
    budget of the model (shown never to happen for the codec). *)

Inductive error : Type := RangeError.

Inductive completion (A : Type) : Type :=
| Normal (a : A)
| Throw (e : error)
| Unfinished.
Arguments Normal {A} a.
Arguments Throw {A} e.
Arguments Unfinished {A}.

Definition bind {A B} (c : completion A) (k : A -> completion B) : completion B :=
  match c with
  | Normal a => k a
  | Throw e => Throw e
  | Unfinished => Unfinished
  end.

Definition returns {A} (c : completion A) : Prop := exists a, c = Normal a.

(** ** 32-bit integer operators *)

Definition ToUint32 (z : Z) : Z := z mod 2 ^ 32.

Definition ToInt32 (z : Z) : Z :=
  let u := z mod 2 ^ 32 in if u <? 2 ^ 31 then u else u - 2 ^ 32.

(** [a ^ b] *)
Definition bit_xor (a b : Z) : Z := ToInt32 (Z.lxor (ToInt32 a) (ToInt32 b)).
(** [a & b] *)
Definition bit_and (a b : Z) : Z := ToInt32 (Z.land (ToInt32 a) (ToInt32 b)).
(** [a >>> n] *)
Definition ushr (a n : Z) : Z := Z.shiftr (ToUint32 a) (n mod 32).

(** ** Uint8Array *)

Definition bytes : Type := list byte.

Definition len (b : bytes) : Z := Z.of_nat (List.length b).

(** [new Uint8Array(n)]: [n] zero bytes. *)
Definition u8_new (n : Z) : bytes := repeat Byte.x00 (Z.to_nat n).

(** [a[i]] as a read: [undefined] ([None]) out of range. *)
Definition u8_get (a : bytes) (i : Z) : option Z :=
  if i <? 0 then None else option_map byte.unsigned (nth_error a (Z.to_nat i)).

(** [a[i] !== v] for a number [v]. *)
Definition u8_differs (a : bytes) (i v : Z) : bool :=
  match u8_get a i with
  | Some x => negb (x =? v)
  | None => true
  end.

(** [a[i] = v]: stores [v mod 256]; silently ignored out of range. *)
Definition u8_put (a : bytes) (i v : Z) : bytes :=
  if (0 <=? i) && (i <? len a)
  then firstn (Z.to_nat i) a ++ byte.of_Z v :: skipn (Z.to_nat i + 1) a
  else a.

(** Relative index of [slice]: negative counts from the end, and the
    result is clamped to the array. *)
Definition clamp_index (n i : Z) : Z :=
  if i <? 0 then Z.max (n + i) 0 else Z.min i n.

(** [a.slice(s, e)] *)
Definition u8_slice (a : bytes) (s e : Z) : bytes :=
  let k := clamp_index (len a) s in
  let f := clamp_index (len a) e in
  firstn (Z.to_nat (f - k)) (skipn (Z.to_nat k) a).

(** [a.slice(s)] *)
Definition u8_slice_from (a : bytes) (s : Z) : bytes := u8_slice a s (len a).

(** [target.set(source, offset)]: a [RangeError] when the source does not
    fit at that offset. *)
Definition u8_set (target source : bytes) (offset : Z) : completion bytes :=
  if (offset <? 0) || (len target <? len source + offset) then Throw RangeError
  else Normal (firstn (Z.to_nat offset) target ++ source
               ++ skipn (Z.to_nat (offset + len source)) target).

(** ** DataView over a whole buffer, big-endian accessors *)

Definition be32 (v : Z) : bytes :=
  [byte.of_Z (Z.shiftr v 24); byte.of_Z (Z.shiftr v 16);
   byte.of_Z (Z.shiftr v 8); byte.of_Z v].

Definition be32_value (b0 b1 b2 b3 : byte) : Z :=
  byte.unsigned b0 * 2 ^ 24 + byte.unsigned b1 * 2 ^ 16
  + byte.unsigned b2 * 2 ^ 8 + byte.unsigned b3.

(** [view.getUint32(pos)] *)
Definition getUint32 (buffer : bytes) (pos : Z) : completion Z :=
  if (pos <? 0) || (len buffer <? pos + 4) then Throw RangeError
  else match skipn (Z.to_nat pos) buffer with
       | b0 :: b1 :: b2 :: b3 :: _ => Normal (be32_value b0 b1 b2 b3)
       | _ => Throw RangeError
       end.

(** [view.setUint32(pos, v, false)] *)
Definition setUint32 (buffer : bytes) (pos v : Z) : completion bytes :=
  if (pos <? 0) || (len buffer <? pos + 4) then Throw RangeError
  else Normal (firstn (Z.to_nat pos) buffer ++ be32 (ToUint32 v)
               ++ skipn (Z.to_nat pos + 4) buffer).

(** ** Strings: lists of UTF-16 code units *)

Definition jsstring : Type := list Z.

(** A string literal of the source (ASCII only). *)
Definition lit (s : string) : jsstring :=
  map (fun c => Z.of_N (N_of_ascii c)) (list_ascii_of_string s).

(** [a === b] on strings *)
Fixpoint str_eqb (a b : jsstring) : bool :=
  match a, b with
  | [], [] => true
  | x :: a', y :: b' => (x =? y) && str_eqb a' b'
  | _, _ => false
  end.

(** [String.fromCharCode(...a)] for a byte array [a] *)
Definition fromCharCode (a : bytes) : jsstring := map byte.unsigned a.

Definition is_lead (c : Z) : bool := (0xD800 <=? c) && (c <=? 0xDBFF).
Definition is_trail (c : Z) : bool := (0xDC00 <=? c) && (c <=? 0xDFFF).

(** Every element is a 16-bit code unit. *)
Definition code_units (s : jsstring) : bool :=
  forallb (fun c => (0 <=? c) && (c <? 65536)) s.

(** [s.isWellFormed()]: no lone surrogate. *)
Fixpoint isWellFormed (s : jsstring) : bool :=
  match s with
  | [] => true
  | c :: t =>
      if is_lead c then
        match t with
        | d :: t' => is_trail d && isWellFormed t'
        | [] => false
        end
      else negb (is_trail c) && isWellFormed t
  end.

(** Conversion of a string to scalar values (Web IDL [USVString]): a
    surrogate pair is one scalar value, a lone surrogate becomes U+FFFD. *)
Fixpoint to_scalars (s : jsstring) : list Z :=
  match s with
  | [] => []
  | c :: t =>
      if is_lead c then
        match t with
        | d :: t' =>
            if is_trail d
            then (0x10000 + (c - 0xD800) * 0x400 + (d - 0xDC00)) :: to_scalars t'
            else 0xFFFD :: to_scalars t
        | [] => [0xFFFD]
        end
      else if is_trail c then 0xFFFD :: to_scalars t
      else c :: to_scalars t
  end.

(** Unicode scalar values: code points other than surrogates. *)
Definition scalar_value (cp : Z) : Prop :=
  0 <= cp <= 0x10FFFF /\ ~ (0xD800 <= cp <= 0xDFFF).

(** A scalar value as UTF-16 code units. *)
Definition of_scalar (cp : Z) : jsstring :=
  if cp <? 0x10000 then [cp]
  else [0xD800 + Z.shiftr (cp - 0x10000) 10; 0xDC00 + Z.land (cp - 0x10000) 0x3FF].

Definition of_scalars (l : list Z) : jsstring := flat_map of_scalar l.

(** ** UTF-8 encoder (Encoding Standard) *)

Definition utf8_continuation (cp k : Z) : byte :=
  byte.of_Z (Z.lor 0x80 (Z.land (Z.shiftr cp (6 * k)) 0x3F)).

Definition utf8_encode_scalar (cp : Z) : bytes :=
  if cp <=? 0x7F then [byte.of_Z cp]
  else if cp <=? 0x7FF then
    [byte.of_Z (Z.shiftr cp 6 + 0xC0); utf8_continuation cp 0]
  else if cp <=? 0xFFFF then
    [byte.of_Z (Z.shiftr cp 12 + 0xE0); utf8_continuation cp 1; utf8_continuation cp 0]
  else
    [byte.of_Z (Z.shiftr cp 18 + 0xF0); utf8_continuation cp 2;
     utf8_continuation cp 1; utf8_continuation cp 0].

(** [new TextEncoder().encode(s)] *)
Definition TextEncoder_encode (s : jsstring) : bytes :=
  flat_map utf8_encode_scalar (to_scalars s).

(** ** UTF-8 decoder (Encoding Standard), replacement error mode *)

Record utf8_state : Type := mk_utf8 {
  code_point : Z;
  bytes_seen : Z;
  bytes_needed : Z;
  lower_boundary : Z;
  upper_boundary : Z
}.

Definition utf8_init : utf8_state := mk_utf8 0 0 0 0x80 0xBF.

(** The handler on a byte when no bytes are needed: the new state and the
    scalar values emitted. *)
Definition utf8_first (b : Z) : utf8_state * list Z :=
  if b <=? 0x7F then (utf8_init, [b])
  else if (0xC2 <=? b) && (b <=? 0xDF) then
    (mk_utf8 (Z.land b 0x1F) 0 1 0x80 0xBF, [])
  else if (0xE0 <=? b) && (b <=? 0xEF) then
    (mk_utf8 (Z.land b 0xF) 0 2
       (if b =? 0xE0 then 0xA0 else 0x80) (if b =? 0xED then 0x9F else 0xBF), [])
  else if (0xF0 <=? b) && (b <=? 0xF4) then
    (mk_utf8 (Z.land b 0x7) 0 3
       (if b =? 0xF0 then 0x90 else 0x80) (if b =? 0xF4 then 0x8F else 0xBF), [])
  else (utf8_init, [0xFFFD]).

(** The handler on any byte. A byte outside the expected range ends the
    sequence with U+FFFD and is read again from the initial state. *)
Definition utf8_handler (st : utf8_state) (b : Z) : utf8_state * list Z :=
  if bytes_needed st =? 0 then utf8_first b
  else if (b <? lower_boundary st) || (upper_boundary st <? b) then
    let '(st', out) := utf8_first b in (st', 0xFFFD :: out)
  else
    let cp := Z.lor (Z.shiftl (code_point st) 6) (Z.land b 0x3F) in
    if bytes_seen st + 1 =? bytes_needed st then (utf8_init, [cp])
    else (mk_utf8 cp (bytes_seen st + 1) (bytes_needed st) 0x80 0xBF, []).

Fixpoint utf8_run (st : utf8_state) (input : bytes) : list Z :=
  match input with
  | [] => if bytes_needed st =? 0 then [] else [0xFFFD]
  | b :: rest =>
      let '(st', out) := utf8_handler st (byte.unsigned b) in
      out ++ utf8_run st' rest
  end.

(** The byte order mark is dropped when it is the first scalar value
    ([ignoreBOM] is false by default). *)
Definition strip_bom (l : list Z) : list Z :=
  match l with
  | c :: t => if c =? 0xFEFF then t else l
  | [] => []
  end.

(** [new TextDecoder().decode(a)] *)
Definition TextDecoder_decode (a : bytes) : jsstring :=
  of_scalars (strip_bom (utf8_run utf8_init a)).

End JS.

Import JS.
Notation "x <- c ;; k" := (JS.bind c (fun x => k))
  (at level 61, c at next level, right associativity).

(* ================================================================== *)
(** * The codec, from [src/index.tsx] *)
(* ================================================================== *)

(** ** Checksum primitive *)

(** One round of the inner loop that fills the table:
    [if (c & 1) c = 0xedb88320 ^ (c >>> 1); else c = c >>> 1]. *)
Definition crc_round (c : Z) : Z :=
  if bit_and c 1 =? 0 then ushr c 1 else bit_xor 0xedb88320 (ushr c 1).

Definition crc_entry (n : Z) : Z :=
  fold_left (fun c (_ : nat) => crc_round c) (seq 0 8) n.

(** [crcTable], as the initialisation loop leaves it. *)
Definition crcTable : list Z :=
  Eval vm_compute in map (fun n => crc_entry (Z.of_nat n)) (seq 0 256).

(** [crcTable[i]]; a missing entry reads as [undefined], which the
    bitwise operators take as 0. *)
Definition crcTable_at (i : Z) : Z := nth (Z.to_nat i) crcTable 0.

Definition crc32 (buf : bytes) : Z :=
  let crc :=
    fold_left
      (fun crc b =>
         bit_xor (crcTable_at (bit_and (bit_xor crc (byte.unsigned b)) 0xff))
                 (ushr crc 8))
      buf 0xffffffff in
  bit_xor crc 0xffffffff.

(** ** Encoder: [writePngMetadata] *)

(** The first half of [writePngMetadata]: the bytes of the new chunk,
    assembled in freshly allocated arrays as the source does. *)
Definition text_chunk (key value : jsstring) : completion bytes :=
  let keyBytes := TextEncoder_encode key in
  let textBytes := TextEncoder_encode value in
  let chunkData := u8_new (len keyBytes + 1 + len textBytes) in
  chunkData <- u8_set chunkData keyBytes 0 ;;
  let chunkData := u8_put chunkData (len keyBytes) 0 in
  chunkData <- u8_set chunkData textBytes (len keyBytes + 1) ;;
  let len_ := len chunkData in
  lenBuf <- setUint32 (u8_new 4) 0 len_ ;;
  let typeBuf := TextEncoder_encode (lit "tEXt") in
  let crcBuf := u8_new 4 in
  let crcCheck := u8_new (len typeBuf + len chunkData) in
  crcCheck <- u8_set crcCheck typeBuf 0 ;;
  crcCheck <- u8_set crcCheck chunkData (len typeBuf) ;;
  let crcVal := crc32 crcCheck in
  crcBuf <- setUint32 crcBuf 0 crcVal ;;
  let chunk := u8_new (4 + 4 + len_ + 4) in
  chunk <- u8_set chunk lenBuf 0 ;;
  chunk <- u8_set chunk typeBuf 4 ;;
  chunk <- u8_set chunk chunkData 8 ;;
  chunk <- u8_set chunk crcBuf (8 + len_) ;;
  Normal chunk.

(** The body of the branch [if (type === 'IHDR')]. *)
Definition insert_chunk (originalPng chunk : bytes) (pos chunkLen : Z)
  : completion bytes :=
  let insertionPoint := pos + 8 + chunkLen + 4 in
  let newPng := u8_new (len originalPng + len chunk) in
  newPng <- u8_set newPng (u8_slice originalPng 0 insertionPoint) 0 ;;
  newPng <- u8_set newPng chunk insertionPoint ;;
  newPng <- u8_set newPng (u8_slice_from originalPng insertionPoint)
                   (insertionPoint + len chunk) ;;
  Normal newPng.

(** The loop [while (pos < originalPng.length)], with a budget of
    iterations. *)
Fixpoint write_loop (fuel : nat) (originalPng chunk : bytes) (pos : Z)
  : completion bytes :=
  if pos <? len originalPng then
    match fuel with
    | O => Unfinished
    | S fuel' =>
        chunkLen <- getUint32 originalPng pos ;;
        let type := fromCharCode (u8_slice originalPng (pos + 4) (pos + 8)) in
        if str_eqb type (lit "IHDR") then insert_chunk originalPng chunk pos chunkLen
        else write_loop fuel' originalPng chunk (pos + 8 + chunkLen + 4)
    end
  else Normal originalPng.

Definition writePngMetadata (originalPng : bytes) (key value : jsstring)
  : completion bytes :=
  chunk <- text_chunk key value ;;
  if u8_differs originalPng 0 137 || u8_differs originalPng 1 80
     || u8_differs originalPng 2 78 || u8_differs originalPng 3 71
  then Normal originalPng
  else write_loop (List.length originalPng) originalPng chunk 8.

(** ** Decoder: [extractPngMetadata] *)

(** The scan for the first zero byte: its index, or -1. *)
Fixpoint find_null (chunkData : bytes) (i : Z) : Z :=
  match chunkData with
  | [] => -1
  | b :: rest => if byte.unsigned b =? 0 then i else find_null rest (i + 1)
  end.

(** The body of the branch [if (type === 'tEXt')]: the payload when the
    branch returns one. *)
Definition read_text (chunkData : bytes) : option jsstring :=
  let nullIndex := find_null chunkData 0 in
  if nullIndex >? -1 then
    let keyword := TextDecoder_decode (u8_slice chunkData 0 nullIndex) in
    if str_eqb keyword (lit "parameters") then
      Some (TextDecoder_decode (u8_slice_from chunkData (nullIndex + 1)))
    else if str_eqb keyword (lit "BananaProData") then
      Some (TextDecoder_decode (u8_slice_from chunkData (nullIndex + 1)))
    else None
  else None.

(** The loop [while (offset < buffer.byteLength)], with a budget of
    iterations; [null] is [None]. *)
Fixpoint read_loop (fuel : nat) (buffer : bytes) (offset : Z)
  : completion (option jsstring) :=
  if offset <? len buffer then
    match fuel with
    | O => Unfinished
    | S fuel' =>
        if offset + 8 >? len buffer then Normal None
        else
          length <- getUint32 buffer offset ;;
          if offset + 8 + length + 4 >? len buffer then Normal None
          else
            let type := fromCharCode (u8_slice buffer (offset + 4) (offset + 8)) in
            let found :=
              if str_eqb type (lit "tEXt")
              then read_text (u8_slice buffer (offset + 8) (offset + 8 + length))
              else None in
            match found with
            | Some text => Normal (Some text)
            | None =>
                let offset := offset + (12 + length) in
                if str_eqb type (lit "IEND") then Normal None
                else read_loop fuel' buffer offset
            end
    end
  else Normal None.

Definition extractPngMetadata (buffer : bytes) : completion (option jsstring) :=
  signature <- getUint32 buffer 0 ;;
  if negb (signature =? 0x89504E47) then Normal None
  else read_loop (List.length buffer) buffer 8.

(** ** PNG streams, for stating properties *)

(** A chunk of the stream: type tag, data and stored checksum. *)
Record chunk : Type := mk_chunk {
  ctype : bytes;
  cdata : bytes;
  ccrc : Z
}.

(** Length (4) | Type (4) | Data (Length) | CRC (4) *)
Definition serialize (c : chunk) : bytes :=
  be32 (len (cdata c)) ++ ctype c ++ cdata c ++ be32 (ccrc c).

Definition serialize_all (cs : list chunk) : bytes := flat_map serialize cs.

Definition tag (s : string) : bytes := map (fun z => byte.of_Z z) (lit s).

(** The checksum a chunk of that type and data must carry. *)
Definition chunk_crc (type data : bytes) : Z := ToUint32 (crc32 (type ++ data)).

Definition png_signature : bytes := map (fun z => byte.of_Z z) [137; 80; 78; 71; 13; 10; 26; 10].

(** The first four bytes are the ones both routines test; the other four
    bytes of the signature are never looked at. *)
Definition signature_ok (hd : bytes) : Prop :=
  exists b4 b5 b6 b7,
    hd = [Byte.x89; Byte.x50; Byte.x4e; Byte.x47; b4; b5; b6; b7].

(** The type tag has four bytes and the data length fits the length field. *)
Definition well_formed_chunk (c : chunk) : Prop :=
  List.length (ctype c) = 4%nat /\ len (cdata c) < 2 ^ 32.

Definition is_type (c : chunk) (s : string) : bool :=
  str_eqb (fromCharCode (ctype c)) (lit s).

(** [keyword || 0x00 || text]: the data of a text chunk, split at its
    first zero byte. *)
Fixpoint keyword_bytes (data : bytes) : bytes :=
  match data with
  | [] => []
  | b :: rest => if byte.unsigned b =? 0 then [] else b :: keyword_bytes rest
  end.

Fixpoint text_bytes (data : bytes) : bytes :=
  match data with
  | [] => []
  | b :: rest => if byte.unsigned b =? 0 then rest else text_bytes rest
  end.

Definition has_separator (data : bytes) : bool :=
  existsb (fun b => byte.unsigned b =? 0) data.

Definition recognized_keyword (k : jsstring) : bool :=
  str_eqb k (lit "parameters") || str_eqb k (lit "BananaProData").

(** A [tEXt] chunk with a separator whose keyword is one of the two the
    decoder answers to. *)
Definition carries_payload (c : chunk) : bool :=
  is_type c "tEXt" && has_separator (cdata c)
  && recognized_keyword (TextDecoder_decode (keyword_bytes (cdata c))).

(** A chunk the decoder's walk steps over: it yields nothing and does
    not end the walk. *)
Definition stepped_over (c : chunk) : Prop :=
  well_formed_chunk c /\ carries_payload c = false /\ is_type c "IEND" = false.

(** The chunk the specification asks [encode] to insert. *)
Definition text_data (key value : jsstring) : bytes :=
  TextEncoder_encode key ++ Byte.x00 :: TextEncoder_encode value.

Definition payload_chunk (key value : jsstring) : chunk :=
  let data := text_data key value in
  mk_chunk (tag "tEXt") data (chunk_crc (tag "tEXt") data).

(** [decode(encode(P, K, V))] *)
Definition decode_after_encode (P : bytes) (K V : jsstring)
  : completion (option jsstring) :=
  out <- writePngMetadata P K V ;; extractPngMetadata out.

(** A string with no lone surrogate, made of 16-bit code units: one that
    UTF-8 can carry. *)
Definition utf8_string (s : jsstring) : Prop :=
  code_units s = true /\ isWellFormed s = true.

(** The bytes left at the walk's offset do not hold a whole chunk: the
    8-byte header does not fit, or the declared length plus the CRC runs
    past the end. *)
Definition truncated (tail : bytes) : Prop :=
  0 < len tail /\
  (len tail < 8 \/
   exists b0 b1 b2 b3 more,
     tail = b0 :: b1 :: b2 :: b3 :: more /\
     len tail < 8 + be32_value b0 b1 b2 b3 + 4).

(** JSON text written with apostrophes in place of double quotes. *)
Definition json_text (s : string) : jsstring :=
  map (fun c => if c =? 39 then 34 else c) (lit s).

(** The minimal PNG of the concrete scenario: signature, an [IHDR] chunk
    over 13 bytes of data [d], and an empty [IEND] chunk, both with the
    checksum of their type and data. *)
Definition ihdr_chunk (d : bytes) : chunk :=
  mk_chunk (tag "IHDR") d (chunk_crc (tag "IHDR") d).

Definition iend_chunk : chunk := mk_chunk (tag "IEND") [] (chunk_crc (tag "IEND") []).

Definition minimal_png (d : bytes) : bytes :=
  png_signature ++ serialize_all [ihdr_chunk d; iend_chunk].

Definition castle : jsstring := json_text "{'mega':'a castle','lighting':'dawn'}".

(** A JSON text behind a byte order mark. *)
Definition bom_text : jsstring := 0xFEFF :: json_text "{}".

Definition dummy_header : bytes := map (fun z => byte.of_Z z) [0; 0; 0; 1; 0; 0; 0; 1; 8; 2; 0; 0; 0].

(** The offset of the decoder's walk once it has stepped over the chunks:
    the eight bytes of the signature, then 8 + length + 4 bytes for each
    chunk. *)
Definition walked (cs : list chunk) : Z :=
  fold_left (fun offset c => offset + (8 + len (cdata c) + 4)) cs 8.

(** The byte order mark, in UTF-8. *)
Definition utf8_bom : bytes := [Byte.xef; Byte.xbb; Byte.xbf].

(** The keywords, as bytes, of the chunks the decoder answers to: the two
    names, each also behind a byte order mark, which [TextDecoder]
    drops. *)
Definition answered_keywords : list bytes :=
  [tag "parameters"; utf8_bom ++ tag "parameters";
   tag "BananaProData"; utf8_bom ++ tag "BananaProData"].

(** Equality of byte arrays, element by element. *)
Definition bytes_eqb (a b : bytes) : bool := str_eqb (fromCharCode a) (fromCharCode b).

(** A [tEXt] chunk with a separator whose keyword bytes are one of the
    four spellings. *)
Definition answered (c : chunk) : bool :=
  is_type c "tEXt" && has_separator (cdata c)
  && existsb (bytes_eqb (keyword_bytes (cdata c))) answered_keywords.

(** A [tEXt] chunk whose keyword is the byte order mark followed by
    [parameters]. *)
Definition bom_keyword_chunk : chunk :=
  let data := utf8_bom ++ text_data (lit "parameters") castle in
  mk_chunk (tag "tEXt") data (chunk_crc (tag "tEXt") data).

(** A [tEXt] chunk under a keyword the decoder does not answer to. *)
Definition comment_chunk : chunk := payload_chunk (lit "Comment") (lit "drawn by hand").

(** A [tEXt] chunk whose data is the bare word, with no zero byte. *)
Definition bare_chunk : chunk :=
  mk_chunk (tag "tEXt") (tag "parameters") (chunk_crc (tag "tEXt") (tag "parameters")).

(** The same chunk with another stored checksum. *)
Definition with_crc (f : chunk -> Z) (c : chunk) : chunk :=
  mk_chunk (ctype c) (cdata c) (f c).

(** The reduction round of the table's loop on an unsigned register:
    shift right by one bit, and xor the polynomial in when the bit
    shifted out is set. *)
Definition reduce (u : Z) : Z :=
  if Z.odd u then Z.lxor 0xedb88320 (Z.shiftr u 1) else Z.shiftr u 1.

(** The checksum computed bit by bit, without the table: each byte is
    xored into the register and the round of the table's loop is applied
    eight times. *)
Definition crc32_bitwise (buf : bytes) : Z :=
  let crc :=
    fold_left (fun crc b => crc_entry (bit_xor crc (byte.unsigned b)))
              buf 0xffffffff in
  bit_xor crc 0xffffffff.

(** ** Callers of the decoder: [populateBananaData],
    [processBlobForMetadata], [getTextFromImage]

    The values [JSON.parse] produces. Numbers are doubles; the callers
    only test them for truth and print them, so the platform is taken
    with a type of numbers and these two operations, and with
    [JSON.parse] itself ([None] when it throws a [SyntaxError]). Writes to
    the page ([showStatus], [updateLanguageUI]) are left out and taken to
    complete; the state kept is [lastAnalysisData], whose entries have
    the declared shape [{ en, vi }]. *)

Class Numbers : Type := {
  number : Type;
  number_truthy : number -> bool;
  number_to_string : number -> jsstring
}.

#[local] Set Warnings "-register-all".

Inductive value {N : Numbers} : Type :=
| VNull
| VBool (b : bool)
| VNumber (n : number)
| VString (s : jsstring)
| VArray (items : list value)
| VObject (fields : list (jsstring * value)).

Class Json {N : Numbers} : Type := {
  JSON_parse : jsstring -> option value
}.

(** The keys of [AnalysisResult]. *)
Inductive field : Type :=
| k_style | k_materials | k_lighting | k_context | k_composition
| k_generationPrompt | k_sketchPrompt | k_multiViewPrompts.

Definition field_eqb (a b : field) : bool :=
  match a, b with
  | k_style, k_style | k_materials, k_materials | k_lighting, k_lighting
  | k_context, k_context | k_composition, k_composition
  | k_generationPrompt, k_generationPrompt | k_sketchPrompt, k_sketchPrompt
  | k_multiViewPrompts, k_multiViewPrompts => true
  | _, _ => false
  end.

(** [{ en: ...; vi: ... }] *)
Record entry {N : Numbers} : Type := mk_entry { en : value; vi : value }.
Arguments mk_entry {N} en vi.

(** [AnalysisResult]: each key is absent or holds an entry. *)
Definition AnalysisResult {N : Numbers} : Type := field -> option entry.

Section Application.

Context {N : Numbers} {J : Json}.

(** Truth of a value; [None] is [undefined]. *)
Definition truthy (v : option value) : bool :=
  match v with
  | None => false
  | Some VNull => false
  | Some (VBool b) => b
  | Some (VNumber n) => number_truthy n
  | Some (VString s) => negb (str_eqb s [])
  | Some (VArray _) => true
  | Some (VObject _) => true
  end.

Fixpoint lookup (fields : list (jsstring * value)) (k : jsstring) : option value :=
  match fields with
  | [] => None
  | (k', v) :: rest => if str_eqb k' k then Some v else lookup rest k
  end.

(** [v.k] for the property names the callers read, none of which is a
    built-in property of strings, arrays or objects: [None] when the read
    throws a [TypeError] (on [null]), [Some None] when it gives
    [undefined]. *)
Definition get (v : value) (k : jsstring) : option (option value) :=
  match v with
  | VNull => None
  | VObject fields => Some (lookup fields k)
  | _ => Some None
  end.

(** [v?.k] on a value that may be [undefined]. *)
Definition get_optional (v : option value) (k : jsstring) : option value :=
  match v with
  | Some (VObject fields) => lookup fields k
  | _ => None
  end.

(** An element of [join]: [null] prints as the empty string. *)
Definition element_text (to_string : value -> jsstring) (x : value) : jsstring :=
  match x with
  | VNull => []
  | _ => to_string x
  end.

(** [String(v)] *)
Fixpoint to_string (v : value) : jsstring :=
  match v with
  | VNull => lit "null"
  | VBool true => lit "true"
  | VBool false => lit "false"
  | VNumber n => number_to_string n
  | VString s => s
  | VArray items =>
      (fix join_items (l : list value) : jsstring :=
         match l with
         | [] => []
         | x :: rest =>
             element_text to_string x
             ++ match rest with
                | [] => []
                | _ :: _ => lit "," ++ join_items rest
                end
         end) items
  | VObject _ => lit "[object Object]"
  end.

(** [parts.join(sep)] *)
Fixpoint join (parts : list value) (sep : jsstring) : jsstring :=
  match parts with
  | [] => []
  | x :: rest =>
      element_text to_string x
      ++ match rest with
         | [] => []
         | _ :: _ => sep ++ join rest sep
         end
  end.

(** [if (v) parts.push(v)] *)
Definition push_if (parts : list value) (v : option value) : list value :=
  match v with
  | Some x => if truthy v then parts ++ [x] else parts
  | None => parts
  end.

(** The body of the inner [try] of [getTextFromImage] after
    [JSON.parse]: [None] when a property read throws, [Some None] when no
    [return] is reached, [Some (Some v)] when [v] is returned. *)
Definition text_of_data (data : value) : option (option value) :=
  match get data (lit "mega") with
  | None => None
  | Some mega =>
      if truthy mega then Some mega
      else
        match get data (lit "generationPrompt") with
        | None => None
        | Some prompt =>
            let en_ := get_optional prompt (lit "en") in
            if truthy en_ then Some en_
            else
              match get data (lit "view"), get data (lit "scene"),
                    get data (lit "lighting") with
              | Some view, Some scene, Some lighting_ =>
                  let parts := push_if (push_if (push_if [] view) scene) lighting_ in
                  if (0 <? List.length parts)%nat
                  then Some (Some (VString (join parts [10; 10])))
                  else Some None
              | _, _, _ => None
              end
        end
  end.

(** [if (metadata)] on [string | null] *)
Definition metadata_present (metadata : option jsstring) : option jsstring :=
  match metadata with
  | Some text => if str_eqb text [] then None else Some text
  | None => None
  end.

(** [getTextFromImage], on the bytes of the blob. *)
Definition getTextFromImage (buffer : bytes) : completion value :=
  match extractPngMetadata buffer with
  | Normal metadata =>
      match metadata_present metadata with
      | Some text =>
          match JSON_parse text with
          | Some data =>
              match text_of_data data with
              | Some (Some v) => Normal v
              | Some None => Normal (VString [])
              | None => Normal (VString text)
              end
          | None => Normal (VString text)
          end
      | None => Normal (VString [])
      end
  | Throw _ => Normal (VString [])
  | Unfinished => Unfinished
  end.

(** [{}] *)
Definition no_fields : AnalysisResult := fun _ => None.

(** [result[key] = e] *)
Definition assign (result : AnalysisResult) (key : field) (e : entry)
  : AnalysisResult :=
  fun k => if field_eqb k key then Some e else result k.

(** The closure [setField] of [populateBananaData]. *)
Definition setField (result : AnalysisResult) (key : field) (val : option value)
  : AnalysisResult :=
  match val with
  | Some v =>
      if truthy val then
        let result :=
          match result key with
          | Some _ => result
          | None => assign result key (mk_entry (VString []) (VString []))
          end in
        match result key with
        | Some e => assign result key (mk_entry v (vi e))
        | None => result
        end
      else result
  | None => result
  end.

(** [if (v) setField(key, v)] *)
Definition set_if (result : AnalysisResult) (key : field) (v : option value)
  : AnalysisResult :=
  if truthy v then setField result key v else result.

(** [populateBananaData]: the new [lastAnalysisData], and whether the
    call completed ([false] when a property read threw). *)
Definition populateBananaData (data : value) (lastAnalysisData : option AnalysisResult)
  : option AnalysisResult * bool :=
  let result :=
    match lastAnalysisData with
    | Some result => result
    | None => no_fields
    end in
  match get data (lit "mega") with
  | None => (Some result, false)
  | Some mega =>
      let result := set_if result k_generationPrompt mega in
      match get data (lit "lighting") with
      | None => (Some result, false)
      | Some lighting_ =>
          let result := set_if result k_lighting lighting_ in
          match get data (lit "scene") with
          | None => (Some result, false)
          | Some scene =>
              let result := set_if result k_context scene in
              match get data (lit "view") with
              | None => (Some result, false)
              | Some view =>
                  (Some (set_if result k_composition view), true)
              end
          end
      end
  end.

(** [processBlobForMetadata], on the bytes of the blob: the boolean it
    resolves to and the new [lastAnalysisData]. *)
Definition processBlobForMetadata (buffer : bytes)
    (lastAnalysisData : option AnalysisResult)
  : completion (bool * option AnalysisResult) :=
  match extractPngMetadata buffer with
  | Normal metadata =>
      match metadata_present metadata with
      | Some text =>
          match JSON_parse text with
          | Some data =>
              let '(result, completed) := populateBananaData data lastAnalysisData in
              Normal (completed, result)
          | None => Normal (false, lastAnalysisData)
          end
      | None => Normal (false, lastAnalysisData)
      end
  | Throw _ => Normal (false, lastAnalysisData)
  | Unfinished => Unfinished
  end.

End Application.

(** A platform for examples: the integers among the numbers, printed in
    decimal, and [JSON.parse] on the two JSON texts the examples use (any
    other text standing for one that is not JSON). *)
Fixpoint decimal_digits (fuel : nat) (n : Z) (acc : jsstring) : jsstring :=
  match fuel with
  | O => acc
  | S fuel' =>
      let acc := (48 + n mod 10) :: acc in
      if n <? 10 then acc else decimal_digits fuel' (n / 10) acc
  end.

Definition integer_to_string (n : Z) : jsstring :=
  if n <? 0 then 45 :: decimal_digits (Z.to_nat (- n)) (- n) []
  else decimal_digits (S (Z.to_nat n)) n [].

#[local] Instance integers : Numbers := {|
  number := Z;
  number_truthy := fun n => negb (n =? 0);
  number_to_string := integer_to_string
|}.

Definition castle_data : value :=
  VObject [(lit "mega", VString (lit "a castle"));
           (lit "lighting", VString (lit "dawn"))].

#[local] Instance castle_json : Json := {|
  JSON_parse := fun text =>
    if str_eqb text castle then Some castle_data
    else if str_eqb text (lit "null") then Some VNull
    else None
|}.

(** ** The retry wrapper and the error report:
    [generateContentWithRetry], [handleApiError]

    An error thrown by the API is known to the code by three texts:
    [e.toString()], [e.message || ""] (a string when it is there) and the
    text [JSON.stringify(e)] adds to a string. *)
Record api_error : Type := mk_api_error {
  e_toString : jsstring;
  e_message : jsstring;
  e_json : jsstring
}.

(** [s.startsWith(t)], [s.includes(t)] *)
Fixpoint starts_with (s t : jsstring) : bool :=
  match t, s with
  | [], _ => true
  | y :: t', x :: s' => (x =? y) && starts_with s' t'
  | _ :: _, [] => false
  end.

Fixpoint includes (s t : jsstring) : bool :=
  starts_with s t
  || match s with
     | [] => false
     | _ :: s' => includes s' t
     end.

(** [e.toString() + (e.message || "") + JSON.stringify(e)] *)
Definition error_text (e : api_error) : jsstring :=
  e_toString e ++ e_message e ++ e_json e.

(** The test that lets [generateContentWithRetry] try again. *)
Definition retryable (e : api_error) : bool :=
  let eStr := error_text e in
  includes eStr (lit "429") || includes eStr (lit "RESOURCE_EXHAUSTED")
  || includes eStr (lit "503") || includes eStr (lit "overloaded").

(** What a call of [ai.models.generateContent] settles to. *)
Inductive reply (R : Type) : Type :=
| Resolved (response : R)
| Rejected (e : api_error).
Arguments Resolved {R} response.
Arguments Rejected {R} e.

(** What a run of the wrapper did: how it settled, the delays it waited
    for in order, and how many calls it made. *)
Record run (R : Type) : Type := mk_run {
  outcome : reply R;
  waits : list Z;
  calls : nat
}.
Arguments mk_run {R} outcome waits calls.
Arguments outcome {R} r.
Arguments waits {R} r.
Arguments calls {R} r.

(** [generateContentWithRetry], against an API whose [n]-th call settles
    to [api n]; [call] counts the calls made so far. [None] when the
    budget of recursive calls is used up. *)
Fixpoint retry_from {R : Type} (fuel : nat) (api : nat -> reply R)
    (call : nat) (retries delay : Z) : option (run R) :=
  match api call with
  | Resolved response => Some (mk_run (Resolved response) [] (S call))
  | Rejected e =>
      if (retries >? 0) && retryable e then
        match fuel with
        | O => None
        | S fuel' =>
            match retry_from fuel' api (S call) (retries - 1) (delay * 2) with
            | Some r => Some (mk_run (outcome r) (delay :: waits r) (calls r))
            | None => None
            end
        end
      else Some (mk_run (Rejected e) [] (S call))
  end.

Definition generateContentWithRetry {R : Type} (api : nat -> reply R)
    (retries delay : Z) : option (run R) :=
  retry_from (Z.to_nat retries) api 0 retries delay.

(** [handleApiError]: the message it hands to [showStatus]. *)
Definition handleApiError (e : api_error) (defaultMsg : jsstring) : jsstring :=
  let eStr := error_text e in
  if includes eStr (lit "429") || includes eStr (lit "RESOURCE_EXHAUSTED")
     || includes eStr (lit "quota")
  then lit "Quota exceeded (429). Check your billing or wait."
  else if includes eStr (lit "503") || includes eStr (lit "overloaded")
  then lit "Server overloaded (503). Retrying might help."
  else if negb (str_eqb (e_message e) [])
  then lit "Error: " ++ firstn 40 (e_message e)
       ++ (if (40 <? List.length (e_message e))%nat then lit "..." else [])
  else defaultMsg.

(** An API that is overloaded twice and then answers. *)
Definition overloaded_error : api_error :=
  mk_api_error (lit "ApiError: 503") (lit "The model is overloaded.") (lit "{}").

Definition flaky_api (n : nat) : reply jsstring :=
  if (n <? 2)%nat then Rejected overloaded_error else Resolved (lit "{}").

(* ================================================================== *)
(** * Properties *)
(* ================================================================== *)

(** ** Arrays and views *)

Section Arrays.

Implicit Types a t : bytes.

Lemma len_nonneg a : 0 <= len a.
Proof. unfold len. lia. Qed.

Lemma len_app a (b : bytes) : len (a ++ b) = len a + len b.
Proof. unfold len. rewrite length_app. lia. Qed.

Lemma len_cons x a : len (x :: a) = 1 + len a.
Proof. unfold len. cbn [List.length]. lia. Qed.

Lemma len_nil : len [] = 0.
Proof. reflexivity. Qed.

Lemma len_be32 v : len (be32 v) = 4.
Proof. reflexivity. Qed.

Lemma to_nat_len a : Z.to_nat (len a) = List.length a.
Proof. unfold len. lia. Qed.

Lemma skipn_past a (s : bytes) o :
  0 <= o -> skipn (Z.to_nat (len a + o)) (a ++ s) = skipn (Z.to_nat o) s.
Proof.
  intros Ho. rewrite skipn_app.
  replace (Z.to_nat (len a + o) - List.length a)%nat with (Z.to_nat o)
    by (unfold len; lia).
  rewrite skipn_all2 by (unfold len; lia). reflexivity.
Qed.

Lemma skipn_exact a (s : bytes) : skipn (Z.to_nat (len a)) (a ++ s) = s.
Proof.
  rewrite <- (Z.add_0_r (len a)). rewrite skipn_past by lia. reflexivity.
Qed.

Lemma getUint32_past a (s : bytes) o :
  0 <= o -> getUint32 (a ++ s) (len a + o) = getUint32 s o.
Proof.
  intros Ho. unfold getUint32. rewrite len_app, skipn_past by assumption.
  pose proof (len_nonneg a).
  replace (len a + o <? 0) with (o <? 0) by lia.
  replace (len a + len s <? len a + o + 4) with (len s <? o + 4) by lia.
  reflexivity.
Qed.

Lemma be32_value_range b0 b1 b2 b3 : 0 <= be32_value b0 b1 b2 b3 < 2 ^ 32.
Proof.
  unfold be32_value.
  pose proof (byte.unsigned_range b0); pose proof (byte.unsigned_range b1).
  pose proof (byte.unsigned_range b2); pose proof (byte.unsigned_range b3).
  lia.
Qed.

Lemma getUint32_range buffer pos v :
  getUint32 buffer pos = Normal v -> 0 <= v < 2 ^ 32.
Proof.
  unfold getUint32. destruct (_ || _); [discriminate|].
  destruct (skipn _ _) as [|b0 [|b1 [|b2 [|b3 r]]]]; try discriminate.
  intros E. injection E as <-. apply be32_value_range.
Qed.

(** A header that fits is always read. *)
Lemma getUint32_fits buffer pos :
  0 <= pos -> pos + 4 <= len buffer -> exists v, getUint32 buffer pos = Normal v.
Proof.
  intros H0 H4. unfold getUint32.
  replace ((pos <? 0) || (len buffer <? pos + 4)) with false by lia.
  destruct (skipn (Z.to_nat pos) buffer) as [|b0 [|b1 [|b2 [|b3 r]]]] eqn:E;
    try (apply (f_equal (@List.length byte)) in E; rewrite length_skipn in E;
         unfold len in H4; cbn [List.length] in E; lia).
  eexists; reflexivity.
Qed.

Lemma be32_read v b0 b1 b2 b3 :
  0 <= v < 2 ^ 32 -> be32 v = [b0; b1; b2; b3] -> be32_value b0 b1 b2 b3 = v.
Proof.
  intros Hv E. unfold be32 in E. injection E as <- <- <- <-.
  unfold be32_value. rewrite !byte.unsigned_of_Z. unfold byte.wrap.
  rewrite !Z.shiftr_div_pow2 by lia.
  change (2 ^ 32) with 4294967296 in Hv.
  change (2 ^ 24) with 16777216. change (2 ^ 16) with 65536.
  change (2 ^ 8) with 256. zdm.
Qed.

Lemma getUint32_be32 v t : 0 <= v < 2 ^ 32 -> getUint32 (be32 v ++ t) 0 = Normal v.
Proof.
  intros Hv. unfold getUint32. rewrite len_app, len_be32.
  pose proof (len_nonneg t).
  replace ((0 <? 0) || (4 + len t <? 0 + 4)) with false by lia.
  cbn [Z.to_nat skipn be32 app]. f_equal. now apply be32_read.
Qed.

Lemma clamp_inside n i : 0 <= i <= n -> clamp_index n i = i.
Proof. intros H. unfold clamp_index. replace (i <? 0) with false by lia. lia. Qed.

Lemma clamp_beyond n i : 0 <= n <= i -> clamp_index n i = n.
Proof. intros H. unfold clamp_index. replace (i <? 0) with false by lia. lia. Qed.

(** [slice] inside the array is [firstn] of [skipn]. *)
Lemma u8_slice_inside a s e :
  0 <= s <= e -> e <= len a ->
  u8_slice a s e = firstn (Z.to_nat (e - s)) (skipn (Z.to_nat s) a).
Proof.
  intros Hs He. unfold u8_slice. rewrite !clamp_inside by lia. reflexivity.
Qed.

Lemma u8_slice_past a (s : bytes) o o' :
  0 <= o <= o' -> o' <= len s ->
  u8_slice (a ++ s) (len a + o) (len a + o') = u8_slice s o o'.
Proof.
  intros Ho Ho'. pose proof (len_nonneg a).
  rewrite !u8_slice_inside by (rewrite ?len_app; lia).
  rewrite skipn_past by lia. f_equal. lia.
Qed.

(** The middle of three parts. *)
Lemma u8_slice_middle a (b : bytes) t :
  u8_slice (a ++ b ++ t) (len a) (len a + len b) = b.
Proof.
  pose proof (len_nonneg a); pose proof (len_nonneg b); pose proof (len_nonneg t).
  rewrite u8_slice_inside by (rewrite ?len_app; lia).
  rewrite skipn_exact.
  replace (Z.to_nat (len a + len b - len a)) with (List.length b + 0)%nat
    by (unfold len; lia).
  rewrite firstn_app_2. cbn [firstn]. apply app_nil_r.
Qed.

Lemma u8_slice_prefix a t e : e = len a -> u8_slice (a ++ t) 0 e = a.
Proof.
  intros ->. exact (u8_slice_middle [] a t).
Qed.

Lemma u8_slice_from_past a t s : s = len a -> u8_slice_from (a ++ t) s = t.
Proof.
  intros ->. unfold u8_slice_from.
  pose proof (len_nonneg a); pose proof (len_nonneg t).
  rewrite u8_slice_inside by (rewrite ?len_app; lia).
  rewrite skipn_exact, len_app.
  replace (Z.to_nat (len a + len t - len a)) with (List.length t) by (unfold len; lia).
  apply firstn_all.
Qed.

(** [slice(0, e)] with [e] at or past the end is the whole array. *)
Lemma u8_slice_whole a e : len a <= e -> u8_slice a 0 e = a.
Proof.
  intros He. pose proof (len_nonneg a). unfold u8_slice.
  rewrite (clamp_inside _ 0), (clamp_beyond _ e) by lia.
  cbn [Z.to_nat skipn]. rewrite Z.sub_0_r, to_nat_len. apply firstn_all.
Qed.

End Arrays.

(** ** The decoder's walk *)

Section Walk.

Lemma read_loop_zero b o :
  read_loop 0 b o = if o <? len b then Unfinished else Normal None.
Proof. reflexivity. Qed.

Lemma read_loop_succ f b o :
  read_loop (S f) b o =
  if o <? len b then
    if o + 8 >? len b then Normal None
    else
      length <- getUint32 b o ;;
      if o + 8 + length + 4 >? len b then Normal None
      else
        let type := fromCharCode (u8_slice b (o + 4) (o + 8)) in
        match (if str_eqb type (lit "tEXt")
               then read_text (u8_slice b (o + 8) (o + 8 + length))
               else None) with
        | Some text => Normal (Some text)
        | None =>
            if str_eqb type (lit "IEND") then Normal None
            else read_loop f b (o + (12 + length))
        end
  else Normal None.
Proof. reflexivity. Qed.

(** The walk looks at the buffer only relative to its offset. *)
Lemma read_loop_past f : forall a s o,
  0 <= o -> read_loop f (a ++ s) (len a + o) = read_loop f s o.
Proof.
  induction f as [|f IH]; intros a s o Ho.
  - rewrite !read_loop_zero, len_app.
    replace (len a + o <? len a + len s) with (o <? len s) by lia. reflexivity.
  - rewrite !read_loop_succ, len_app, getUint32_past by assumption.
    replace (len a + o <? len a + len s) with (o <? len s) by lia.
    replace (len a + o + 8 >? len a + len s) with (o + 8 >? len s) by lia.
    destruct (o <? len s); [|reflexivity].
    destruct (o + 8 >? len s); [reflexivity|].
    destruct (getUint32 s o) as [n| |] eqn:En; cbn [bind]; try reflexivity.
    apply getUint32_range in En.
    replace (len a + o + 8 + n + 4 >? len a + len s)
      with (o + 8 + n + 4 >? len s) by lia.
    destruct (o + 8 + n + 4 >? len s) eqn:Efit; [reflexivity|].
    replace (len a + o + 4) with (len a + (o + 4)) by lia.
    replace (len a + o + 8) with (len a + (o + 8)) by lia.
    replace (len a + (o + 8) + n) with (len a + (o + 8 + n)) by lia.
    replace (len a + o + (12 + n)) with (len a + (o + (12 + n))) by lia.
    rewrite !u8_slice_past by lia. cbv zeta.
    rewrite IH by lia. reflexivity.
Qed.

(** Any budget of at least the bytes left to walk gives the same result,
    and the walk is never cut off. *)
Lemma read_loop_fuel f1 : forall f2 b o,
  len b - o <= Z.of_nat f1 -> len b - o <= Z.of_nat f2 ->
  read_loop f1 b o = read_loop f2 b o /\ read_loop f1 b o <> Unfinished.
Proof.
  induction f1 as [|f1 IH]; intros f2 b o H1 H2.
  - rewrite read_loop_zero. replace (o <? len b) with false by lia.
    split; [|discriminate].
    destruct f2; [rewrite read_loop_zero | rewrite read_loop_succ];
      replace (o <? len b) with false by lia; reflexivity.
  - rewrite read_loop_succ.
    destruct (o <? len b) eqn:Eo.
    2:{ split; [|discriminate].
        destruct f2; [rewrite read_loop_zero | rewrite read_loop_succ];
          rewrite Eo; reflexivity. }
    destruct f2 as [|f2]; [lia|]. rewrite read_loop_succ, Eo.
    destruct (o + 8 >? len b) eqn:E8; [split; [reflexivity|discriminate]|].
    destruct (getUint32 b o) as [n|e|] eqn:En; cbn [bind].
    + apply getUint32_range in En.
      destruct (o + 8 + n + 4 >? len b); [split; [reflexivity|discriminate]|].
      cbv zeta.
      destruct (if str_eqb _ _ then _ else _); [split; [reflexivity|discriminate]|].
      destruct (str_eqb _ (lit "IEND")); [split; [reflexivity|discriminate]|].
      apply IH; lia.
    + split; [reflexivity|discriminate].
    + exfalso. unfold getUint32 in En.
      destruct (_ || _); [discriminate|].
      destruct (skipn _ _) as [|b0 [|b1 [|b2 [|b3 r]]]]; discriminate.
Qed.

Lemma read_loop_enough f1 f2 b o :
  len b - o <= Z.of_nat f1 -> len b - o <= Z.of_nat f2 ->
  read_loop f1 b o = read_loop f2 b o.
Proof. intros H1 H2. now apply read_loop_fuel. Qed.

(** The scan for the separator finds the boundary between keyword and
    text. *)
Lemma find_null_spec data : forall i,
  find_null data i =
  if has_separator data then i + len (keyword_bytes data) else -1.
Proof.
  induction data as [|b r IH]; intros i; cbn [find_null has_separator existsb keyword_bytes].
  - reflexivity.
  - destruct (byte.unsigned b =? 0); cbn [orb].
    + rewrite len_nil. lia.
    + rewrite IH. fold (has_separator r). destruct (has_separator r); [|reflexivity].
      rewrite len_cons. lia.
Qed.

Lemma separator_split data :
  has_separator data = true ->
  data = keyword_bytes data ++ Byte.x00 :: text_bytes data.
Proof.
  induction data as [|b r IH]; cbn [has_separator existsb keyword_bytes text_bytes].
  - discriminate.
  - destruct (byte.unsigned b =? 0) eqn:E; cbn [orb].
    + intros _. apply Z.eqb_eq in E. cbn [app]. f_equal.
      apply byte.unsigned_inj. rewrite E. reflexivity.
    + intros H. cbn [app]. f_equal. apply IH. exact H.
Qed.

(** What the [tEXt] branch returns, in terms of the chunk's keyword and
    text. *)
Lemma read_text_spec data :
  read_text data =
  if has_separator data && recognized_keyword (TextDecoder_decode (keyword_bytes data))
  then Some (TextDecoder_decode (text_bytes data))
  else None.
Proof.
  unfold read_text. rewrite find_null_spec.
  destruct (has_separator data) eqn:Hsep; cbn [andb]; [|reflexivity].
  pose proof (separator_split data Hsep) as Hsplit.
  set (k := keyword_bytes data) in *. set (tx := text_bytes data) in *.
  clearbody k tx. subst data. clear Hsep.
  pose proof (len_nonneg k) as Hk.
  replace (0 + len k >? -1) with true by lia.
  cbv zeta. rewrite u8_slice_prefix by lia.
  change (k ++ Byte.x00 :: tx) with (k ++ [Byte.x00] ++ tx).
  rewrite app_assoc, u8_slice_from_past
    by (rewrite len_app; change (len [Byte.x00]) with 1; lia).
  unfold recognized_keyword.
  destruct (str_eqb _ (lit "parameters")); cbn [orb]; [reflexivity|].
  destruct (str_eqb _ (lit "BananaProData")); reflexivity.
Qed.

Lemma len_serialize c : len (serialize c) = 12 + len (cdata c) + (len (ctype c) - 4).
Proof. unfold serialize. rewrite !len_app, !len_be32. lia. Qed.

(** One iteration of the walk on a whole chunk at the offset. *)
Lemma read_chunk f c t :
  well_formed_chunk c ->
  len (serialize c ++ t) <= Z.of_nat f ->
  read_loop f (serialize c ++ t) 0 =
  match (if is_type c "tEXt" then read_text (cdata c) else None) with
  | Some text => Normal (Some text)
  | None => if is_type c "IEND" then Normal None else read_loop f t 0
  end.
Proof.
  intros [Hty Hlen] Hf.
  assert (Hty' : len (ctype c) = 4) by (unfold len; lia).
  pose proof (len_nonneg (cdata c)) as Hd. pose proof (len_nonneg t) as Ht.
  pose proof (len_serialize c) as Hs. rewrite len_app in Hf.
  destruct f as [|f]; [lia|].
  rewrite read_loop_succ, len_app, Hs.
  replace (0 <? _) with true by lia. replace (0 + 8 >? _) with false by lia.
  unfold serialize at 1. rewrite <- app_assoc, getUint32_be32 by lia. cbn [bind].
  replace (0 + 8 + len (cdata c) + 4 >? _) with false by lia.
  cbv zeta.
  assert (E1 : u8_slice (serialize c ++ t) (0 + 4) (0 + 8) = ctype c).
  { unfold serialize. rewrite <- !app_assoc.
    change (0 + 4) with (len (be32 (len (cdata c)))).
    replace (0 + 8) with (len (be32 (len (cdata c))) + len (ctype c))
      by (rewrite len_be32; lia).
    apply u8_slice_middle. }
  assert (E2 : u8_slice (serialize c ++ t) (0 + 8) (0 + 8 + len (cdata c)) = cdata c).
  { unfold serialize. rewrite <- !app_assoc.
    rewrite (app_assoc (be32 _) (ctype c)).
    replace (0 + 8) with (len (be32 (len (cdata c)) ++ ctype c))
      by (rewrite len_app, len_be32; lia).
    apply u8_slice_middle. }
  rewrite E1, E2. fold (is_type c "tEXt"). fold (is_type c "IEND").
  destruct (if is_type c "tEXt" then _ else _); [reflexivity|].
  destruct (is_type c "IEND"); [reflexivity|].
  replace (0 + (12 + len (cdata c))) with (len (serialize c) + 0) by lia.
  rewrite read_loop_past by lia.
  apply read_loop_enough; lia.
Qed.

(** Chunks that are stepped over leave the walk at the bytes after them. *)
Lemma read_stepped_over cs : forall f t,
  Forall stepped_over cs ->
  len (serialize_all cs ++ t) <= Z.of_nat f ->
  read_loop f (serialize_all cs ++ t) 0 = read_loop f t 0.
Proof.
  induction cs as [|c cs IH]; intros f t Hcs Hf; [reflexivity|].
  inversion Hcs as [|c' cs' [Hwf [Hpay Hend]] Hrest]; subst.
  unfold serialize_all in *. cbn [flat_map] in *. rewrite <- app_assoc in *.
  rewrite read_chunk by assumption.
  rewrite Hend.
  assert (Hnone : (if is_type c "tEXt" then read_text (cdata c) else None) = None).
  { unfold carries_payload in Hpay. rewrite read_text_spec.
    destruct (is_type c "tEXt"); [|reflexivity].
    cbn [andb] in Hpay. rewrite Hpay. reflexivity. }
  rewrite Hnone. apply IH; [assumption|].
  rewrite len_app in Hf. pose proof (len_nonneg (serialize c)). lia.
Qed.

Lemma signature_value hd :
  signature_ok hd -> forall s, getUint32 (hd ++ s) 0 = Normal 0x89504E47.
Proof.
  intros (b4 & b5 & b6 & b7 & ->) s. unfold getUint32.
  rewrite len_app. pose proof (len_nonneg s).
  replace ((0 <? 0) || (_ <? 0 + 4)) with false
    by (change (len [_; _; _; _; _; _; _; _]) with 8; lia).
  reflexivity.
Qed.

Lemma signature_len hd : signature_ok hd -> len hd = 8.
Proof. intros (b4 & b5 & b6 & b7 & ->). reflexivity. Qed.

(** After the signature, decoding is the walk over the rest. *)
Lemma extract_stream hd s f :
  signature_ok hd -> len s <= Z.of_nat f ->
  extractPngMetadata (hd ++ s) = read_loop f s 0.
Proof.
  intros Hsig Hf. unfold extractPngMetadata.
  rewrite (signature_value hd Hsig). cbn [bind].
  change (negb (0x89504E47 =? 0x89504E47)) with false. cbv iota.
  pose proof (signature_len hd Hsig) as H8.
  replace 8 with (len hd + 0) by lia.
  rewrite read_loop_past by lia.
  apply read_loop_enough; [|lia].
  rewrite length_app. unfold len in *. lia.
Qed.

End Walk.

(** ** The encoder *)

Section Writer.

Lemma skipn_zeros n m : skipn n (repeat Byte.x00 (n + m)) = repeat Byte.x00 m.
Proof. induction n as [|n IH]; [reflexivity | exact IH]. Qed.

(** Copying [src] into the zero-filled remainder of a partly written
    array. *)
Lemma u8_set_fill (pre src : bytes) (m : nat) off :
  off = len pre ->
  u8_set (pre ++ repeat Byte.x00 (List.length src + m)) src off
  = Normal (pre ++ src ++ repeat Byte.x00 m).
Proof.
  intros ->. unfold u8_set. rewrite len_app.
  pose proof (len_nonneg pre).
  replace ((len pre <? 0) || _) with false
    by (symmetry; apply orb_false_intro; apply Z.ltb_ge;
        unfold len; rewrite ?repeat_length; lia).
  rewrite to_nat_len, firstn_app, firstn_all, Nat.sub_diag. cbn [firstn].
  rewrite app_nil_r, skipn_past by apply len_nonneg.
  rewrite to_nat_len, skipn_zeros. reflexivity.
Qed.

Lemma u8_set_fill_last (pre src : bytes) off :
  off = len pre ->
  u8_set (pre ++ repeat Byte.x00 (List.length src)) src off = Normal (pre ++ src).
Proof.
  intros Hoff. rewrite <- (Nat.add_0_r (List.length src)).
  rewrite u8_set_fill by exact Hoff. cbn [repeat]. rewrite app_nil_r. reflexivity.
Qed.

(** [a[i] = 0] on the first zero of the remainder. *)
Lemma u8_put_fill (pre : bytes) (m : nat) i :
  i = len pre ->
  u8_put (pre ++ repeat Byte.x00 (S m)) i 0 = pre ++ Byte.x00 :: repeat Byte.x00 m.
Proof.
  intros ->. unfold u8_put. rewrite len_app.
  pose proof (len_nonneg pre).
  replace ((0 <=? len pre) && _) with true
    by (symmetry; apply andb_true_intro; split;
        [apply Z.leb_le | apply Z.ltb_lt];
        unfold len; rewrite ?repeat_length; lia).
  rewrite to_nat_len, firstn_app, firstn_all, Nat.sub_diag. cbn [firstn].
  rewrite app_nil_r. f_equal.
  replace (List.length pre + 1)%nat with (Z.to_nat (len pre + 1)) by (unfold len; lia).
  rewrite skipn_past by lia. reflexivity.
Qed.

Lemma u8_new_sum (n : Z) (a : bytes) (m : nat) :
  n = len a + Z.of_nat m -> u8_new n = [] ++ repeat Byte.x00 (List.length a + m).
Proof. intros ->. unfold u8_new, len. cbn [app]. f_equal. lia. Qed.

Lemma setUint32_fresh v : setUint32 (u8_new 4) 0 v = Normal (be32 (ToUint32 v)).
Proof. reflexivity. Qed.

Lemma type_tag_bytes : TextEncoder_encode (lit "tEXt") = tag "tEXt".
Proof. reflexivity. Qed.

(** The chunk is assembled without a [RangeError], and its bytes are
    length, type, data and checksum in that order. *)
Lemma text_chunk_bytes key value :
  text_chunk key value
  = Normal (be32 (ToUint32 (len (text_data key value))) ++ tag "tEXt"
            ++ text_data key value
            ++ be32 (ToUint32 (crc32 (tag "tEXt" ++ text_data key value)))).
Proof.
  unfold text_chunk, text_data.
  set (k := TextEncoder_encode key). set (v := TextEncoder_encode value).
  rewrite (u8_new_sum _ k (1 + List.length v)) by (unfold len; lia).
  rewrite u8_set_fill by reflexivity. cbn [bind app].
  change (k ++ repeat Byte.x00 (1 + List.length v))
    with (k ++ repeat Byte.x00 (S (List.length v))).
  rewrite u8_put_fill by reflexivity.
  change (k ++ Byte.x00 :: repeat Byte.x00 (List.length v))
    with (k ++ [Byte.x00] ++ repeat Byte.x00 (List.length v)).
  rewrite app_assoc.
  rewrite u8_set_fill_last by (rewrite len_app; reflexivity).
  cbn [bind]. rewrite <- app_assoc. cbn [app].
  set (data := k ++ Byte.x00 :: v).
  rewrite setUint32_fresh, type_tag_bytes. cbn [bind].
  rewrite (u8_new_sum _ (tag "tEXt") (List.length data)) by (unfold len; lia).
  rewrite u8_set_fill by reflexivity. cbn [bind app].
  rewrite u8_set_fill_last by reflexivity.
  cbn [bind]. rewrite setUint32_fresh. cbn [bind].
  set (crc := be32 (ToUint32 (crc32 (tag "tEXt" ++ data)))).
  set (lb := be32 (ToUint32 (len data))).
  rewrite (u8_new_sum _ lb (4 + (List.length data + 4))) by (change (len lb) with 4; unfold len; lia).
  rewrite u8_set_fill by reflexivity. cbn [bind app].
  change (lb ++ repeat Byte.x00 (4 + (List.length data + 4)))
    with (lb ++ repeat Byte.x00 (List.length (tag "tEXt") + (List.length data + 4))).
  rewrite u8_set_fill by reflexivity. cbn [bind].
  rewrite app_assoc, u8_set_fill by (rewrite len_app; reflexivity). cbn [bind].
  rewrite app_assoc.
  change 4%nat with (List.length crc).
  rewrite u8_set_fill_last
    by (rewrite !len_app; unfold lb; rewrite len_be32; cbn; lia).
  cbn [bind]. rewrite <- !app_assoc. reflexivity.
Qed.

Lemma ToUint32_small v : 0 <= v < 2 ^ 32 -> ToUint32 v = v.
Proof. intros H. unfold ToUint32. apply Z.mod_small. exact H. Qed.

Lemma text_chunk_serialize key value :
  len (text_data key value) < 2 ^ 32 ->
  text_chunk key value = Normal (serialize (payload_chunk key value)).
Proof.
  intros Hlen. rewrite text_chunk_bytes. unfold serialize, payload_chunk, chunk_crc.
  cbn [cdata ctype ccrc].
  rewrite (ToUint32_small (len _)) by (pose proof (len_nonneg (text_data key value)); lia).
  reflexivity.
Qed.

(** Splicing the chunk in at the end of a prefix [A] of the input. *)
Lemma insert_chunk_at (A t chunk : bytes) pos chunkLen :
  pos + 8 + chunkLen + 4 = len A ->
  insert_chunk (A ++ t) chunk pos chunkLen = Normal (A ++ chunk ++ t).
Proof.
  intros Hip. unfold insert_chunk. rewrite Hip. cbv zeta.
  rewrite u8_slice_prefix, u8_slice_from_past by reflexivity.
  rewrite (u8_new_sum _ A (List.length chunk + List.length t))
    by (rewrite len_app; unfold len; lia).
  rewrite u8_set_fill by reflexivity. cbn [bind app].
  rewrite u8_set_fill by reflexivity. cbn [bind].
  rewrite app_assoc, u8_set_fill_last by (rewrite len_app; reflexivity).
  cbn [bind]. rewrite <- app_assoc. reflexivity.
Qed.

Lemma write_loop_succ f png chunk pos :
  write_loop (S f) png chunk pos =
  if pos <? len png then
    chunkLen <- getUint32 png pos ;;
    let type := fromCharCode (u8_slice png (pos + 4) (pos + 8)) in
    if str_eqb type (lit "IHDR") then insert_chunk png chunk pos chunkLen
    else write_loop f png chunk (pos + 8 + chunkLen + 4)
  else Normal png.
Proof. reflexivity. Qed.

(** One iteration of the encoder's walk on a whole chunk at [len a]. *)
Lemma write_chunk f (a : bytes) c (t chunk : bytes) :
  well_formed_chunk c ->
  write_loop (S f) (a ++ serialize c ++ t) chunk (len a) =
  if is_type c "IHDR" then Normal (a ++ serialize c ++ chunk ++ t)
  else write_loop f (a ++ serialize c ++ t) chunk (len (a ++ serialize c)).
Proof.
  intros [Hty Hlen].
  assert (Hty' : len (ctype c) = 4) by (unfold len; lia).
  pose proof (len_nonneg (cdata c)) as Hd. pose proof (len_nonneg t) as Ht.
  pose proof (len_nonneg a) as Ha. pose proof (len_serialize c) as Hs.
  rewrite write_loop_succ, !len_app, Hs.
  replace (len a <? _) with true by lia.
  rewrite <- (Z.add_0_r (len a)) at 1. rewrite getUint32_past by lia.
  unfold serialize at 1. rewrite <- app_assoc, getUint32_be32 by lia. cbn [bind].
  cbv zeta.
  assert (E1 : u8_slice (a ++ serialize c ++ t) (len a + 4) (len a + 8) = ctype c).
  { unfold serialize. rewrite <- !app_assoc, (app_assoc a).
    replace (len a + 4) with (len (a ++ be32 (len (cdata c))))
      by (rewrite len_app, len_be32; lia).
    replace (len a + 8) with (len (a ++ be32 (len (cdata c))) + len (ctype c))
      by (rewrite len_app, len_be32; lia).
    apply u8_slice_middle. }
  rewrite E1. fold (is_type c "IHDR").
  destruct (is_type c "IHDR").
  - rewrite (app_assoc a (serialize c) t).
    rewrite insert_chunk_at by (rewrite len_app; lia).
    rewrite <- app_assoc. reflexivity.
  - f_equal. lia.
Qed.

(** The walk passes every chunk before the first [IHDR] and inserts the
    new chunk after it; the budget is never exhausted. *)
Lemma write_stream pre : forall (a : bytes) f ihdr (t chunk : bytes),
  Forall well_formed_chunk pre ->
  Forall (fun c => is_type c "IHDR" = false) pre ->
  well_formed_chunk ihdr -> is_type ihdr "IHDR" = true ->
  len (serialize_all pre ++ serialize ihdr ++ t) <= Z.of_nat f ->
  write_loop f (a ++ serialize_all pre ++ serialize ihdr ++ t) chunk (len a)
  = Normal (a ++ serialize_all pre ++ serialize ihdr ++ chunk ++ t).
Proof.
  induction pre as [|c pre IH]; intros a f ihdr t chunk Hwf Hno Hi Hty Hf.
  - cbn [serialize_all flat_map app] in *.
    destruct Hi as [Hi4 Hilen].
    assert (0 < Z.of_nat f).
    { rewrite len_app, len_serialize in Hf.
      pose proof (len_nonneg (cdata ihdr)); pose proof (len_nonneg t).
      unfold len in Hf at 2. lia. }
    destruct f as [|f]; [lia|].
    rewrite write_chunk by (split; assumption). rewrite Hty. reflexivity.
  - inversion Hwf as [|c' pre' Hc Hpre]; subst.
    inversion Hno as [|c' pre' Hnc Hnpre]; subst.
    unfold serialize_all in *. cbn [flat_map] in *. rewrite <- !app_assoc in *.
    assert (Hc4 : len (serialize c) >= 12).
    { destruct Hc as [Hc4 _]. rewrite len_serialize.
      pose proof (len_nonneg (cdata c)). unfold len at 2. lia. }
    rewrite len_app in Hf.
    pose proof (len_nonneg (flat_map serialize pre ++ serialize ihdr ++ t)).
    destruct f as [|f]; [lia|].
    rewrite write_chunk by assumption. rewrite Hnc.
    rewrite !(app_assoc a (serialize c)).
    apply IH; try assumption. lia.
Qed.

Lemma signature_passes hd (s : bytes) :
  signature_ok hd ->
  u8_differs (hd ++ s) 0 137 || u8_differs (hd ++ s) 1 80
  || u8_differs (hd ++ s) 2 78 || u8_differs (hd ++ s) 3 71 = false.
Proof. intros (b4 & b5 & b6 & b7 & ->). reflexivity. Qed.

(** [writePngMetadata] on a stream whose first [IHDR] follows whole
    chunks: the chunk the code assembles lands right after it. *)
Lemma write_inserts hd pre ihdr (t : bytes) key value :
  signature_ok hd ->
  Forall well_formed_chunk pre ->
  Forall (fun c => is_type c "IHDR" = false) pre ->
  well_formed_chunk ihdr -> is_type ihdr "IHDR" = true ->
  exists chunk,
    text_chunk key value = Normal chunk /\
    writePngMetadata (hd ++ serialize_all pre ++ serialize ihdr ++ t) key value
    = Normal (hd ++ serialize_all pre ++ serialize ihdr ++ chunk ++ t).
Proof.
  intros Hsig Hwf Hno Hi Hty. unfold writePngMetadata.
  rewrite text_chunk_bytes. eexists; split; [reflexivity|]. cbn [bind].
  rewrite signature_passes by assumption.
  replace 8 with (len hd) by (apply signature_len; assumption).
  apply write_stream; try assumption.
  rewrite length_app. pose proof (len_nonneg hd). unfold len in *. lia.
Qed.

End Writer.

(** ** UTF-8: decoding what the encoder wrote *)

Section Utf8.

Lemma land_low x n : 0 <= n -> Z.land x (Z.ones n) = x mod 2 ^ n.
Proof. intros Hn. apply Z.land_ones. exact Hn. Qed.

Lemma land_63 x : Z.land x 0x3F = x mod 64.
Proof. exact (land_low x 6 ltac:(lia)). Qed.

Lemma land_31 x : Z.land x 0x1F = x mod 32.
Proof. exact (land_low x 5 ltac:(lia)). Qed.

Lemma land_15 x : Z.land x 0xF = x mod 16.
Proof. exact (land_low x 4 ltac:(lia)). Qed.

Lemma land_7 x : Z.land x 0x7 = x mod 8.
Proof. exact (land_low x 3 ltac:(lia)). Qed.

Lemma land_1023 x : Z.land x 0x3FF = x mod 1024.
Proof. exact (land_low x 10 ltac:(lia)). Qed.

Lemma lor_128 y : 0 <= y < 64 -> Z.lor 0x80 y = 128 + y.
Proof.
  intros Hy. apply Z.or_to_plus.
  rewrite <- (Z.mod_small y 64) by lia. rewrite <- land_63.
  rewrite (Z.land_comm y), Z.land_assoc. reflexivity.
Qed.

Lemma lor_shift6 x y : 0 <= y < 64 -> Z.lor (Z.shiftl x 6) y = x * 64 + y.
Proof.
  intros Hy. rewrite Z.or_to_plus.
  - rewrite Z.shiftl_mul_pow2 by lia. reflexivity.
  - rewrite <- (Z.mod_small y 64) by lia. rewrite <- land_63.
    rewrite (Z.land_comm y), Z.land_assoc, land_63, Z.shiftl_mul_pow2 by lia.
    change (2 ^ 6) with 64. rewrite Z.mod_mul by lia. reflexivity.
Qed.

Lemma continuation_value cp k :
  0 <= k -> byte.unsigned (utf8_continuation cp k) = 128 + (cp / 2 ^ (6 * k)) mod 64.
Proof.
  intros Hk. unfold utf8_continuation.
  rewrite byte.unsigned_of_Z, land_63, Z.shiftr_div_pow2 by lia.
  rewrite lor_128 by (apply Z.mod_pos_bound; lia).
  unfold byte.wrap. apply Z.mod_small.
  pose proof (Z.mod_pos_bound (cp / 2 ^ (6 * k)) 64 ltac:(lia)). lia.
Qed.

Lemma byte_value x : 0 <= x < 256 -> byte.unsigned (byte.of_Z x) = x.
Proof.
  intros Hx. rewrite byte.unsigned_of_Z. unfold byte.wrap.
  apply Z.mod_small. lia.
Qed.

(** The handler on a continuation byte inside the expected range. *)
Lemma handler_continuation st x :
  bytes_needed st <> 0 -> 0 <= x < 64 ->
  lower_boundary st <= 128 + x <= upper_boundary st ->
  utf8_handler st (128 + x) =
  if bytes_seen st + 1 =? bytes_needed st
  then (utf8_init, [code_point st * 64 + x])
  else (mk_utf8 (code_point st * 64 + x) (bytes_seen st + 1) (bytes_needed st)
          0x80 0xBF, []).
Proof.
  intros Hn Hx Hb. unfold utf8_handler.
  replace (bytes_needed st =? 0) with false by lia.
  replace ((128 + x <? lower_boundary st) || (upper_boundary st <? 128 + x))
    with false by lia.
  rewrite land_63.
  replace ((128 + x) mod 64) with x by zdm.
  rewrite lor_shift6 by lia. reflexivity.
Qed.

Lemma run_cons st b rest :
  utf8_run st (b :: rest) =
  snd (utf8_handler st (byte.unsigned b))
  ++ utf8_run (fst (utf8_handler st (byte.unsigned b))) rest.
Proof. cbn [utf8_run]. destruct (utf8_handler st (byte.unsigned b)). reflexivity. Qed.

Ltac settle :=
  match goal with
  | |- context [if ?c then _ else _] =>
      first [ replace c with true by zdm | replace c with false by zdm ]
  end.

Lemma first_ascii x : 0 <= x <= 127 -> utf8_first x = (utf8_init, [x]).
Proof. intros Hx. unfold utf8_first. settle. reflexivity. Qed.

Lemma first_lead2 x :
  2 <= x < 32 -> utf8_first (192 + x) = (mk_utf8 x 0 1 0x80 0xBF, []).
Proof.
  intros Hx. unfold utf8_first. do 2 settle. rewrite land_31.
  replace ((192 + x) mod 32) with x by zdm. reflexivity.
Qed.

Lemma first_lead3 x :
  0 <= x < 16 ->
  utf8_first (224 + x) =
  (mk_utf8 x 0 2 (if x =? 0 then 0xA0 else 0x80) (if x =? 13 then 0x9F else 0xBF), []).
Proof.
  intros Hx. unfold utf8_first. do 3 settle. rewrite land_15.
  replace ((224 + x) mod 16) with x by zdm.
  replace (224 + x =? 0xE0) with (x =? 0) by lia.
  replace (224 + x =? 0xED) with (x =? 13) by lia. reflexivity.
Qed.

Lemma first_lead4 x :
  0 <= x <= 4 ->
  utf8_first (240 + x) =
  (mk_utf8 x 0 3 (if x =? 0 then 0x90 else 0x80) (if x =? 4 then 0x8F else 0xBF), []).
Proof.
  intros Hx. unfold utf8_first. do 4 settle. rewrite land_7.
  replace ((240 + x) mod 8) with x by zdm.
  replace (240 + x =? 0xF0) with (x =? 0) by lia.
  replace (240 + x =? 0xF4) with (x =? 4) by lia. reflexivity.
Qed.

Lemma handler_initial b : utf8_handler utf8_init b = utf8_first b.
Proof. reflexivity. Qed.

(** The decoder, started in its initial state on the encoding of a scalar
    value, emits that value and is back in its initial state. *)
Lemma run_encoded cp rest :
  scalar_value cp ->
  utf8_run utf8_init (utf8_encode_scalar cp ++ rest) = cp :: utf8_run utf8_init rest.
Proof.
  intros [Hr Hs]. unfold utf8_encode_scalar.
  destruct (Z.leb_spec cp 0x7F) as [H1|H1].
  { cbn [app]. rewrite run_cons, byte_value, handler_initial, first_ascii by lia.
    reflexivity. }
  destruct (Z.leb_spec cp 0x7FF) as [H2|H2].
  { cbn [app]. rewrite run_cons, Z.shiftr_div_pow2, byte_value by zdm.
    replace (cp / 2 ^ 6 + 0xC0) with (192 + cp / 64) by (change (2 ^ 6) with 64; lia).
    rewrite handler_initial, first_lead2 by zdm. cbn [fst snd app].
    rewrite run_cons, continuation_value by lia.
    rewrite handler_continuation
      by (cbn [bytes_needed lower_boundary upper_boundary]; zdm).
    cbn [bytes_seen bytes_needed code_point]. settle. cbn [fst snd app].
    f_equal. change (2 ^ (6 * 0)) with 1. zdm. }
  destruct (Z.leb_spec cp 0xFFFF) as [H3|H3].
  { cbn [app]. rewrite run_cons, Z.shiftr_div_pow2, byte_value by zdm.
    replace (cp / 2 ^ 12 + 0xE0) with (224 + cp / 4096)
      by (change (2 ^ 12) with 4096; lia).
    rewrite handler_initial, first_lead3 by zdm. cbn [fst snd app].
    rewrite run_cons, continuation_value by lia.
    change (2 ^ (6 * 1)) with 64.
    rewrite handler_continuation.
    2:{ cbn [bytes_needed]. lia. }
    2:{ zdm. }
    2:{ cbn [lower_boundary upper_boundary].
        destruct (Z.eqb_spec (cp / 4096) 0); destruct (Z.eqb_spec (cp / 4096) 13); zdm. }
    cbn [bytes_seen bytes_needed code_point]. settle. cbn [fst snd app].
    rewrite run_cons, continuation_value by lia.
    change (2 ^ (6 * 0)) with 1.
    rewrite handler_continuation
      by (cbn [bytes_needed lower_boundary upper_boundary]; zdm).
    cbn [bytes_seen bytes_needed code_point]. settle. cbn [fst snd app].
    f_equal. zdm. }
  cbn [app]. rewrite run_cons, Z.shiftr_div_pow2, byte_value by zdm.
  replace (cp / 2 ^ 18 + 0xF0) with (240 + cp / 262144)
    by (change (2 ^ 18) with 262144; lia).
  rewrite handler_initial, first_lead4 by zdm. cbn [fst snd app].
  rewrite run_cons, continuation_value by lia.
  change (2 ^ (6 * 2)) with 4096.
  rewrite handler_continuation.
  2:{ cbn [bytes_needed]. lia. }
  2:{ zdm. }
  2:{ cbn [lower_boundary upper_boundary].
      destruct (Z.eqb_spec (cp / 262144) 0); destruct (Z.eqb_spec (cp / 262144) 4); zdm. }
  cbn [bytes_seen bytes_needed code_point]. settle. cbn [fst snd app].
  rewrite run_cons, continuation_value by lia.
  change (2 ^ (6 * 1)) with 64.
  rewrite handler_continuation
    by (cbn [bytes_needed lower_boundary upper_boundary]; zdm).
  cbn [bytes_seen bytes_needed code_point]. settle. cbn [fst snd app].
  rewrite run_cons, continuation_value by lia.
  change (2 ^ (6 * 0)) with 1.
  rewrite handler_continuation
    by (cbn [bytes_needed lower_boundary upper_boundary]; zdm).
  cbn [bytes_seen bytes_needed code_point]. settle. cbn [fst snd app].
  f_equal. zdm.
Qed.

Lemma run_encoded_all l : forall rest,
  Forall scalar_value l ->
  utf8_run utf8_init (flat_map utf8_encode_scalar l ++ rest)
  = l ++ utf8_run utf8_init rest.
Proof.
  induction l as [|cp l IH]; intros rest Hl; [reflexivity|].
  inversion Hl as [|cp' l' Hcp Hrest]; subst.
  cbn [flat_map]. rewrite <- app_assoc, run_encoded by assumption.
  rewrite IH by assumption. reflexivity.
Qed.

Lemma length_induction (P : jsstring -> Prop) :
  (forall s, (forall s', (List.length s' < List.length s)%nat -> P s') -> P s) ->
  forall s, P s.
Proof.
  intros Hstep.
  assert (H : forall n s, (List.length s < n)%nat -> P s).
  { induction n as [|n IH]; intros s Hs; [lia|].
    apply Hstep. intros s' Hs'. apply IH. lia. }
  intros s. apply (H (S (List.length s))). lia.
Qed.

(** The conversion to scalar values produces scalar values, whatever the
    string. *)
Lemma to_scalars_scalar s :
  code_units s = true -> Forall scalar_value (to_scalars s).
Proof.
  induction s as [s IH] using length_induction. intros Hu.
  destruct s as [|c t]; [constructor|].
  cbn [code_units forallb] in Hu. apply andb_prop in Hu as [Hc Ht].
  fold (code_units t) in Ht.
  cbn [to_scalars]. unfold is_lead, is_trail.
  destruct ((0xD800 <=? c) && (c <=? 0xDBFF)) eqn:El.
  - destruct t as [|d t'].
    + constructor; [unfold scalar_value; lia | constructor].
    + cbn [code_units forallb] in Ht. apply andb_prop in Ht as [Hd Ht'].
      fold (code_units t') in Ht'.
      destruct ((0xDC00 <=? d) && (d <=? 0xDFFF)) eqn:Et.
      * constructor; [unfold scalar_value; lia|].
        apply IH; [cbn [List.length]; lia | assumption].
      * constructor; [unfold scalar_value; lia|].
        apply IH; [cbn [List.length]; lia|].
        cbn [code_units forallb]. rewrite Hd. exact Ht'.
  - destruct ((0xDC00 <=? c) && (c <=? 0xDFFF)) eqn:Et.
    + constructor; [unfold scalar_value; lia|].
      apply IH; [cbn [List.length]; lia | assumption].
    + constructor; [unfold scalar_value; lia|].
      apply IH; [cbn [List.length]; lia | assumption].
Qed.

(** A well-formed string is recovered from its scalar values. *)
Lemma of_to_scalars s :
  utf8_string s -> of_scalars (to_scalars s) = s.
Proof.
  induction s as [s IH] using length_induction. intros [Hu Hw].
  destruct s as [|c t]; [reflexivity|].
  cbn [code_units forallb] in Hu. apply andb_prop in Hu as [Hc Ht].
  fold (code_units t) in Ht.
  cbn [to_scalars isWellFormed] in *. unfold is_lead, is_trail in *.
  destruct ((0xD800 <=? c) && (c <=? 0xDBFF)) eqn:El.
  - destruct t as [|d t']; [discriminate|].
    cbn [code_units forallb] in Ht. apply andb_prop in Ht as [Hd Ht'].
    fold (code_units t') in Ht'.
    apply andb_prop in Hw as [Et Hw']. rewrite Et.
    unfold of_scalars. cbn [flat_map]. fold (of_scalars (to_scalars t')).
    rewrite IH by (cbn [List.length]; try lia; split; assumption).
    unfold of_scalar. settle.
    rewrite land_1023, Z.shiftr_div_pow2 by lia. change (2 ^ 10) with 1024.
    cbn [app]. f_equal; [zdm|]. f_equal. zdm.
  - apply andb_prop in Hw as [Et Hw']. apply negb_true_iff in Et. rewrite Et.
    unfold of_scalars. cbn [flat_map]. fold (of_scalars (to_scalars t)).
    rewrite IH by (cbn [List.length]; try lia; split; assumption).
    unfold of_scalar. settle. reflexivity.
Qed.

(** The first scalar value of a well-formed string is its first code
    unit, unless that is a surrogate. *)
Lemma strip_bom_scalars s :
  hd_error s <> Some 0xFEFF -> strip_bom (to_scalars s) = to_scalars s.
Proof.
  destruct s as [|c t]; [reflexivity|]. cbn [hd_error]. intros Hc.
  assert (c <> 0xFEFF) by congruence.
  cbn [to_scalars]. unfold is_lead, is_trail.
  destruct ((0xD800 <=? c) && (c <=? 0xDBFF)) eqn:El.
  - destruct t as [|d t']; [reflexivity|].
    destruct ((0xDC00 <=? d) && (d <=? 0xDFFF)) eqn:Et; cbn [strip_bom].
    + replace (_ =? 0xFEFF) with false by lia. reflexivity.
    + reflexivity.
  - destruct ((0xDC00 <=? c) && (c <=? 0xDFFF)); cbn [strip_bom]; [reflexivity|].
    replace (c =? 0xFEFF) with false by lia. reflexivity.
Qed.

Lemma utf8_run_nil : utf8_run utf8_init [] = [].
Proof. reflexivity. Qed.

(** What [TextDecoder] makes of what [TextEncoder] wrote. *)
Lemma decode_encode s :
  code_units s = true ->
  TextDecoder_decode (TextEncoder_encode s) = of_scalars (strip_bom (to_scalars s)).
Proof.
  intros Hu. unfold TextDecoder_decode, TextEncoder_encode.
  rewrite <- (app_nil_r (flat_map _ _)).
  rewrite run_encoded_all by (apply to_scalars_scalar; exact Hu).
  rewrite utf8_run_nil, app_nil_r. reflexivity.
Qed.

(** A string UTF-8 can carry that does not start with U+FEFF comes back
    unchanged. *)
Lemma decode_encode_id s :
  utf8_string s -> hd_error s <> Some 0xFEFF ->
  TextDecoder_decode (TextEncoder_encode s) = s.
Proof.
  intros Hs Hbom. rewrite decode_encode by apply Hs.
  rewrite strip_bom_scalars by exact Hbom. apply of_to_scalars. exact Hs.
Qed.

(** *** Reading the decoder backwards *)

Lemma of_scalars_ascii l : forall s,
  Forall (fun c => 0 <= c < 128) s -> of_scalars l = s -> l = s.
Proof.
  induction l as [|c l IH]; intros s Hs E.
  - exact E.
  - unfold of_scalars in E. cbn [flat_map] in E. fold (of_scalars l) in E.
    unfold of_scalar in E. destruct (Z.ltb_spec c 0x10000) as [Hc|Hc].
    + cbn [app] in E. destruct s as [|x s]; [discriminate|].
      injection E as -> E. inversion Hs; subst. f_equal. apply IH; [assumption|reflexivity].
    + cbn [app] in E.
      assert (Hh : 0 <= Z.shiftr (c - 0x10000) 10) by (apply Z.shiftr_nonneg; lia).
      set (h := Z.shiftr (c - 0x10000) 10) in *. clearbody h.
      destruct s as [|x s]; [discriminate|].
      assert (Ex : 0xD800 + h = x) by congruence.
      inversion Hs as [|? ? Hx _]; subst. lia.
Qed.

Lemma strip_bom_inv l s : strip_bom l = s -> l = s \/ l = 0xFEFF :: s.
Proof.
  destruct l as [|c t]; cbn [strip_bom]; [left; assumption|].
  destruct (Z.eqb_spec c 0xFEFF) as [->|_]; intros <-; [right | left]; reflexivity.
Qed.

(** A byte read while a sequence is pending. *)
Lemma run_pending st b rest :
  bytes_needed st <> 0 -> 0x80 <= lower_boundary st -> upper_boundary st <= 0xBF ->
  utf8_run st (b :: rest) =
  if (byte.unsigned b <? lower_boundary st) || (upper_boundary st <? byte.unsigned b)
  then 0xFFFD :: utf8_run utf8_init (b :: rest)
  else if bytes_seen st + 1 =? bytes_needed st
  then (code_point st * 64 + (byte.unsigned b - 128)) :: utf8_run utf8_init rest
  else utf8_run (mk_utf8 (code_point st * 64 + (byte.unsigned b - 128))
                   (bytes_seen st + 1) (bytes_needed st) 0x80 0xBF) rest.
Proof.
  intros Hn Hlo Hhi.
  destruct ((byte.unsigned b <? lower_boundary st)
            || (upper_boundary st <? byte.unsigned b)) eqn:Eout.
  - rewrite (run_cons utf8_init), run_cons, handler_initial. unfold utf8_handler.
    replace (bytes_needed st =? 0) with false by lia. rewrite Eout.
    destruct (utf8_first (byte.unsigned b)) as [st' out]. reflexivity.
  - apply orb_false_elim in Eout as [E1 E2].
    apply Z.ltb_ge in E1. apply Z.ltb_ge in E2.
    rewrite run_cons.
    replace (byte.unsigned b) with (128 + (byte.unsigned b - 128)) at 1 2 by lia.
    rewrite handler_continuation by lia.
    destruct (bytes_seen st + 1 =? bytes_needed st); reflexivity.
Qed.

Lemma run_pending_end st : bytes_needed st <> 0 -> utf8_run st [] = [0xFFFD].
Proof. intros H. cbn [utf8_run]. replace (bytes_needed st =? 0) with false by lia. reflexivity. Qed.

Ltac emitted_replacement :=
  eexists _, _; split; [reflexivity|]; right; right; lia.

(** The next byte of a pending sequence: the input ends, the byte is out
    of range (both emit U+FFFD), or it is a continuation byte. *)
Ltac continuation rest b r Hr E1 E2 :=
  destruct rest as [|b r];
  [ rewrite run_pending_end by (cbn; lia); emitted_replacement
  | rewrite run_pending by (cbn; lia);
    cbn [bytes_needed bytes_seen code_point lower_boundary upper_boundary];
    pose proof (byte.unsigned_range b) as Hr;
    match goal with
    | |- context [if ?c then _ else _] => destruct c eqn:E1
    end;
    [ emitted_replacement
    | apply orb_false_elim in E1 as [E1 E2];
      apply Z.ltb_ge in E1; apply Z.ltb_ge in E2 ] ].

(** The first scalar value the decoder emits, by the first byte. *)
Lemma run_first b rest :
  exists c s, utf8_run utf8_init (b :: rest) = c :: s /\
    ((c = byte.unsigned b /\ c < 128 /\ s = utf8_run utf8_init rest)
     \/ (c = 0xFEFF /\ exists rest', b :: rest = utf8_bom ++ rest'
                                    /\ s = utf8_run utf8_init rest')
     \/ (128 <= c /\ c <> 0xFEFF)).
Proof.
  pose proof (byte.unsigned_range b) as Hb. change (2 ^ 8) with 256 in Hb.
  rewrite run_cons, handler_initial.
  destruct (Z_le_gt_dec (byte.unsigned b) 127) as [Ha|Ha].
  { rewrite first_ascii by lia. cbn [fst snd app].
    eexists _, _. split; [reflexivity|]. left. repeat split; lia. }
  destruct (Z_lt_ge_dec (byte.unsigned b) 194) as [Hl|Hl].
  { unfold utf8_first. do 4 settle. cbn [fst snd app]. emitted_replacement. }
  destruct (Z_le_gt_dec (byte.unsigned b) 223) as [H2|H2].
  { replace (byte.unsigned b) with (192 + (byte.unsigned b - 192)) by lia.
    rewrite first_lead2 by lia. cbn [fst snd app].
    continuation rest b2 r2 Hr2 E1 E2.
    change (0 + 1 =? 1) with true. cbv iota.
    eexists _, _. split; [reflexivity|]. right. right. lia. }
  destruct (Z_le_gt_dec (byte.unsigned b) 239) as [H3|H3].
  { replace (byte.unsigned b) with (224 + (byte.unsigned b - 224)) by lia.
    rewrite first_lead3 by lia. cbn [fst snd app].
    set (y := byte.unsigned b - 224) in *.
    assert (Hlo : 0x80 <= (if y =? 0 then 0xA0 else 0x80)) by (destruct (y =? 0); lia).
    assert (Hhi : (if y =? 13 then 0x9F else 0xBF) <= 0xBF) by (destruct (y =? 13); lia).
    assert (Hy0 : y = 0 -> (if y =? 0 then 0xA0 else 0x80) = 0xA0) by (intros ->; reflexivity).
    set (lo := if y =? 0 then 0xA0 else 0x80) in *.
    set (hi := if y =? 13 then 0x9F else 0xBF) in *. clearbody lo hi.
    continuation rest b2 r2 Hr2 E1 E2.
    change (0 + 1 =? 2) with false. cbv iota. change (0 + 1) with 1.
    continuation r2 b3 r3 Hr3 E3 E4.
    change (1 + 1 =? 2) with true. cbv iota.
    eexists _, _. split; [reflexivity|].
    destruct (Z.eq_dec ((y * 64 + (byte.unsigned b2 - 128)) * 64
                        + (byte.unsigned b3 - 128)) 0xFEFF) as [Ec|Ec].
    - right. left. split; [exact Ec|]. exists r3. split; [|reflexivity].
      assert (E : byte.unsigned b = 239 /\ byte.unsigned b2 = 187
                  /\ byte.unsigned b3 = 191) by (unfold y in *; lia).
      destruct E as (Eb & Eb2 & Eb3).
      unfold utf8_bom. cbn [app]. f_equal; [|f_equal; [|f_equal]];
        apply byte.unsigned_inj; assumption.
    - right. right. split; [|exact Ec].
      destruct (Z.eq_dec y 0) as [Ey|Ey]; [rewrite (Hy0 Ey) in E1|]; unfold y in *; lia. }
  destruct (Z_le_gt_dec (byte.unsigned b) 244) as [H4|H4].
  { replace (byte.unsigned b) with (240 + (byte.unsigned b - 240)) by lia.
    rewrite first_lead4 by lia. cbn [fst snd app].
    set (y := byte.unsigned b - 240) in *.
    assert (Hlo : 0x80 <= (if y =? 0 then 0x90 else 0x80)) by (destruct (y =? 0); lia).
    assert (Hhi : (if y =? 4 then 0x8F else 0xBF) <= 0xBF) by (destruct (y =? 4); lia).
    assert (Hy0 : y = 0 -> (if y =? 0 then 0x90 else 0x80) = 0x90) by (intros ->; reflexivity).
    set (lo := if y =? 0 then 0x90 else 0x80) in *.
    set (hi := if y =? 4 then 0x8F else 0xBF) in *. clearbody lo hi.
    continuation rest b2 r2 Hr2 E1 E2.
    change (0 + 1 =? 3) with false. cbv iota. change (0 + 1) with 1.
    continuation r2 b3 r3 Hr3 E3 E4.
    change (1 + 1 =? 3) with false. cbv iota. change (1 + 1) with 2.
    continuation r3 b4 r4 Hr4 E5 E6.
    change (2 + 1 =? 3) with true. cbv iota.
    eexists _, _. split; [reflexivity|]. right. right.
    destruct (Z.eq_dec y 0) as [Ey|Ey]; [rewrite (Hy0 Ey) in E1|]; unfold y in *; lia. }
  unfold utf8_first. do 4 settle. cbn [fst snd app]. emitted_replacement.
Qed.

(** Scalar values below 128 are decoded from single bytes only. *)
Lemma run_ascii s : forall kb,
  Forall (fun c => 0 <= c < 128) s ->
  utf8_run utf8_init kb = s -> kb = map (fun z => byte.of_Z z) s.
Proof.
  induction s as [|c s IH]; intros kb Hs E.
  - destruct kb as [|b rest]; [reflexivity|].
    destruct (run_first b rest) as (c & t & Ec & _). congruence.
  - destruct kb as [|b rest]; [discriminate E|].
    destruct (run_first b rest) as (c' & t & Ec & Hc).
    rewrite Ec in E. assert (Ecc : c' = c) by congruence.
    assert (Et : t = s) by congruence. subst c' t.
    inversion Hs as [|? ? Hc0 Hs0]; subst.
    destruct Hc as [(Hcb & _ & Ht) | [(Hf & _) | (Hbig & _)]]; try lia.
    cbn [map]. f_equal.
    + rewrite Hcb. symmetry. apply byte.of_Z_unsigned.
    + apply IH; [assumption | symmetry; exact Ht].
Qed.

(** The byte order mark is decoded from its three bytes only. *)
Lemma run_bom s kb :
  Forall (fun c => 0 <= c < 128) s ->
  utf8_run utf8_init kb = 0xFEFF :: s ->
  kb = utf8_bom ++ map (fun z => byte.of_Z z) s.
Proof.
  intros Hs E. destruct kb as [|b rest]; [discriminate E|].
  destruct (run_first b rest) as (c & t & Ec & Hc).
  rewrite Ec in E. assert (Ecc : c = 0xFEFF) by congruence.
  assert (Et : t = s) by congruence. subst c t.
  destruct Hc as [(_ & Hsmall & _) | [(_ & rest' & Hkb & Ht) | (_ & Hne)]];
    [lia | | congruence].
  rewrite Hkb. f_equal. apply run_ascii; [assumption | symmetry; exact Ht].
Qed.

(** The byte sequences [TextDecoder] decodes to a given ASCII string:
    its bytes, with or without a byte order mark in front. *)
Lemma decode_ascii kb s :
  Forall (fun c => 0 <= c < 128) s ->
  TextDecoder_decode kb = s ->
  kb = map (fun z => byte.of_Z z) s \/ kb = utf8_bom ++ map (fun z => byte.of_Z z) s.
Proof.
  intros Hs E. unfold TextDecoder_decode in E.
  apply of_scalars_ascii in E; [|exact Hs].
  apply strip_bom_inv in E as [E|E].
  - left. apply run_ascii; assumption.
  - right. apply run_bom; assumption.
Qed.

Lemma ascii_checked s :
  forallb (fun c => (0 <=? c) && (c <? 128)) s = true ->
  Forall (fun c => 0 <= c < 128) s.
Proof.
  intros H. apply Forall_forall. intros x Hx.
  rewrite forallb_forall in H. specialize (H x Hx). lia.
Qed.

End Utf8.

(** ** Keywords and payloads *)

Section Payload.

Lemma str_eqb_eq a : forall b, str_eqb a b = true <-> a = b.
Proof.
  induction a as [|x a IH]; intros [|y b]; cbn [str_eqb]; split;
    try discriminate; try reflexivity.
  - intros H. apply andb_prop in H as [Hx Ha]. apply Z.eqb_eq in Hx.
    apply IH in Ha. congruence.
  - intros H. injection H as -> ->. rewrite Z.eqb_refl. cbn [andb]. now apply IH.
Qed.

(** A chunk of type [IHDR] is neither a [tEXt] nor an [IEND] chunk. *)
Lemma ihdr_other_types c :
  is_type c "IHDR" = true -> is_type c "tEXt" = false /\ is_type c "IEND" = false.
Proof.
  unfold is_type. intros H. apply str_eqb_eq in H. rewrite H. split; reflexivity.
Qed.

Lemma ihdr_stepped_over c :
  well_formed_chunk c -> is_type c "IHDR" = true -> stepped_over c.
Proof.
  intros Hwf Hty. destruct (ihdr_other_types c Hty) as [Ht He].
  repeat split; try apply Hwf; [|exact He].
  unfold carries_payload. rewrite Ht. reflexivity.
Qed.

Lemma keyword_bytes_app (k v : bytes) :
  has_separator k = false -> keyword_bytes (k ++ Byte.x00 :: v) = k.
Proof.
  induction k as [|b k IH]; cbn [has_separator existsb app keyword_bytes].
  - reflexivity.
  - destruct (byte.unsigned b =? 0); cbn [orb]; [discriminate|].
    intros H. f_equal. apply IH. exact H.
Qed.

Lemma text_bytes_app (k v : bytes) :
  has_separator k = false -> text_bytes (k ++ Byte.x00 :: v) = v.
Proof.
  induction k as [|b k IH]; cbn [has_separator existsb app text_bytes].
  - reflexivity.
  - destruct (byte.unsigned b =? 0); cbn [orb]; [discriminate|].
    intros H. apply IH. exact H.
Qed.

Lemma has_separator_app (k v : bytes) : has_separator (k ++ Byte.x00 :: v) = true.
Proof.
  unfold has_separator. rewrite existsb_app. cbn [existsb].
  change (byte.unsigned Byte.x00 =? 0) with true. cbn [orb]. apply orb_true_r.
Qed.

(** The two keywords the decoder answers to are plain ASCII. *)
Lemma recognized_keys K :
  K = lit "BananaProData" \/ K = lit "parameters" ->
  has_separator (TextEncoder_encode K) = false
  /\ recognized_keyword (TextDecoder_decode (TextEncoder_encode K)) = true.
Proof. intros [-> | ->]; split; reflexivity. Qed.

(** The [tEXt] branch on the data the encoder builds. *)
Lemma read_text_data K V :
  K = lit "BananaProData" \/ K = lit "parameters" ->
  read_text (text_data K V) = Some (TextDecoder_decode (TextEncoder_encode V)).
Proof.
  intros HK. destruct (recognized_keys K HK) as [Hsep Hrec].
  rewrite read_text_spec. unfold text_data.
  rewrite has_separator_app, keyword_bytes_app, text_bytes_app, Hrec by exact Hsep.
  reflexivity.
Qed.

Lemma payload_chunk_well_formed K V :
  len (text_data K V) < 2 ^ 32 -> well_formed_chunk (payload_chunk K V).
Proof. intros H. split; [reflexivity | exact H]. Qed.

(** Decoding a stream in which the payload chunk follows chunks that are
    stepped over. *)
Lemma extract_finds hd cs K V (rest : bytes) :
  signature_ok hd -> Forall stepped_over cs ->
  K = lit "BananaProData" \/ K = lit "parameters" ->
  len (text_data K V) < 2 ^ 32 ->
  extractPngMetadata (hd ++ serialize_all cs ++ serialize (payload_chunk K V) ++ rest)
  = Normal (Some (TextDecoder_decode (TextEncoder_encode V))).
Proof.
  intros Hsig Hcs HK Hlen.
  rewrite (extract_stream hd _
             (List.length (serialize_all cs ++ serialize (payload_chunk K V) ++ rest))
             Hsig)
    by (unfold len; lia).
  rewrite read_stepped_over by (try assumption; unfold len; lia).
  rewrite read_chunk.
  - change (is_type (payload_chunk K V) "tEXt") with true. cbv iota.
    change (cdata (payload_chunk K V)) with (text_data K V).
    rewrite read_text_data by exact HK. reflexivity.
  - apply payload_chunk_well_formed. exact Hlen.
  - rewrite !len_app. pose proof (len_nonneg (serialize_all cs)).
    unfold len in *. rewrite !length_app. lia.
Qed.

Lemma bytes_eqb_eq a : forall b, bytes_eqb a b = true <-> a = b.
Proof.
  intros b. unfold bytes_eqb. rewrite str_eqb_eq. split; [|intros ->; reflexivity].
  revert b. induction a as [|x a IH]; intros [|y b] H; try discriminate H; [reflexivity|].
  unfold fromCharCode in H. cbn [map] in H.
  f_equal; [apply byte.unsigned_inj; congruence | apply IH; unfold fromCharCode; congruence].
Qed.

(** The decoder answers to a keyword exactly when its bytes are one of
    the four spellings. *)
Lemma recognized_bytes kb :
  recognized_keyword (TextDecoder_decode kb)
  = existsb (bytes_eqb kb) answered_keywords.
Proof.
  apply Bool.eq_iff_eq_true. split.
  - intros H. unfold recognized_keyword in H. apply orb_prop in H.
    assert (Hkb : In kb answered_keywords).
    { destruct H as [H|H]; apply str_eqb_eq in H;
        (apply decode_ascii in H; [|apply ascii_checked; reflexivity]);
        destruct H as [-> | ->]; cbn [answered_keywords In]; tauto. }
    apply existsb_exists. exists kb. split; [exact Hkb | apply bytes_eqb_eq; reflexivity].
  - intros H. apply existsb_exists in H as (x & Hx & E).
    apply bytes_eqb_eq in E. subst x.
    destruct Hx as [<- | [<- | [<- | [<- | []]]]]; vm_compute; reflexivity.
Qed.

Lemma carries_payload_answered c : carries_payload c = answered c.
Proof. unfold carries_payload, answered. rewrite recognized_bytes. reflexivity. Qed.

End Payload.

(* ================================================================== *)
(** * The checksum primitive *)
(* ================================================================== *)

Lemma ToInt32_range z : - 2 ^ 31 <= ToInt32 z < 2 ^ 31.
Proof.
  unfold ToInt32. pose proof (Z.mod_pos_bound z (2 ^ 32) ltac:(lia)) as H.
  cbv zeta. destruct (Z.ltb_spec (z mod 2 ^ 32) (2 ^ 31)); lia.
Qed.

(** The table the initialisation loop builds has its 256 entries, each
    the eight rounds applied to its index. *)
Lemma crcTable_entries :
  crcTable = map (fun n => crc_entry (Z.of_nat n)) (seq 0 256).
Proof. vm_compute. reflexivity. Qed.

(** The CRC-32 check value of the ASCII digits 1 to 9. *)
Example crc32_check_value :
  ToUint32 (crc32 (tag "123456789")) = 0xCBF43926.
Proof. vm_compute. reflexivity. Qed.

(** C9. The checksum is a function of its input bytes alone: on equal
    byte sequences it yields equal results, each a 32-bit (two's
    complement) integer; on the empty sequence it yields 0. *)
Theorem checksum_deterministic (a b : bytes) :
  a = b ->
  crc32 a = crc32 b /\ - 2 ^ 31 <= crc32 a < 2 ^ 31 /\ crc32 [] = 0.
Proof.
  intros ->. split; [reflexivity|]. split; [|reflexivity].
  unfold crc32, bit_xor. apply ToInt32_range.
Qed.

Lemma checksum_deterministic_witness :
  crc32 (tag "IEND") = crc32 (tag "IEND")
  /\ - 2 ^ 31 <= crc32 (tag "IEND") < 2 ^ 31 /\ crc32 [] = 0.
Proof. apply (checksum_deterministic (tag "IEND") (tag "IEND")). reflexivity. Defined.

(* ================================================================== *)
(** * The encoder *)
(* ================================================================== *)

(** C4. The chunk [writePngMetadata] assembles is the big-endian length
    of the data, the tag [tEXt], the data and the big-endian checksum of
    tag and data, where the data is the UTF-8 of the keyword, a zero byte
    and the UTF-8 of the value; that chunk is what lands in the output.
    The length field holds the byte length of the data as long as that
    fits 32 bits. *)
Theorem chunk_construction (K V : jsstring) :
  let data := TextEncoder_encode K ++ Byte.x00 :: TextEncoder_encode V in
  let chunk := be32 (len data) ++ tag "tEXt" ++ data
               ++ be32 (ToUint32 (crc32 (tag "tEXt" ++ data))) in
  len data < 2 ^ 32 ->
  text_chunk K V = Normal chunk
  /\ getUint32 chunk 0 = Normal (len data)
  /\ forall hd pre ihdr (rest : bytes),
       signature_ok hd ->
       Forall well_formed_chunk pre ->
       Forall (fun c => is_type c "IHDR" = false) pre ->
       well_formed_chunk ihdr -> is_type ihdr "IHDR" = true ->
       writePngMetadata (hd ++ serialize_all pre ++ serialize ihdr ++ rest) K V
       = Normal (hd ++ serialize_all pre ++ serialize ihdr ++ chunk ++ rest).
Proof.
  intros data chunk Hlen.
  assert (Hchunk : text_chunk K V = Normal chunk).
  { rewrite text_chunk_bytes. fold data. unfold text_data. fold data.
    rewrite (ToUint32_small (len data)) by (pose proof (len_nonneg data); lia).
    reflexivity. }
  split; [exact Hchunk|]. split.
  - apply getUint32_be32. pose proof (len_nonneg data). lia.
  - intros hd pre ihdr rest Hsig Hpre Hno Hi Hty.
    destruct (write_inserts hd pre ihdr rest K V Hsig Hpre Hno Hi Hty)
      as (chunk' & Hc' & Hw).
    rewrite Hchunk in Hc'. injection Hc' as <-. exact Hw.
Qed.

Lemma chunk_construction_witness :
  let K := lit "BananaProData" in
  let data := TextEncoder_encode K ++ Byte.x00 :: TextEncoder_encode castle in
  text_chunk K castle
  = Normal (be32 (len data) ++ tag "tEXt" ++ data
            ++ be32 (ToUint32 (crc32 (tag "tEXt" ++ data)))).
Proof.
  intros K data. refine (proj1 (chunk_construction K castle _)).
  vm_compute. reflexivity.
Defined.

(** C3. On a stream whose first [IHDR] chunk follows whole chunks, the
    output is the same chunks in the same order with the one new [tEXt]
    chunk right after [IHDR]; byte for byte it is the input up to the end
    of [IHDR], the new chunk, and the input from there on. *)
Theorem non_corruption hd (pre : list chunk) ihdr (post : list chunk) (K V : jsstring) :
  signature_ok hd ->
  Forall well_formed_chunk pre ->
  Forall (fun c => is_type c "IHDR" = false) pre ->
  well_formed_chunk ihdr -> is_type ihdr "IHDR" = true ->
  len (text_data K V) < 2 ^ 32 ->
  let P := hd ++ serialize_all (pre ++ ihdr :: post) in
  let n := List.length (hd ++ serialize_all pre ++ serialize ihdr) in
  let out := hd ++ serialize_all (pre ++ ihdr :: payload_chunk K V :: post) in
  writePngMetadata P K V = Normal out
  /\ is_type (payload_chunk K V) "tEXt" = true
  /\ out = firstn n P ++ serialize (payload_chunk K V) ++ skipn n P.
Proof.
  intros Hsig Hpre Hno Hi Hty Hlen P n out.
  assert (HP : P = (hd ++ serialize_all pre ++ serialize ihdr) ++ serialize_all post).
  { unfold P, serialize_all. rewrite flat_map_app. cbn [flat_map].
    rewrite <- !app_assoc. reflexivity. }
  assert (Hout : out = (hd ++ serialize_all pre ++ serialize ihdr)
                         ++ serialize (payload_chunk K V) ++ serialize_all post).
  { unfold out, serialize_all. rewrite flat_map_app. cbn [flat_map].
    rewrite <- !app_assoc. reflexivity. }
  split; [|split; [reflexivity|]].
  - destruct (write_inserts hd pre ihdr (serialize_all post) K V Hsig Hpre Hno Hi Hty)
      as (chunk & Hc & Hw).
    rewrite text_chunk_serialize in Hc by exact Hlen. injection Hc as <-.
    rewrite HP, Hout, <- !app_assoc. exact Hw.
  - rewrite Hout, HP. unfold n.
    rewrite firstn_app, firstn_all, Nat.sub_diag. cbn [firstn].
    rewrite skipn_app, skipn_all, Nat.sub_diag. cbn [skipn app].
    rewrite app_nil_r. reflexivity.
Qed.

Lemma non_corruption_witness :
  writePngMetadata (png_signature ++ serialize_all ([] ++ ihdr_chunk dummy_header :: [iend_chunk]))
    (lit "BananaProData") castle
  = Normal (png_signature
            ++ serialize_all ([] ++ ihdr_chunk dummy_header
                                 :: payload_chunk (lit "BananaProData") castle
                                 :: [iend_chunk])).
Proof.
  apply (non_corruption png_signature [] (ihdr_chunk dummy_header) [iend_chunk]
           (lit "BananaProData") castle).
  - exists Byte.x0d, Byte.x0a, Byte.x1a, Byte.x0a. reflexivity.
  - constructor.
  - constructor.
  - split; [reflexivity | vm_compute; reflexivity].
  - reflexivity.
  - vm_compute. reflexivity.
Defined.

(** A buffer without the four signature bytes comes back as it is. *)
Lemma write_rejects_signature (png : bytes) (K V : jsstring) :
  u8_differs png 0 137 || u8_differs png 1 80
  || u8_differs png 2 78 || u8_differs png 3 71 = true ->
  writePngMetadata png K V = Normal png.
Proof.
  intros H. unfold writePngMetadata. rewrite text_chunk_bytes. cbn [bind].
  rewrite H. reflexivity.
Qed.

(** A stream of whole chunks, none of type [IHDR], comes back as it is. *)
Lemma write_loop_no_ihdr cs : forall (a chunk : bytes) f,
  Forall well_formed_chunk cs ->
  Forall (fun c => is_type c "IHDR" = false) cs ->
  len (serialize_all cs) <= Z.of_nat f ->
  write_loop f (a ++ serialize_all cs) chunk (len a) = Normal (a ++ serialize_all cs).
Proof.
  induction cs as [|c cs IH]; intros a chunk f Hwf Hno Hf.
  - cbn [serialize_all flat_map]. rewrite app_nil_r.
    destruct f; cbn [write_loop]; rewrite Z.ltb_irrefl; reflexivity.
  - inversion Hwf as [|c' cs' Hc Hcs]; subst.
    inversion Hno as [|c' cs' Hnc Hncs]; subst.
    unfold serialize_all in *. cbn [flat_map] in *.
    assert (Hc12 : len (serialize c) >= 12).
    { destruct Hc as [Hc4 _]. rewrite len_serialize.
      pose proof (len_nonneg (cdata c)). unfold len at 2. lia. }
    rewrite len_app in Hf. pose proof (len_nonneg (flat_map serialize cs)).
    destruct f as [|f]; [lia|].
    rewrite write_chunk by assumption. rewrite Hnc.
    rewrite !(app_assoc a (serialize c)).
    apply IH; try assumption. lia.
Qed.

Lemma write_no_ihdr hd cs (K V : jsstring) :
  signature_ok hd ->
  Forall well_formed_chunk cs ->
  Forall (fun c => is_type c "IHDR" = false) cs ->
  writePngMetadata (hd ++ serialize_all cs) K V = Normal (hd ++ serialize_all cs).
Proof.
  intros Hsig Hwf Hno. unfold writePngMetadata. rewrite text_chunk_bytes. cbn [bind].
  rewrite signature_passes by assumption.
  replace 8 with (len hd) by (apply signature_len; assumption).
  apply write_loop_no_ihdr; try assumption.
  rewrite length_app. unfold len. lia.
Qed.

(** C5. On the nine bytes made of the signature and one more byte, which
    hold no [IHDR] chunk, the encoder reads a chunk length past the end
    of the buffer and throws instead of returning its input; so it does a
    whole [IEND] chunk followed by a stray byte. *)
Theorem write_throws_without_ihdr (K V : jsstring) :
  writePngMetadata (png_signature ++ [Byte.x00]) K V = Throw RangeError
  /\ writePngMetadata (png_signature ++ serialize iend_chunk ++ [Byte.x00]) K V
     = Throw RangeError.
Proof.
  unfold writePngMetadata. rewrite text_chunk_bytes. cbn [bind].
  generalize (be32 (ToUint32 (len (text_data K V))) ++ tag "tEXt" ++ text_data K V
              ++ be32 (ToUint32 (crc32 (tag "tEXt" ++ text_data K V)))).
  intros chunk. split; vm_compute; reflexivity.
Qed.

(** The insertion throws when the chunk found is cut short: the new chunk
    does not fit at an insertion point past the end of the input. *)
Lemma insert_chunk_throws (png chunk : bytes) pos chunkLen :
  len png < pos + 8 + chunkLen + 4 ->
  insert_chunk png chunk pos chunkLen = Throw RangeError.
Proof.
  intros Hip. unfold insert_chunk. cbv zeta.
  rewrite u8_slice_whole by lia.
  rewrite (u8_new_sum _ png (List.length chunk)) by (unfold len; lia).
  rewrite u8_set_fill by reflexivity. cbn [bind app].
  unfold u8_set at 1.
  replace (_ || _) with true; [reflexivity|].
  symmetry. apply orb_true_intro. right. apply Z.ltb_lt.
  rewrite len_app. unfold len in *. rewrite repeat_length. lia.
Qed.

(** C2. Both routines can throw: the decoder on a buffer shorter than
    four bytes, where the signature read is out of bounds; the encoder on
    an [IHDR] chunk cut short, where the new chunk is set past the end of
    the output array. *)
Theorem codec_throws (K V : jsstring) :
  extractPngMetadata [] = Throw RangeError
  /\ extractPngMetadata [Byte.x89; Byte.x50; Byte.x4e] = Throw RangeError
  /\ writePngMetadata (firstn 25 (minimal_png dummy_header)) K V = Throw RangeError.
Proof.
  split; [reflexivity|]. split; [reflexivity|].
  unfold writePngMetadata. rewrite text_chunk_bytes. cbn [bind].
  generalize (be32 (ToUint32 (len (text_data K V))) ++ tag "tEXt" ++ text_data K V
              ++ be32 (ToUint32 (crc32 (tag "tEXt" ++ text_data K V)))).
  intros chunk.
  set (png := firstn 25 (minimal_png dummy_header)).
  assert (Hsig : u8_differs png 0 137 || u8_differs png 1 80
                 || u8_differs png 2 78 || u8_differs png 3 71 = false)
    by (vm_compute; reflexivity).
  assert (Hlen : List.length png = 25%nat) by (vm_compute; reflexivity).
  assert (Hlen' : len png = 25) by (vm_compute; reflexivity).
  assert (Hget : getUint32 png 8 = Normal 13) by (vm_compute; reflexivity).
  assert (Hty : str_eqb (fromCharCode (u8_slice png (8 + 4) (8 + 8))) (lit "IHDR") = true)
    by (vm_compute; reflexivity).
  rewrite Hsig, Hlen, write_loop_succ, Hlen', Hget. cbn [bind]. cbv zeta.
  rewrite Hty. change (8 <? 25) with true. cbv iota.
  apply insert_chunk_throws. lia.
Qed.

(** ** Both walks end *)

Section Totality.

Lemma getUint32_finished buffer pos : getUint32 buffer pos <> Unfinished.
Proof.
  unfold getUint32. destruct (_ || _); [discriminate|].
  destruct (skipn _ _) as [|b0 [|b1 [|b2 [|b3 r]]]]; discriminate.
Qed.

(** From any offset the decoder's walk returns: it neither throws nor
    runs out of budget. *)
Lemma read_loop_returns f : forall b o,
  0 <= o -> len b - o <= Z.of_nat f -> exists r, read_loop f b o = Normal r.
Proof.
  induction f as [|f IH]; intros b o Ho Hf.
  - rewrite read_loop_zero. replace (o <? len b) with false by lia.
    eexists; reflexivity.
  - rewrite read_loop_succ.
    destruct (Z.ltb_spec o (len b)) as [Hlt|Hge]; [|eexists; reflexivity].
    destruct (Z.gtb_spec (o + 8) (len b)) as [H8|H8]; [eexists; reflexivity|].
    destruct (getUint32_fits b o Ho ltac:(lia)) as [n Hn]. rewrite Hn. cbn [bind].
    apply getUint32_range in Hn.
    destruct (o + 8 + n + 4 >? len b); [eexists; reflexivity|]. cbv zeta.
    destruct (if str_eqb _ _ then _ else _); [eexists; reflexivity|].
    destruct (str_eqb _ (lit "IEND")); [eexists; reflexivity|].
    apply IH; lia.
Qed.

Lemma insert_chunk_result (png chunk : bytes) pos chunkLen :
  0 <= pos -> 0 <= chunkLen ->
  insert_chunk png chunk pos chunkLen <> Unfinished
  /\ forall out, insert_chunk png chunk pos chunkLen = Normal out ->
       exists n, (n <= List.length png)%nat
                 /\ out = firstn n png ++ chunk ++ skipn n png.
Proof.
  intros Hp Hc.
  destruct (Z_le_gt_dec (pos + 8 + chunkLen + 4) (len png)) as [Hin|Hout].
  - set (n := Z.to_nat (pos + 8 + chunkLen + 4)).
    assert (Hn : (n <= List.length png)%nat) by (unfold n, len in *; lia).
    assert (E : insert_chunk png chunk pos chunkLen
                = Normal (firstn n png ++ chunk ++ skipn n png)).
    { rewrite <- (firstn_skipn n png) at 1.
      apply insert_chunk_at. unfold len. rewrite length_firstn. unfold n. lia. }
    rewrite E. split; [discriminate|].
    intros out Hout. injection Hout as <-. exists n. split; [exact Hn | reflexivity].
  - rewrite insert_chunk_throws by lia. split; [discriminate|]. discriminate.
Qed.

(** From any offset the encoder's walk ends within its budget, and what
    it returns is the input or the input with the chunk spliced in. *)
Lemma write_loop_result f : forall (png chunk : bytes) pos,
  0 <= pos -> len png - pos <= Z.of_nat f ->
  write_loop f png chunk pos <> Unfinished
  /\ forall out, write_loop f png chunk pos = Normal out ->
       out = png
       \/ exists n, (n <= List.length png)%nat
                    /\ out = firstn n png ++ chunk ++ skipn n png.
Proof.
  induction f as [|f IH]; intros png chunk pos Hp Hf.
  - cbn [write_loop]. replace (pos <? len png) with false by lia.
    split; [discriminate|]. intros out H. injection H as <-. left. reflexivity.
  - rewrite write_loop_succ.
    destruct (Z.ltb_spec pos (len png)) as [Hlt|Hge].
    2:{ split; [discriminate|]. intros out H. injection H as <-. left. reflexivity. }
    destruct (getUint32 png pos) as [n|e|] eqn:En; cbn [bind].
    + apply getUint32_range in En. cbv zeta.
      destruct (str_eqb _ (lit "IHDR")).
      * destruct (insert_chunk_result png chunk pos n Hp ltac:(lia)) as [Hfin Hres].
        split; [exact Hfin|]. intros out H. right. apply Hres. exact H.
      * apply IH; lia.
    + split; discriminate.
    + exfalso. exact (getUint32_finished png pos En).
Qed.

End Totality.

Lemma extract_throws_short (buffer : bytes) :
  if len buffer <? 4
  then extractPngMetadata buffer = Throw RangeError
  else exists r, extractPngMetadata buffer = Normal r.
Proof.
  unfold extractPngMetadata.
  destruct (Z.ltb_spec (len buffer) 4) as [Hs|Hl].
  - unfold getUint32. replace ((0 <? 0) || (len buffer <? 0 + 4)) with true by lia.
    reflexivity.
  - destruct (getUint32_fits buffer 0 ltac:(lia) ltac:(lia)) as [v Hv].
    rewrite Hv. cbn [bind].
    destruct (negb (v =? 0x89504E47)); [eexists; reflexivity|].
    apply read_loop_returns; unfold len; lia.
Qed.

(* ================================================================== *)
(** * The decoder *)
(* ================================================================== *)

Lemma no_payload_found c :
  carries_payload c = false ->
  (if is_type c "tEXt" then read_text (cdata c) else None) = None.
Proof.
  unfold carries_payload. intros H. rewrite read_text_spec.
  destruct (is_type c "tEXt"); [|reflexivity].
  cbn [andb] in H. rewrite H. reflexivity.
Qed.

(** The walk at bytes that hold no whole chunk ends with [null]. *)
Lemma read_truncated f (tail : bytes) :
  truncated tail -> len tail <= Z.of_nat f -> read_loop f tail 0 = Normal None.
Proof.
  intros [Hpos Hcut] Hf. destruct f as [|f]; [lia|].
  rewrite read_loop_succ. replace (0 <? len tail) with true by lia.
  destruct Hcut as [Hshort | (b0 & b1 & b2 & b3 & more & -> & Hlong)].
  - replace (0 + 8 >? len tail) with true by lia. reflexivity.
  - destruct (0 + 8 >? len (b0 :: b1 :: b2 :: b3 :: more)) eqn:E8; [reflexivity|].
    unfold getUint32.
    replace ((0 <? 0) || _) with false by lia.
    cbn [Z.to_nat skipn bind].
    replace (0 + 8 + be32_value b0 b1 b2 b3 + 4 >? _) with true by lia.
    reflexivity.
Qed.

(** C6. When the walk, having stepped over whole chunks, stands at bytes
    that cannot hold a whole chunk (fewer than 8, or fewer than the
    declared length plus header and CRC), the decoder returns [null]; it
    neither throws nor reads past the end. *)
Theorem truncation_guard hd cs (tail : bytes) :
  signature_ok hd -> Forall stepped_over cs -> truncated tail ->
  extractPngMetadata (hd ++ serialize_all cs ++ tail) = Normal None.
Proof.
  intros Hsig Hcs Htail.
  rewrite (extract_stream hd _ (List.length (serialize_all cs ++ tail)) Hsig)
    by (unfold len; lia).
  rewrite read_stepped_over by (try assumption; unfold len; lia).
  apply read_truncated; [assumption|].
  unfold len. rewrite length_app. lia.
Qed.

Lemma truncation_guard_witness :
  extractPngMetadata
    (png_signature ++ serialize_all [ihdr_chunk dummy_header]
     ++ be32 5 ++ tag "tEXt" ++ [Byte.x01; Byte.x02])
  = Normal None.
Proof.
  apply (truncation_guard png_signature [ihdr_chunk dummy_header]).
  - exists Byte.x0d, Byte.x0a, Byte.x1a, Byte.x0a. reflexivity.
  - constructor; [|constructor].
    split; [split; [reflexivity | vm_compute; reflexivity]|].
    split; reflexivity.
  - split; [vm_compute; reflexivity|]. right.
    exists Byte.x00, Byte.x00, Byte.x00, Byte.x05, (tag "tEXt" ++ [Byte.x01; Byte.x02]).
    split; [reflexivity | vm_compute; reflexivity].
Defined.

(** A stream of whole chunks none of which carries a payload: the walk
    ends with [null] at an [IEND] chunk or at the end of the bytes. *)
Lemma read_without_payload cs : forall f (tail : bytes),
  Forall well_formed_chunk cs ->
  Forall (fun c => carries_payload c = false) cs ->
  tail = [] \/ Exists (fun c => is_type c "IEND" = true) cs ->
  len (serialize_all cs ++ tail) <= Z.of_nat f ->
  read_loop f (serialize_all cs ++ tail) 0 = Normal None.
Proof.
  induction cs as [|c cs IH]; intros f tail Hwf Hno Hend Hf.
  - destruct Hend as [-> | Hex]; [|inversion Hex].
    destruct f; reflexivity.
  - inversion Hwf as [|c' cs' Hc Hcs]; subst.
    inversion Hno as [|c' cs' Hnc Hncs]; subst.
    unfold serialize_all in *. cbn [flat_map] in *. rewrite <- app_assoc in *.
    rewrite read_chunk by assumption.
    rewrite no_payload_found by assumption.
    destruct (is_type c "IEND") eqn:Eend; [reflexivity|].
    apply IH; try assumption.
    + destruct Hend as [-> | Hex]; [left; reflexivity|].
      inversion Hex as [c' cs' Hc' | c' cs' Hcs']; subst; [congruence|].
      right. assumption.
    + rewrite len_app in Hf. pose proof (len_nonneg (serialize c)). lia.
Qed.

(** The offset reached after whole chunks, counted from the start of the
    buffer. *)
Lemma walked_from cs : forall o,
  Forall well_formed_chunk cs ->
  fold_left (fun offset c => offset + (8 + len (cdata c) + 4)) cs o
  = o + len (serialize_all cs).
Proof.
  induction cs as [|c cs IH]; intros o Hcs; cbn [fold_left].
  - change (len (serialize_all [])) with 0. lia.
  - inversion Hcs as [|c' cs' [Hty _] Hrest]; subst.
    rewrite IH by assumption.
    unfold serialize_all. cbn [flat_map]. rewrite len_app, len_serialize.
    unfold len at 4. lia.
Qed.

Lemma walked_len cs :
  Forall well_formed_chunk cs -> walked cs = 8 + len (serialize_all cs).
Proof. apply walked_from. Qed.

(** The loop at the offset reached after chunks that are stepped over is
    the loop at the start. *)
Lemma read_loop_walked hd cs (tail : bytes) :
  signature_ok hd -> Forall stepped_over cs ->
  extractPngMetadata (hd ++ serialize_all cs ++ tail)
  = read_loop (List.length (hd ++ serialize_all cs ++ tail))
      (hd ++ serialize_all cs ++ tail) (walked cs).
Proof.
  intros Hsig Hcs.
  assert (Hwf : Forall well_formed_chunk cs).
  { eapply Forall_impl; [|exact Hcs]. intros c Hc. apply Hc. }
  pose proof (signature_len hd Hsig) as H8.
  set (f := List.length (hd ++ serialize_all cs ++ tail)).
  assert (Hf : len (serialize_all cs ++ tail) <= Z.of_nat f).
  { unfold f, len. rewrite !length_app. lia. }
  rewrite (extract_stream hd _ f Hsig) by exact Hf.
  rewrite read_stepped_over by assumption.
  rewrite walked_len by assumption.
  rewrite app_assoc.
  replace (8 + len (serialize_all cs)) with (len (hd ++ serialize_all cs) + 0)
    by (rewrite len_app; lia).
  rewrite read_loop_past by lia. reflexivity.
Qed.

(** The walk on chunks that are stepped over, then a chunk that carries a
    payload. *)
Lemma read_finds hd cs p (rest : bytes) :
  signature_ok hd -> Forall stepped_over cs ->
  well_formed_chunk p -> carries_payload p = true ->
  extractPngMetadata (hd ++ serialize_all cs ++ serialize p ++ rest)
  = Normal (Some (TextDecoder_decode (text_bytes (cdata p)))).
Proof.
  intros Hsig Hcs Hwf Hpay.
  set (f := List.length (serialize_all cs ++ serialize p ++ rest)).
  rewrite (extract_stream hd _ f Hsig) by (unfold f, len; lia).
  rewrite read_stepped_over by (try assumption; unfold f, len; lia).
  rewrite read_chunk
    by (try assumption; unfold f, len; rewrite !length_app; lia).
  unfold carries_payload in Hpay.
  apply andb_prop in Hpay as [Hpay Hrec]. apply andb_prop in Hpay as [Hty Hsep].
  rewrite Hty, read_text_spec, Hsep, Hrec. reflexivity.
Qed.

Lemma extract_returns hd (s : bytes) :
  signature_ok hd -> exists r, extractPngMetadata (hd ++ s) = Normal r.
Proof.
  intros Hsig. rewrite (extract_stream hd s (List.length s) Hsig) by (unfold len; lia).
  apply read_loop_returns; unfold len; lia.
Qed.

Lemma stepped_over_chunks cs :
  Forall well_formed_chunk cs ->
  Forall (fun c => answered c = false) cs ->
  Forall (fun c => is_type c "IEND" = false) cs ->
  Forall stepped_over cs.
Proof.
  intros Hwf Hno Hend. apply Forall_forall. intros c Hc.
  rewrite Forall_forall in Hwf, Hno, Hend.
  split; [apply Hwf; exact Hc|]. split; [|apply Hend; exact Hc].
  rewrite carries_payload_answered. apply Hno. exact Hc.
Qed.

(** C7. Take a stream of whole chunks none of which is a [tEXt] chunk
    with a separator behind one of the keywords the decoder answers to
    ([parameters] or [BananaProData], each with or without a byte order
    mark in front). The decoder returns [null], not an error, when the
    walk runs to the end of the bytes or meets an [IEND] chunk, whatever
    follows that chunk. While no chunk is [IEND], the loop is at offset
    8 plus 8 + length + 4 for each chunk: a chunk with a payload that sits
    there is the one answered, and an [IEND] chunk that sits there ends
    the walk with [null]. *)
Theorem absence_signal hd cs (tail : bytes) :
  signature_ok hd ->
  Forall well_formed_chunk cs ->
  Forall (fun c => answered c = false) cs ->
  (tail = [] \/ Exists (fun c => is_type c "IEND" = true) cs ->
   extractPngMetadata (hd ++ serialize_all cs ++ tail) = Normal None)
  /\ (Forall (fun c => is_type c "IEND" = false) cs ->
      extractPngMetadata (hd ++ serialize_all cs ++ tail)
      = read_loop (List.length (hd ++ serialize_all cs ++ tail))
          (hd ++ serialize_all cs ++ tail) (walked cs)
      /\ (forall p (rest : bytes),
            well_formed_chunk p -> answered p = true ->
            extractPngMetadata (hd ++ serialize_all cs ++ serialize p ++ rest)
            = Normal (Some (TextDecoder_decode (text_bytes (cdata p)))))
      /\ (forall e (rest : bytes),
            well_formed_chunk e -> is_type e "IEND" = true ->
            extractPngMetadata (hd ++ serialize_all cs ++ serialize e ++ rest)
            = Normal None)).
Proof.
  intros Hsig Hwf Hno. split.
  - intros Hend.
    rewrite (extract_stream hd _ (List.length (serialize_all cs ++ tail)) Hsig)
      by (unfold len; lia).
    apply read_without_payload; try assumption; [|unfold len; lia].
    eapply Forall_impl; [|exact Hno].
    intros c Hc. rewrite carries_payload_answered. exact Hc.
  - intros Hnoend.
    pose proof (stepped_over_chunks cs Hwf Hno Hnoend) as Hcs.
    split; [apply read_loop_walked; assumption|]. split.
    + intros p rest Hp Hans. apply read_finds; try assumption.
      rewrite carries_payload_answered. exact Hans.
    + intros e rest He Hty.
      set (f := List.length (serialize_all cs ++ serialize e ++ rest)).
      rewrite (extract_stream hd _ f Hsig) by (unfold f, len; lia).
      rewrite read_stepped_over by (try assumption; unfold f, len; lia).
      rewrite read_chunk
        by (try assumption; unfold f, len; rewrite !length_app; lia).
      assert (Ht : is_type e "tEXt" = false).
      { unfold is_type in *. apply str_eqb_eq in Hty. rewrite Hty. reflexivity. }
      rewrite Ht, Hty. reflexivity.
Qed.

Lemma absence_signal_witness :
  extractPngMetadata
    (png_signature ++ serialize_all [ihdr_chunk dummy_header; comment_chunk; bare_chunk]
     ++ [])
  = Normal None
  /\ extractPngMetadata
       (png_signature ++ serialize_all [ihdr_chunk dummy_header; iend_chunk]
        ++ serialize (payload_chunk (lit "parameters") castle))
     = Normal None
  /\ extractPngMetadata
       (png_signature ++ serialize_all [ihdr_chunk dummy_header; comment_chunk; bare_chunk]
        ++ serialize (payload_chunk (lit "parameters") castle)
        ++ serialize iend_chunk)
     = Normal (Some castle).
Proof.
  split; [|split].
  - refine (proj1 (absence_signal png_signature
                     [ihdr_chunk dummy_header; comment_chunk; bare_chunk] [] _ _ _) _).
    + exists Byte.x0d, Byte.x0a, Byte.x1a, Byte.x0a. reflexivity.
    + repeat (constructor; [split; [reflexivity | vm_compute; reflexivity]|]).
      constructor.
    + repeat (constructor; [vm_compute; reflexivity|]). constructor.
    + left. reflexivity.
  - refine (proj1 (absence_signal png_signature [ihdr_chunk dummy_header; iend_chunk]
                     (serialize (payload_chunk (lit "parameters") castle)) _ _ _) _).
    + exists Byte.x0d, Byte.x0a, Byte.x1a, Byte.x0a. reflexivity.
    + repeat (constructor; [split; [reflexivity | vm_compute; reflexivity]|]).
      constructor.
    + repeat (constructor; [vm_compute; reflexivity|]). constructor.
    + right. right. left. vm_compute. reflexivity.
  - refine (eq_trans
              (proj1 (proj2 (proj2 (absence_signal png_signature
                        [ihdr_chunk dummy_header; comment_chunk; bare_chunk] [] _ _ _) _))
                 (payload_chunk (lit "parameters") castle) (serialize iend_chunk) _ _) _).
    + exists Byte.x0d, Byte.x0a, Byte.x1a, Byte.x0a. reflexivity.
    + repeat (constructor; [split; [reflexivity | vm_compute; reflexivity]|]).
      constructor.
    + repeat (constructor; [vm_compute; reflexivity|]). constructor.
    + repeat (constructor; [vm_compute; reflexivity|]). constructor.
    + split; [reflexivity | vm_compute; reflexivity].
    + vm_compute. reflexivity.
    + vm_compute. reflexivity.
Defined.

(** C7, as stated, fails: a [tEXt] chunk whose keyword is the byte order
    mark followed by [parameters] has a keyword that is neither of the
    two names, and the decoder answers with its text. *)
Lemma absence_signal_bom_counterexample :
  ~ (forall hd cs,
       signature_ok hd ->
       Forall well_formed_chunk cs ->
       Forall (fun c => is_type c "tEXt" = true ->
                        keyword_bytes (cdata c) <> tag "parameters"
                        /\ keyword_bytes (cdata c) <> tag "BananaProData") cs ->
       extractPngMetadata (hd ++ serialize_all cs) = Normal None).
Proof.
  intros H.
  specialize (H png_signature [ihdr_chunk dummy_header; bom_keyword_chunk; iend_chunk]).
  assert (E : extractPngMetadata
                (png_signature
                 ++ serialize_all [ihdr_chunk dummy_header; bom_keyword_chunk; iend_chunk])
              = Normal (Some castle))
    by (vm_compute; reflexivity).
  rewrite E in H.
  assert (Heq : Normal (Some castle) = Normal None).
  { apply H.
    - exists Byte.x0d, Byte.x0a, Byte.x1a, Byte.x0a. reflexivity.
    - repeat (constructor; [split; [reflexivity | vm_compute; reflexivity]|]).
      constructor.
    - constructor; [intros Hty; vm_compute in Hty; discriminate Hty|].
      constructor; [|constructor; [intros Hty; vm_compute in Hty; discriminate Hty
                                  |constructor]].
      intros _. split; intros Hk; vm_compute in Hk; discriminate Hk. }
  discriminate Heq.
Qed.

(** C10. A [tEXt] chunk whose data holds no zero byte yields no payload
    and neither ends nor fails the walk: the decoder returns, with the
    answer it gives on the bytes that follow the chunk; the loop is at the
    offset right behind the chunk; a chunk with a payload that follows is
    the one answered; and when nothing follows the answer is [null]. *)
Theorem text_without_separator_skipped hd pre c (rest : bytes) :
  signature_ok hd -> Forall stepped_over pre ->
  well_formed_chunk c -> is_type c "tEXt" = true ->
  has_separator (cdata c) = false ->
  read_text (cdata c) = None
  /\ extractPngMetadata (hd ++ serialize_all pre ++ serialize c ++ rest)
     = extractPngMetadata (hd ++ rest)
  /\ (exists r, extractPngMetadata (hd ++ serialize_all pre ++ serialize c ++ rest)
                = Normal r)
  /\ extractPngMetadata (hd ++ serialize_all pre ++ serialize c ++ rest)
     = read_loop (List.length (hd ++ serialize_all pre ++ serialize c ++ rest))
         (hd ++ serialize_all pre ++ serialize c ++ rest) (walked (pre ++ [c]))
  /\ (forall p (more : bytes),
        well_formed_chunk p -> carries_payload p = true ->
        extractPngMetadata
          (hd ++ serialize_all pre ++ serialize c ++ serialize p ++ more)
        = Normal (Some (TextDecoder_decode (text_bytes (cdata p)))))
  /\ extractPngMetadata (hd ++ serialize_all pre ++ serialize c) = Normal None.
Proof.
  intros Hsig Hpre Hwf Hty Hsep.
  assert (Hnone : read_text (cdata c) = None).
  { rewrite read_text_spec, Hsep. reflexivity. }
  assert (Hc : stepped_over c).
  { split; [exact Hwf|]. split.
    - unfold carries_payload. rewrite Hsep, andb_false_r. reflexivity.
    - unfold is_type in *. apply str_eqb_eq in Hty. rewrite Hty. reflexivity. }
  assert (Hall : Forall stepped_over (pre ++ [c]))
    by (apply Forall_app; split; [assumption | constructor; [assumption|constructor]]).
  assert (Hser : forall t : bytes,
             serialize_all (pre ++ [c]) ++ t = serialize_all pre ++ serialize c ++ t).
  { intros t. unfold serialize_all. rewrite flat_map_app. cbn [flat_map].
    rewrite app_nil_r, <- app_assoc. reflexivity. }
  assert (Hskip : forall t : bytes,
             extractPngMetadata (hd ++ serialize_all pre ++ serialize c ++ t)
             = extractPngMetadata (hd ++ t)).
  { intros t. set (f := List.length (serialize_all pre ++ serialize c ++ t)).
    rewrite (extract_stream hd _ f Hsig) by (unfold f, len; lia).
    rewrite (extract_stream hd t f Hsig)
      by (unfold f, len; rewrite !length_app; lia).
    rewrite <- Hser. apply read_stepped_over; [exact Hall|].
    rewrite Hser. unfold f, len. lia. }
  split; [exact Hnone|]. split; [apply Hskip|].
  split; [rewrite Hskip; apply extract_returns; exact Hsig|].
  split; [rewrite <- Hser; apply read_loop_walked; assumption|]. split.
  - intros p more Hp Hpay. rewrite <- Hser. apply read_finds; assumption.
  - rewrite <- (app_nil_r (serialize c)), Hskip.
    rewrite (extract_stream hd [] 0 Hsig) by (unfold len; cbn; lia). reflexivity.
Qed.

Lemma text_without_separator_skipped_witness :
  extractPngMetadata
    (png_signature ++ serialize_all [ihdr_chunk dummy_header] ++ serialize bare_chunk
     ++ serialize (payload_chunk (lit "BananaProData") castle)
     ++ serialize iend_chunk)
  = Normal (Some castle).
Proof.
  refine (eq_trans
            (proj1 (proj2 (proj2 (proj2 (proj2
               (text_without_separator_skipped png_signature
                  [ihdr_chunk dummy_header] bare_chunk [] _ _ _ _ _)))))
               (payload_chunk (lit "BananaProData") castle) (serialize iend_chunk) _ _) _).
  - exists Byte.x0d, Byte.x0a, Byte.x1a, Byte.x0a. reflexivity.
  - constructor; [|constructor].
    split; [split; [reflexivity | vm_compute; reflexivity]|].
    split; vm_compute; reflexivity.
  - split; [reflexivity | vm_compute; reflexivity].
  - vm_compute. reflexivity.
  - vm_compute. reflexivity.
  - split; [reflexivity | vm_compute; reflexivity].
  - vm_compute. reflexivity.
  - vm_compute. reflexivity.
Defined.

(* ================================================================== *)
(** * Encoding, then decoding *)
(* ================================================================== *)

(** What decoding gives back after encoding, on a stream whose first
    [IHDR] follows chunks that are stepped over. *)
Lemma decode_after_encode_stream hd pre ihdr (rest : bytes) (K V : jsstring) :
  signature_ok hd ->
  Forall stepped_over pre ->
  Forall (fun c => is_type c "IHDR" = false) pre ->
  well_formed_chunk ihdr -> is_type ihdr "IHDR" = true ->
  K = lit "BananaProData" \/ K = lit "parameters" ->
  len (text_data K V) < 2 ^ 32 ->
  decode_after_encode (hd ++ serialize_all pre ++ serialize ihdr ++ rest) K V
  = Normal (Some (TextDecoder_decode (TextEncoder_encode V))).
Proof.
  intros Hsig Hpre Hno Hi Hty HK Hlen. unfold decode_after_encode.
  assert (Hwf : Forall well_formed_chunk pre).
  { eapply Forall_impl; [|exact Hpre]. intros c Hc. apply Hc. }
  destruct (write_inserts hd pre ihdr rest K V Hsig Hwf Hno Hi Hty)
    as (chunk & Hc & Hw).
  rewrite text_chunk_serialize in Hc by exact Hlen. injection Hc as <-.
  rewrite Hw. cbn [bind].
  assert (Hall : Forall stepped_over (pre ++ [ihdr])).
  { apply Forall_app; split; [assumption|].
    constructor; [|constructor]. apply ihdr_stepped_over; assumption. }
  assert (H := extract_finds hd (pre ++ [ihdr]) K V rest Hsig Hall HK Hlen).
  unfold serialize_all in H. rewrite flat_map_app in H. cbn [flat_map] in H.
  rewrite app_nil_r, <- app_assoc in H. exact H.
Qed.

Lemma png_signature_ok : signature_ok png_signature.
Proof. exists Byte.x0d, Byte.x0a, Byte.x1a, Byte.x0a. reflexivity. Qed.

(** C1, as amended. On a stream whose first [IHDR] chunk follows only
    whole chunks that are neither [IEND] nor carry a recognized keyword,
    for a key that is one of the two recognized keywords and a value that
    is a well-formed string not starting with U+FEFF (with data that fits
    the 32-bit length field), decoding the encoder's output returns
    exactly the value. *)
Theorem roundtrip hd pre ihdr (rest : bytes) (K V : jsstring) :
  signature_ok hd ->
  Forall stepped_over pre ->
  Forall (fun c => is_type c "IHDR" = false) pre ->
  well_formed_chunk ihdr -> is_type ihdr "IHDR" = true ->
  K = lit "BananaProData" \/ K = lit "parameters" ->
  utf8_string V ->
  hd_error V <> Some 0xFEFF ->
  len (text_data K V) < 2 ^ 32 ->
  decode_after_encode (hd ++ serialize_all pre ++ serialize ihdr ++ rest) K V
  = Normal (Some V).
Proof.
  intros Hsig Hpre Hno Hi Hty HK HV Hbom Hlen.
  rewrite decode_after_encode_stream by assumption.
  rewrite decode_encode_id by assumption. reflexivity.
Qed.

Lemma roundtrip_witness :
  decode_after_encode
    (png_signature ++ serialize_all [] ++ serialize (ihdr_chunk dummy_header)
     ++ serialize iend_chunk)
    (lit "parameters") castle
  = Normal (Some castle).
Proof.
  apply (roundtrip png_signature [] (ihdr_chunk dummy_header) (serialize iend_chunk)
           (lit "parameters") castle).
  - exact png_signature_ok.
  - constructor.
  - constructor.
  - split; [reflexivity | vm_compute; reflexivity].
  - vm_compute. reflexivity.
  - right. reflexivity.
  - split; vm_compute; reflexivity.
  - vm_compute. discriminate.
  - vm_compute. reflexivity.
Defined.

(** C1, as stated, fails: a value that starts with U+FEFF is a string
    UTF-8 can carry, and it comes back without its first code unit. *)
Lemma roundtrip_bom_counterexample :
  ~ (forall hd pre ihdr (rest : bytes) (K V : jsstring),
       signature_ok hd ->
       Forall stepped_over pre ->
       Forall (fun c => is_type c "IHDR" = false) pre ->
       well_formed_chunk ihdr -> is_type ihdr "IHDR" = true ->
       K = lit "BananaProData" \/ K = lit "parameters" ->
       utf8_string V ->
       len (text_data K V) < 2 ^ 32 ->
       decode_after_encode (hd ++ serialize_all pre ++ serialize ihdr ++ rest) K V
       = Normal (Some V)).
Proof.
  intros H.
  specialize (H png_signature [] (ihdr_chunk dummy_header) (serialize iend_chunk)
                (lit "BananaProData") bom_text).
  assert (E : decode_after_encode
                (png_signature ++ serialize_all [] ++ serialize (ihdr_chunk dummy_header)
                 ++ serialize iend_chunk) (lit "BananaProData") bom_text
              = Normal (Some (json_text "{}")))
    by (vm_compute; reflexivity).
  rewrite E in H.
  assert (Heq : Normal (Some (json_text "{}")) = Normal (Some bom_text)).
  { apply H.
    - exact png_signature_ok.
    - constructor.
    - constructor.
    - split; [reflexivity | vm_compute; reflexivity].
    - vm_compute. reflexivity.
    - left. reflexivity.
    - split; vm_compute; reflexivity.
    - vm_compute. reflexivity. }
  vm_compute in Heq. discriminate Heq.
Qed.

(** C8. For the minimal PNG over any 13 bytes of header data, encoding
    the castle payload under [BananaProData] gives an output 12 bytes
    plus the data longer than the input, and decoding it returns exactly
    the payload. *)
Theorem concrete_scenario (d : bytes) :
  List.length d = 13%nat ->
  exists out,
    writePngMetadata (minimal_png d) (lit "BananaProData") castle = Normal out
    /\ len out = len (minimal_png d) + 12
                 + len (text_data (lit "BananaProData") castle)
    /\ extractPngMetadata out = Normal (Some castle).
Proof.
  intros Hd.
  assert (Hwf : well_formed_chunk (ihdr_chunk d)).
  { split; [reflexivity|]. unfold ihdr_chunk, len. cbn [cdata]. rewrite Hd. reflexivity. }
  assert (Hlen : len (text_data (lit "BananaProData") castle) < 2 ^ 32)
    by (vm_compute; reflexivity).
  assert (HP : minimal_png d
               = png_signature ++ serialize_all [] ++ serialize (ihdr_chunk d)
                 ++ serialize iend_chunk).
  { unfold minimal_png, serialize_all. cbn [flat_map app].
    rewrite app_nil_r. reflexivity. }
  destruct (write_inserts png_signature [] (ihdr_chunk d) (serialize iend_chunk)
              (lit "BananaProData") castle png_signature_ok
              (Forall_nil _) (Forall_nil _) Hwf eq_refl) as (chunk & Hc & Hw).
  rewrite text_chunk_serialize in Hc by exact Hlen. injection Hc as <-.
  rewrite <- HP in Hw. eexists. split; [exact Hw|]. split.
  - rewrite HP. cbn [serialize_all flat_map app].
    rewrite !len_app, (len_serialize (payload_chunk _ _)).
    cbn [payload_chunk cdata ctype]. change (len (tag "tEXt")) with 4. lia.
  - assert (H := decode_after_encode_stream png_signature [] (ihdr_chunk d)
                   (serialize iend_chunk) (lit "BananaProData") castle
                   png_signature_ok (Forall_nil _) (Forall_nil _) Hwf eq_refl
                   (or_introl eq_refl) Hlen).
    unfold decode_after_encode in H. rewrite <- HP, Hw in H. cbn [bind] in H.
    rewrite H. vm_compute. reflexivity.
Qed.

Lemma concrete_scenario_witness :
  exists out,
    writePngMetadata (minimal_png dummy_header) (lit "BananaProData") castle = Normal out
    /\ len out = len (minimal_png dummy_header) + 12
                 + len (text_data (lit "BananaProData") castle)
    /\ extractPngMetadata out = Normal (Some castle).
Proof. apply (concrete_scenario dummy_header). reflexivity. Defined.

(* ================================================================== *)
(** * Further properties of the codec *)
(* ================================================================== *)

(** X1. The decoder throws exactly on buffers shorter than four bytes;
    on every other buffer it returns, with [null] or a string. *)
Theorem extract_throws_only_when_short (buffer : bytes) :
  if len buffer <? 4
  then extractPngMetadata buffer = Throw RangeError
  else exists r, extractPngMetadata buffer = Normal r.
Proof. exact (extract_throws_short buffer). Qed.

(** X2. Whatever the input bytes, the encoder's walk ends, and when the
    encoder returns, its output is the input itself or the input with the
    assembled chunk spliced in at one offset: no input byte is dropped,
    changed or moved relative to the others. *)
Theorem write_only_inserts (png : bytes) (K V : jsstring) :
  writePngMetadata png K V <> Unfinished
  /\ forall out,
       writePngMetadata png K V = Normal out ->
       exists chunk,
         text_chunk K V = Normal chunk
         /\ (out = png
             \/ exists n, (n <= List.length png)%nat
                          /\ out = firstn n png ++ chunk ++ skipn n png).
Proof.
  unfold writePngMetadata. rewrite text_chunk_bytes. cbn [bind].
  destruct (_ || _).
  - split; [discriminate|]. intros out H. injection H as <-.
    eexists. split; [reflexivity|]. left. reflexivity.
  - match goal with |- context [write_loop ?f png ?c 8] =>
      destruct (write_loop_result f png c 8 ltac:(lia) ltac:(unfold len; lia))
        as [Hfin Hres]
    end.
    split; [exact Hfin|]. intros out H.
    eexists. split; [reflexivity|]. apply Hres. exact H.
Qed.

Lemma write_only_inserts_witness :
  exists chunk,
    text_chunk (lit "BananaProData") castle = Normal chunk
    /\ (png_signature ++ serialize (ihdr_chunk dummy_header)
        ++ serialize (payload_chunk (lit "BananaProData") castle)
        ++ serialize iend_chunk = minimal_png dummy_header
        \/ exists n, (n <= List.length (minimal_png dummy_header))%nat
             /\ png_signature ++ serialize (ihdr_chunk dummy_header)
                ++ serialize (payload_chunk (lit "BananaProData") castle)
                ++ serialize iend_chunk
                = firstn n (minimal_png dummy_header) ++ chunk
                  ++ skipn n (minimal_png dummy_header)).
Proof.
  apply (proj2 (write_only_inserts (minimal_png dummy_header)
                  (lit "BananaProData") castle)).
  vm_compute. reflexivity.
Defined.

Lemma u8_differs_nth (png : bytes) (i : nat) v :
  u8_differs png (Z.of_nat i) v
  = match nth_error png i with
    | Some b => negb (byte.unsigned b =? v)
    | None => true
    end.
Proof.
  unfold u8_differs, u8_get.
  destruct (Z.ltb_spec (Z.of_nat i) 0) as [Hneg|_]; [lia|].
  rewrite Nat2Z.id. destruct (nth_error png i); reflexivity.
Qed.

Lemma signature_test (png : bytes) :
  firstn 4 png <> [Byte.x89; Byte.x50; Byte.x4e; Byte.x47] ->
  u8_differs png 0 137 || u8_differs png 1 80
  || u8_differs png 2 78 || u8_differs png 3 71 = true.
Proof.
  intros Hne.
  rewrite (u8_differs_nth png 0), (u8_differs_nth png 1),
    (u8_differs_nth png 2), (u8_differs_nth png 3).
  destruct png as [|b0 [|b1 [|b2 [|b3 r]]]]; cbn [nth_error firstn] in *;
    try (repeat match goal with
                | |- context [byte.unsigned ?b =? ?v] =>
                    destruct (byte.unsigned b =? v)
                end; reflexivity).
  destruct (Z.eqb_spec (byte.unsigned b0) 137) as [E0|]; [|reflexivity].
  destruct (Z.eqb_spec (byte.unsigned b1) 80) as [E1|]; [|reflexivity].
  destruct (Z.eqb_spec (byte.unsigned b2) 78) as [E2|]; [|reflexivity].
  destruct (Z.eqb_spec (byte.unsigned b3) 71) as [E3|]; [|reflexivity].
  exfalso. apply Hne.
  f_equal; [|f_equal; [|f_equal; [|f_equal]]];
    apply byte.unsigned_inj; assumption.
Qed.

(** X3. An input whose first four bytes are not 137, 80, 78, 71 (or that
    has fewer than four bytes) is returned as it is, for every key and
    value: assembling the chunk, which the code does first, never
    throws. *)
Theorem write_rejects_other_signatures (png : bytes) (K V : jsstring) :
  firstn 4 png <> [Byte.x89; Byte.x50; Byte.x4e; Byte.x47] ->
  writePngMetadata png K V = Normal png.
Proof.
  intros Hne. apply write_rejects_signature. apply signature_test. exact Hne.
Qed.

Lemma write_rejects_other_signatures_witness :
  writePngMetadata [Byte.x47; Byte.x49; Byte.x46] (lit "BananaProData") castle
  = Normal [Byte.x47; Byte.x49; Byte.x46].
Proof.
  apply (write_rejects_other_signatures [Byte.x47; Byte.x49; Byte.x46]).
  discriminate.
Defined.

(** X4. A stream made of the signature and whole chunks, none of type
    [IHDR], is returned as it is: the walk reaches the end of the bytes
    without throwing. *)
Theorem write_without_ihdr_unchanged hd cs (K V : jsstring) :
  signature_ok hd ->
  Forall well_formed_chunk cs ->
  Forall (fun c => is_type c "IHDR" = false) cs ->
  writePngMetadata (hd ++ serialize_all cs) K V = Normal (hd ++ serialize_all cs).
Proof. apply write_no_ihdr. Qed.

Lemma write_without_ihdr_unchanged_witness :
  writePngMetadata
    (png_signature ++ serialize_all [payload_chunk (lit "parameters") castle; iend_chunk])
    (lit "BananaProData") castle
  = Normal (png_signature
            ++ serialize_all [payload_chunk (lit "parameters") castle; iend_chunk]).
Proof.
  apply (write_without_ihdr_unchanged png_signature
           [payload_chunk (lit "parameters") castle; iend_chunk]).
  - exact png_signature_ok.
  - constructor; [|constructor; [|constructor]];
      (split; [reflexivity | vm_compute; reflexivity]).
  - constructor; [|constructor; [|constructor]]; reflexivity.
Defined.

Lemma read_loop_with_crc g cs : forall f (tail : bytes),
  Forall well_formed_chunk cs ->
  len (serialize_all cs ++ tail) <= Z.of_nat f ->
  read_loop f (serialize_all (map (with_crc g) cs) ++ tail) 0
  = read_loop f (serialize_all cs ++ tail) 0.
Proof.
  induction cs as [|c cs IH]; intros f tail Hwf Hf; [reflexivity|].
  inversion Hwf as [|c' cs' Hc Hcs]; subst.
  cbn [map]. unfold serialize_all in *. cbn [flat_map] in *.
  rewrite <- !app_assoc in *.
  assert (Hlen : len (serialize (with_crc g c)) = len (serialize c))
    by (rewrite !len_serialize; reflexivity).
  rewrite len_app in Hf.
  pose proof (len_nonneg (serialize c)).
  assert (Hsame : len (flat_map serialize (map (with_crc g) cs) ++ tail)
                  = len (flat_map serialize cs ++ tail)).
  { rewrite !len_app. f_equal. clear. induction cs as [|c cs IH]; [reflexivity|].
    cbn [map flat_map]. rewrite !len_app, IH, !len_serialize. reflexivity. }
  rewrite (read_chunk f (with_crc g c)) by (try exact Hc; rewrite len_app; lia).
  rewrite (read_chunk f c) by (try exact Hc; rewrite len_app; lia).
  change (is_type (with_crc g c) "tEXt") with (is_type c "tEXt").
  change (is_type (with_crc g c) "IEND") with (is_type c "IEND").
  change (cdata (with_crc g c)) with (cdata c).
  destruct (if is_type c "tEXt" then _ else _); [reflexivity|].
  destruct (is_type c "IEND"); [reflexivity|].
  apply IH; [assumption | lia].
Qed.

(** X5. The decoder never looks at a stored checksum: replacing the CRC
    field of any chunks of a stream leaves its answer unchanged. *)
Theorem extract_ignores_crc hd cs (g : chunk -> Z) (tail : bytes) :
  signature_ok hd ->
  Forall well_formed_chunk cs ->
  extractPngMetadata (hd ++ serialize_all (map (with_crc g) cs) ++ tail)
  = extractPngMetadata (hd ++ serialize_all cs ++ tail).
Proof.
  intros Hsig Hwf.
  set (f := List.length (serialize_all cs ++ tail)).
  assert (Hsame : len (serialize_all (map (with_crc g) cs) ++ tail)
                  = len (serialize_all cs ++ tail)).
  { rewrite !len_app. f_equal. clear. unfold serialize_all.
    induction cs as [|c cs IH]; [reflexivity|].
    cbn [map flat_map]. rewrite !len_app, IH, !len_serialize. reflexivity. }
  rewrite (extract_stream hd _ f Hsig) by (rewrite Hsame; unfold f, len; lia).
  rewrite (extract_stream hd _ f Hsig) by (unfold f, len; lia).
  apply read_loop_with_crc; [assumption | unfold f, len; lia].
Qed.

Lemma extract_ignores_crc_witness :
  extractPngMetadata
    (png_signature
     ++ serialize_all (map (with_crc (fun _ => 0))
                         [ihdr_chunk dummy_header;
                          payload_chunk (lit "BananaProData") castle])
     ++ serialize iend_chunk)
  = extractPngMetadata
      (png_signature
       ++ serialize_all [ihdr_chunk dummy_header;
                         payload_chunk (lit "BananaProData") castle]
       ++ serialize iend_chunk).
Proof.
  apply (extract_ignores_crc png_signature
           [ihdr_chunk dummy_header; payload_chunk (lit "BananaProData") castle]).
  - exact png_signature_ok.
  - constructor; [|constructor; [|constructor]];
      (split; [reflexivity | vm_compute; reflexivity]).
Defined.

(** X6. The decoder answers with the first chunk of the stream that
    carries a recognized keyword, whatever follows it; the text is all of
    the chunk's data after its first zero byte. *)
Theorem extract_first_payload hd pre c (rest : bytes) :
  signature_ok hd -> Forall stepped_over pre ->
  well_formed_chunk c -> carries_payload c = true ->
  extractPngMetadata (hd ++ serialize_all pre ++ serialize c ++ rest)
  = Normal (Some (TextDecoder_decode (text_bytes (cdata c)))).
Proof.
  intros Hsig Hpre Hwf Hpay.
  set (f := List.length (serialize_all pre ++ serialize c ++ rest)).
  rewrite (extract_stream hd _ f Hsig) by (unfold f, len; lia).
  rewrite read_stepped_over by (try assumption; unfold f, len; lia).
  rewrite read_chunk
    by (try assumption; unfold f, len; rewrite !length_app; lia).
  unfold carries_payload in Hpay.
  apply andb_prop in Hpay as [Hpay Hrec]. apply andb_prop in Hpay as [Hty Hsep].
  rewrite Hty, read_text_spec, Hsep, Hrec. reflexivity.
Qed.

Lemma extract_first_payload_witness :
  extractPngMetadata
    (png_signature ++ serialize_all [ihdr_chunk dummy_header]
     ++ serialize (payload_chunk (lit "parameters") castle)
     ++ serialize (payload_chunk (lit "BananaProData") bom_text))
  = Normal (Some (TextDecoder_decode
                    (text_bytes (cdata (payload_chunk (lit "parameters") castle))))).
Proof.
  apply (extract_first_payload png_signature [ihdr_chunk dummy_header]
           (payload_chunk (lit "parameters") castle)).
  - exact png_signature_ok.
  - constructor; [|constructor].
    split; [split; [reflexivity | vm_compute; reflexivity]|].
    split; vm_compute; reflexivity.
  - split; [reflexivity | vm_compute; reflexivity].
  - vm_compute. reflexivity.
Defined.

(** X7. Encoding twice: the second chunk goes right after [IHDR], in
    front of the first one, so decoding returns the value of the latest
    encode (for a recognized key and a well-formed value not starting
    with U+FEFF), whatever the first key and value were. *)
Theorem latest_encode_wins hd pre ihdr (rest : bytes) (K1 V1 K2 V2 : jsstring) :
  signature_ok hd ->
  Forall stepped_over pre ->
  Forall (fun c => is_type c "IHDR" = false) pre ->
  well_formed_chunk ihdr -> is_type ihdr "IHDR" = true ->
  len (text_data K1 V1) < 2 ^ 32 ->
  K2 = lit "BananaProData" \/ K2 = lit "parameters" ->
  utf8_string V2 -> hd_error V2 <> Some 0xFEFF ->
  len (text_data K2 V2) < 2 ^ 32 ->
  exists out1 out2,
    writePngMetadata (hd ++ serialize_all pre ++ serialize ihdr ++ rest) K1 V1
    = Normal out1
    /\ writePngMetadata out1 K2 V2 = Normal out2
    /\ out2 = hd ++ serialize_all pre ++ serialize ihdr
              ++ serialize (payload_chunk K2 V2)
              ++ serialize (payload_chunk K1 V1) ++ rest
    /\ extractPngMetadata out2 = Normal (Some V2).
Proof.
  intros Hsig Hpre Hno Hi Hty Hl1 HK2 HV2 Hbom Hl2.
  assert (Hwf : Forall well_formed_chunk pre).
  { eapply Forall_impl; [|exact Hpre]. intros c Hc. apply Hc. }
  destruct (write_inserts hd pre ihdr rest K1 V1 Hsig Hwf Hno Hi Hty)
    as (c1 & Hc1 & Hw1).
  rewrite text_chunk_serialize in Hc1 by exact Hl1. injection Hc1 as <-.
  destruct (write_inserts hd pre ihdr (serialize (payload_chunk K1 V1) ++ rest)
              K2 V2 Hsig Hwf Hno Hi Hty) as (c2 & Hc2 & Hw2).
  rewrite text_chunk_serialize in Hc2 by exact Hl2. injection Hc2 as <-.
  eexists. eexists. split; [exact Hw1|]. split; [exact Hw2|].
  split; [reflexivity|].
  assert (Hall : Forall stepped_over (pre ++ [ihdr])).
  { apply Forall_app; split; [assumption|].
    constructor; [|constructor]. apply ihdr_stepped_over; assumption. }
  assert (H := extract_finds hd (pre ++ [ihdr]) K2 V2
                 (serialize (payload_chunk K1 V1) ++ rest) Hsig Hall HK2 Hl2).
  unfold serialize_all in H. rewrite flat_map_app in H. cbn [flat_map] in H.
  rewrite app_nil_r, <- app_assoc in H.
  rewrite decode_encode_id in H by assumption. exact H.
Qed.

Lemma latest_encode_wins_witness :
  exists out1 out2,
    writePngMetadata
      (png_signature ++ serialize_all [] ++ serialize (ihdr_chunk dummy_header)
       ++ serialize iend_chunk) (lit "parameters") bom_text = Normal out1
    /\ writePngMetadata out1 (lit "BananaProData") castle = Normal out2
    /\ out2 = png_signature ++ serialize_all [] ++ serialize (ihdr_chunk dummy_header)
              ++ serialize (payload_chunk (lit "BananaProData") castle)
              ++ serialize (payload_chunk (lit "parameters") bom_text)
              ++ serialize iend_chunk
    /\ extractPngMetadata out2 = Normal (Some castle).
Proof.
  apply (latest_encode_wins png_signature [] (ihdr_chunk dummy_header)
           (serialize iend_chunk) (lit "parameters") bom_text
           (lit "BananaProData") castle).
  - exact png_signature_ok.
  - constructor.
  - constructor.
  - split; [reflexivity | vm_compute; reflexivity].
  - vm_compute. reflexivity.
  - vm_compute. reflexivity.
  - left. reflexivity.
  - split; vm_compute; reflexivity.
  - vm_compute. discriminate.
  - vm_compute. reflexivity.
Defined.

Lemma iend_not_ihdr c : is_type c "IEND" = true -> is_type c "IHDR" = false.
Proof.
  unfold is_type. intros H. apply str_eqb_eq in H. rewrite H. reflexivity.
Qed.

Lemma iend_not_text c : is_type c "IEND" = true -> is_type c "tEXt" = false.
Proof.
  unfold is_type. intros H. apply str_eqb_eq in H. rewrite H. reflexivity.
Qed.

(** X8. The encoder's walk does not stop at [IEND] but the decoder's
    does: when an [IEND] chunk comes before the first [IHDR], the encoder
    still inserts the chunk after [IHDR], and decoding its output returns
    [null]. *)
Theorem iend_before_ihdr_hides_payload hd pre iend mid ihdr (rest : bytes)
        (K V : jsstring) :
  signature_ok hd ->
  Forall stepped_over pre ->
  Forall (fun c => is_type c "IHDR" = false) pre ->
  well_formed_chunk iend -> is_type iend "IEND" = true ->
  Forall well_formed_chunk mid ->
  Forall (fun c => is_type c "IHDR" = false) mid ->
  well_formed_chunk ihdr -> is_type ihdr "IHDR" = true ->
  exists chunk,
    text_chunk K V = Normal chunk
    /\ writePngMetadata
         (hd ++ serialize_all pre ++ serialize iend ++ serialize_all mid
          ++ serialize ihdr ++ rest) K V
       = Normal (hd ++ serialize_all pre ++ serialize iend ++ serialize_all mid
                 ++ serialize ihdr ++ chunk ++ rest)
    /\ decode_after_encode
         (hd ++ serialize_all pre ++ serialize iend ++ serialize_all mid
          ++ serialize ihdr ++ rest) K V
       = Normal None.
Proof.
  intros Hsig Hpre Hnopre Hiend Hend Hmid Hnomid Hi Hty.
  assert (Hwf : Forall well_formed_chunk (pre ++ iend :: mid)).
  { apply Forall_app; split.
    - eapply Forall_impl; [|exact Hpre]. intros c Hc. apply Hc.
    - constructor; assumption. }
  assert (Hno : Forall (fun c => is_type c "IHDR" = false) (pre ++ iend :: mid)).
  { apply Forall_app; split; [assumption|].
    constructor; [apply iend_not_ihdr; assumption | assumption]. }
  destruct (write_inserts hd (pre ++ iend :: mid) ihdr rest K V Hsig Hwf Hno Hi Hty)
    as (chunk & Hc & Hw).
  unfold serialize_all in Hw. rewrite flat_map_app in Hw. cbn [flat_map] in Hw.
  rewrite <- !app_assoc in Hw. fold (serialize_all pre) in Hw.
  fold (serialize_all mid) in Hw.
  exists chunk. split; [exact Hc|]. split; [exact Hw|].
  unfold decode_after_encode. rewrite Hw. cbn [bind].
  set (tail := serialize_all mid ++ serialize ihdr ++ chunk ++ rest).
  set (f := List.length (serialize_all pre ++ serialize iend ++ tail)).
  rewrite (extract_stream hd _ f Hsig) by (unfold f, len; lia).
  rewrite read_stepped_over by (try assumption; unfold f, len; lia).
  rewrite read_chunk
    by (try assumption; unfold f, len; rewrite !length_app; lia).
  rewrite (iend_not_text iend Hend), Hend. reflexivity.
Qed.

Lemma iend_before_ihdr_hides_payload_witness :
  decode_after_encode
    (png_signature ++ serialize_all [] ++ serialize iend_chunk ++ serialize_all []
     ++ serialize (ihdr_chunk dummy_header) ++ [])
    (lit "BananaProData") castle
  = Normal None.
Proof.
  destruct (iend_before_ihdr_hides_payload png_signature [] iend_chunk []
              (ihdr_chunk dummy_header) [] (lit "BananaProData") castle)
    as (chunk & _ & _ & H).
  - exact png_signature_ok.
  - constructor.
  - constructor.
  - split; [reflexivity | vm_compute; reflexivity].
  - reflexivity.
  - constructor.
  - constructor.
  - split; [reflexivity | vm_compute; reflexivity].
  - reflexivity.
  - exact H.
Defined.

(** ** The table against the bit-by-bit reduction *)

Section Table.

Lemma ToUint32_land z : ToUint32 z = Z.land z (Z.ones 32).
Proof. unfold ToUint32. rewrite Z.land_ones by lia. reflexivity. Qed.

Lemma ToUint32_range z : 0 <= ToUint32 z < 2 ^ 32.
Proof. unfold ToUint32. apply Z.mod_pos_bound. lia. Qed.

Lemma ToUint32_ToInt32 z : ToUint32 (ToInt32 z) = ToUint32 z.
Proof.
  unfold ToUint32, ToInt32. cbv zeta.
  change (2 ^ 32) with 4294967296. change (2 ^ 31) with 2147483648.
  destruct (Z.ltb_spec (z mod 4294967296) 2147483648); zdm.
Qed.

Lemma ToUint32_lxor x y :
  ToUint32 (Z.lxor x y) = Z.lxor (ToUint32 x) (ToUint32 y).
Proof. rewrite !ToUint32_land. Z.bitblast. Qed.

Lemma ToUint32_bit_xor a b :
  ToUint32 (bit_xor a b) = Z.lxor (ToUint32 a) (ToUint32 b).
Proof.
  unfold bit_xor. rewrite ToUint32_ToInt32, ToUint32_lxor, !ToUint32_ToInt32.
  reflexivity.
Qed.

(** [bit_xor] looks at its arguments only modulo 2^32. *)
Lemma bit_xor_congr a a' b :
  ToUint32 a = ToUint32 a' -> bit_xor a b = bit_xor a' b.
Proof.
  intros H. unfold bit_xor. f_equal. f_equal.
  unfold ToInt32. unfold ToUint32 in H. rewrite H. reflexivity.
Qed.

Lemma ushr_value a n : 0 <= n < 32 -> ushr a n = Z.shiftr (ToUint32 a) n.
Proof. intros Hn. unfold ushr. rewrite Z.mod_small by lia. reflexivity. Qed.

Lemma shiftr_range u n : 0 <= u < 2 ^ 32 -> 0 <= n -> 0 <= Z.shiftr u n < 2 ^ 32.
Proof.
  intros Hu Hn. rewrite Z.shiftr_div_pow2 by lia.
  pose proof (Z.pow_pos_nonneg 2 n ltac:(lia) Hn) as Hp.
  split; [apply Z.div_pos; lia|].
  apply Z.div_lt_upper_bound; [lia|]. nia.
Qed.

Lemma bit_and_low a k :
  0 <= k <= 31 ->
  bit_and a (Z.ones k) = Z.land (ToUint32 a) (Z.ones k).
Proof.
  intros Hk. unfold bit_and.
  assert (Hp : 0 < 2 ^ k <= 2 ^ 31)
    by (split; [apply Z.pow_pos_nonneg; lia | apply Z.pow_le_mono_r; lia]).
  assert (Hm : 0 <= Z.ones k < 2 ^ 31) by (rewrite Z.ones_equiv; lia).
  assert (Em : ToInt32 (Z.ones k) = Z.ones k).
  { unfold ToInt32. rewrite Z.mod_small by lia. cbv zeta.
    destruct (Z.ltb_spec (Z.ones k) (2 ^ 31)); lia. }
  rewrite Em.
  assert (E : Z.land (ToInt32 a) (Z.ones k) = Z.land (ToUint32 a) (Z.ones k)).
  { rewrite <- (ToUint32_ToInt32 a), ToUint32_land. Z.bitblast. }
  rewrite E.
  assert (Hr : 0 <= Z.land (ToUint32 a) (Z.ones k) < 2 ^ 31).
  { rewrite Z.land_ones by lia.
    pose proof (Z.mod_pos_bound (ToUint32 a) (2 ^ k) ltac:(lia)). lia. }
  unfold ToInt32. rewrite Z.mod_small by lia. cbv zeta.
  destruct (Z.ltb_spec (Z.land (ToUint32 a) (Z.ones k)) (2 ^ 31)); lia.
Qed.

(** The round of the table's loop, read on the unsigned register. *)
Lemma crc_round_reduce c : ToUint32 (crc_round c) = reduce (ToUint32 c).
Proof.
  unfold crc_round, reduce.
  change (bit_and c 1) with (bit_and c (Z.ones 1)).
  rewrite bit_and_low by lia. rewrite (ushr_value c 1) by lia.
  pose proof (ToUint32_range c) as Hc.
  pose proof (shiftr_range (ToUint32 c) 1 Hc ltac:(lia)) as Hs.
  rewrite Z.land_ones by lia. change (2 ^ 1) with 2.
  rewrite Zmod_odd.
  destruct (Z.odd (ToUint32 c)).
  - change (1 =? 0) with false. cbv iota.
    rewrite ToUint32_bit_xor, (ToUint32_small (Z.shiftr _ _)) by exact Hs.
    reflexivity.
  - change (0 =? 0) with true. cbv iota.
    apply ToUint32_small. exact Hs.
Qed.

Lemma reduce_lxor a b : reduce (Z.lxor a b) = Z.lxor (reduce a) (reduce b).
Proof.
  unfold reduce. rewrite Z.shiftr_lxor.
  rewrite <- !Z.bit0_odd, Z.lxor_spec.
  generalize (Z.shiftr a 1) (Z.shiftr b 1). intros a' b'.
  destruct (Z.testbit a 0), (Z.testbit b 0); cbn [xorb]; Z.bitblast.
Qed.

Lemma iter_reduce_lxor n a b :
  Nat.iter n reduce (Z.lxor a b)
  = Z.lxor (Nat.iter n reduce a) (Nat.iter n reduce b).
Proof.
  induction n as [|n IH]; [reflexivity|].
  rewrite !Nat.iter_succ, IH. apply reduce_lxor.
Qed.

(** Bits above the low [n] come down unchanged in [n] rounds. *)
Lemma iter_reduce_shifted n v :
  Nat.iter n reduce (Z.shiftl v (Z.of_nat n)) = v.
Proof.
  induction n as [|n IH].
  - apply Z.shiftl_0_r.
  - rewrite Nat.iter_succ_r. unfold reduce at 2.
    rewrite <- Z.bit0_odd, Z.shiftl_spec_low by lia.
    rewrite Z.shiftr_shiftl_l by lia.
    replace (Z.of_nat (S n) - 1) with (Z.of_nat n) by lia. exact IH.
Qed.

(** Eight rounds on a register: eight rounds on its low byte, xor the
    rest of the register shifted down. *)
Lemma eight_rounds u :
  Nat.iter 8 reduce u
  = Z.lxor (Nat.iter 8 reduce (Z.land u 0xff)) (Z.shiftr u 8).
Proof.
  assert (E : u = Z.lxor (Z.land u 0xff) (Z.shiftl (Z.shiftr u 8) 8)).
  { change 0xff with (Z.ones 8). Z.bitblast. }
  rewrite E at 1. rewrite iter_reduce_lxor. f_equal.
  exact (iter_reduce_shifted 8 (Z.shiftr u 8)).
Qed.

Lemma fold_rounds (l : list nat) c :
  fold_left (fun c (_ : nat) => crc_round c) l c = Nat.iter (List.length l) crc_round c.
Proof.
  revert c. induction l as [|x l IH]; intros c; [reflexivity|].
  cbn [fold_left List.length]. rewrite IH, Nat.iter_succ_r. reflexivity.
Qed.

Lemma iter_round_reduce n c :
  ToUint32 (Nat.iter n crc_round c) = Nat.iter n reduce (ToUint32 c).
Proof.
  induction n as [|n IH]; [reflexivity|].
  rewrite !Nat.iter_succ, crc_round_reduce, IH. reflexivity.
Qed.

Lemma crc_entry_reduce x : ToUint32 (crc_entry x) = Nat.iter 8 reduce (ToUint32 x).
Proof. unfold crc_entry. rewrite fold_rounds. apply iter_round_reduce. Qed.

(** Every index the checksum computes is inside the table, and the entry
    there is the eight rounds on the index. *)
Lemma crcTable_at_entry i : 0 <= i < 256 -> crcTable_at i = crc_entry i.
Proof.
  intros Hi. unfold crcTable_at. rewrite crcTable_entries.
  rewrite (nth_indep _ 0 (crc_entry (Z.of_nat 0)))
    by (rewrite length_map, length_seq; lia).
  rewrite (map_nth (fun n => crc_entry (Z.of_nat n))), seq_nth by lia.
  f_equal. lia.
Qed.

Lemma land_255_range u : 0 <= Z.land u 0xff < 256.
Proof.
  change 0xff with (Z.ones 8). rewrite Z.land_ones by lia.
  apply Z.mod_pos_bound. lia.
Qed.

(** One byte through the table is one byte through eight rounds. *)
Lemma table_step r1 r2 (b : byte) :
  ToUint32 r1 = ToUint32 r2 ->
  ToUint32 (bit_xor (crcTable_at (bit_and (bit_xor r1 (byte.unsigned b)) 0xff))
                    (ushr r1 8))
  = ToUint32 (crc_entry (bit_xor r2 (byte.unsigned b))).
Proof.
  intros Hr.
  rewrite (bit_xor_congr r2 r1) by (symmetry; exact Hr).
  set (x := bit_xor r1 (byte.unsigned b)).
  change (bit_and x 0xff) with (bit_and x (Z.ones 8)).
  rewrite bit_and_low by lia. change (Z.ones 8) with 0xff.
  pose proof (land_255_range (ToUint32 x)) as Hlo.
  rewrite crcTable_at_entry by exact Hlo.
  rewrite ToUint32_bit_xor, !crc_entry_reduce.
  rewrite (eight_rounds (ToUint32 x)).
  rewrite (ToUint32_small (Z.land _ _)) by lia. f_equal.
  rewrite ushr_value by lia.
  pose proof (ToUint32_range r1) as Hr1.
  rewrite (ToUint32_small (Z.shiftr _ _)) by (apply shiftr_range; lia).
  unfold x. rewrite ToUint32_bit_xor, Z.shiftr_lxor.
  pose proof (byte.unsigned_range b) as Hb.
  rewrite (ToUint32_small (byte.unsigned b)) by lia.
  rewrite (Z.shiftr_div_pow2 (byte.unsigned b)) by lia.
  rewrite (Z.div_small (byte.unsigned b)) by lia.
  rewrite Z.lxor_0_r. reflexivity.
Qed.

Lemma fold_left_related {A B : Type} (R : A -> A -> Prop) (f g : A -> B -> A) :
  (forall x y b, R x y -> R (f x b) (g y b)) ->
  forall l x y, R x y -> R (fold_left f l x) (fold_left g l y).
Proof.
  intros Hstep. induction l as [|b l IH]; intros x y Hxy; [exact Hxy|].
  cbn [fold_left]. apply IH. apply Hstep. exact Hxy.
Qed.

Lemma table_fold buf r1 r2 :
  ToUint32 r1 = ToUint32 r2 ->
  ToUint32
    (fold_left
       (fun crc b =>
          bit_xor (crcTable_at (bit_and (bit_xor crc (byte.unsigned b)) 0xff))
                  (ushr crc 8)) buf r1)
  = ToUint32
      (fold_left (fun crc b => crc_entry (bit_xor crc (byte.unsigned b))) buf r2).
Proof.
  exact (fold_left_related (fun x y => ToUint32 x = ToUint32 y) _ _
           table_step buf r1 r2).
Qed.

End Table.

(** X9. The table-driven checksum is the bit-by-bit one: looking a byte
    up in the table and xoring the register shifted by eight bits gives
    what eight rounds of the table's own reduction give on the register
    xor the byte; so [crc32] returns, for every input, the checksum
    computed without the table. *)
Theorem crc32_is_bitwise (buf : bytes) : crc32 buf = crc32_bitwise buf.
Proof.
  unfold crc32, crc32_bitwise. cbv zeta.
  apply bit_xor_congr. apply table_fold. reflexivity.
Qed.

(* ================================================================== *)
(** * The callers of the decoder *)
(* ================================================================== *)

Section Callers.

Context {N : Numbers} {J : Json}.

Lemma field_eqb_eq a b : field_eqb a b = true <-> a = b.
Proof. destruct a, b; cbn; split; intros H; try reflexivity; discriminate. Qed.

Lemma field_eqb_refl a : field_eqb a a = true.
Proof. destruct a; reflexivity. Qed.

Lemma field_eqb_neq a b : a <> b -> field_eqb a b = false.
Proof.
  intros H. destruct (field_eqb a b) eqn:E; [|reflexivity].
  apply field_eqb_eq in E. contradiction.
Qed.

Lemma assign_same (result : AnalysisResult) key e : assign result key e key = Some e.
Proof. unfold assign. rewrite field_eqb_refl. reflexivity. Qed.

Lemma assign_other (result : AnalysisResult) key e k :
  k <> key -> assign result key e k = result k.
Proof. intros H. unfold assign. rewrite field_eqb_neq by exact H. reflexivity. Qed.

(** [setField] writes at its key only. *)
Lemma setField_other (result : AnalysisResult) key val k :
  k <> key -> setField result key val k = result k.
Proof.
  intros Hk. unfold setField.
  destruct val as [v|]; [|reflexivity].
  destruct (truthy (Some v)); [|reflexivity].
  destruct (result key) as [e|] eqn:E.
  - rewrite E. apply assign_other. exact Hk.
  - rewrite assign_same, !assign_other by exact Hk. reflexivity.
Qed.

(** An entry that is there stays, with its [vi]. *)
Lemma setField_keeps (result : AnalysisResult) key val k e :
  result k = Some e ->
  exists e', setField result key val k = Some e' /\ vi e' = vi e.
Proof.
  intros He.
  destruct (field_eqb k key) eqn:Ek.
  - apply field_eqb_eq in Ek. subst key. unfold setField.
    destruct val as [v|]; [|exists e; split; [exact He | reflexivity]].
    destruct (truthy (Some v)); [|exists e; split; [exact He | reflexivity]].
    rewrite He. rewrite He. rewrite assign_same. eexists. split; reflexivity.
  - rewrite setField_other.
    + exists e. split; [exact He | reflexivity].
    + intros ->. rewrite field_eqb_refl in Ek. discriminate.
Qed.

(** A truthy value lands in [en] of its key. *)
Lemma setField_sets (result : AnalysisResult) key v :
  truthy (Some v) = true ->
  exists e', setField result key (Some v) key = Some e' /\ en e' = v.
Proof.
  intros Hv. unfold setField. rewrite Hv.
  destruct (result key) as [e|] eqn:E.
  - rewrite E, assign_same. eexists. split; reflexivity.
  - rewrite assign_same, assign_same. eexists. split; reflexivity.
Qed.

Lemma set_if_other (result : AnalysisResult) key val k :
  k <> key -> set_if result key val k = result k.
Proof.
  intros Hk. unfold set_if. destruct (truthy val); [|reflexivity].
  apply setField_other. exact Hk.
Qed.

Lemma set_if_keeps (result : AnalysisResult) key val k e :
  result k = Some e ->
  exists e', set_if result key val k = Some e' /\ vi e' = vi e.
Proof.
  intros He. unfold set_if. destruct (truthy val).
  - apply setField_keeps. exact He.
  - exists e. split; [exact He | reflexivity].
Qed.

(** What [set_if] leaves at its key. *)
Lemma set_if_at (result : AnalysisResult) key val :
  if truthy val
  then exists e', set_if result key val key = Some e' /\ Some (en e') = val
  else set_if result key val key = result key.
Proof.
  unfold set_if. destruct (truthy val) eqn:Hv; [|reflexivity].
  destruct val as [v|]; [|discriminate].
  destruct (setField_sets result key v Hv) as (e' & He' & Hen).
  exists e'. split; [exact He' | rewrite Hen; reflexivity].
Qed.

(** After the signature test fails or the walk finds nothing, both
    callers give their empty answer. *)
Lemma callers_on_throw (buffer : bytes) (st : option AnalysisResult) :
  extractPngMetadata buffer = Throw RangeError ->
  getTextFromImage buffer = Normal (VString [])
  /\ processBlobForMetadata buffer st = Normal (false, st).
Proof.
  intros H. unfold getTextFromImage, processBlobForMetadata. rewrite H.
  split; reflexivity.
Qed.

Lemma callers_on_payload (buffer : bytes) text data :
  extractPngMetadata buffer = Normal (Some text) ->
  text <> [] -> JSON_parse text = Some data ->
  getTextFromImage buffer
  = match text_of_data data with
    | Some (Some v) => Normal v
    | Some None => Normal (VString [])
    | None => Normal (VString text)
    end
  /\ forall st, processBlobForMetadata buffer st
                = Normal (snd (populateBananaData data st),
                          fst (populateBananaData data st)).
Proof.
  intros H Hne Hparse. unfold getTextFromImage, processBlobForMetadata.
  rewrite H. cbn [metadata_present].
  assert (E : str_eqb text [] = false).
  { destruct (str_eqb text []) eqn:E; [|reflexivity].
    apply str_eqb_eq in E. contradiction. }
  rewrite E, Hparse. split; [reflexivity|].
  intros st. destruct (populateBananaData data st). reflexivity.
Qed.

Lemma callers_on_raw_text (buffer : bytes) text :
  extractPngMetadata buffer = Normal (Some text) ->
  text <> [] -> JSON_parse text = None ->
  getTextFromImage buffer = Normal (VString text)
  /\ forall st, processBlobForMetadata buffer st = Normal (false, st).
Proof.
  intros H Hne Hparse. unfold getTextFromImage, processBlobForMetadata.
  rewrite H. cbn [metadata_present].
  assert (E : str_eqb text [] = false).
  { destruct (str_eqb text []) eqn:E; [|reflexivity].
    apply str_eqb_eq in E. contradiction. }
  rewrite E, Hparse. split; reflexivity.
Qed.

End Callers.

(** X10. [populateBananaData] never removes an entry of
    [lastAnalysisData] and never changes a Vietnamese text: an entry that
    is there before the call is there after it with the same [vi],
    whatever the data. *)
Theorem populate_keeps_translations {N : Numbers} (data : value)
        (result : AnalysisResult) (k : field) (e : entry) :
  result k = Some e ->
  exists result' e',
    fst (populateBananaData data (Some result)) = Some result'
    /\ result' k = Some e' /\ vi e' = vi e.
Proof.
  intros He. unfold populateBananaData.
  destruct (get data (lit "mega")) as [mega|];
    [|exists result, e; repeat split; assumption].
  destruct (set_if_keeps result k_generationPrompt mega k e He) as (e1 & H1 & V1).
  destruct (get data (lit "lighting")) as [lighting_|];
    [|eexists; exists e1; repeat split; [exact H1 | exact V1]].
  destruct (set_if_keeps _ k_lighting lighting_ k e1 H1) as (e2 & H2 & V2).
  destruct (get data (lit "scene")) as [scene|];
    [|eexists; exists e2; repeat split; [exact H2 | congruence]].
  destruct (set_if_keeps _ k_context scene k e2 H2) as (e3 & H3 & V3).
  destruct (get data (lit "view")) as [view|];
    [|eexists; exists e3; repeat split; [exact H3 | congruence]].
  destruct (set_if_keeps _ k_composition view k e3 H3) as (e4 & H4 & V4).
  eexists; exists e4; repeat split; [exact H4 | congruence].
Qed.

Lemma populate_keeps_translations_witness :
  exists result' e',
    fst (populateBananaData castle_data
           (Some (assign no_fields k_lighting
                    (mk_entry (VString (lit "dusk")) (VString (lit "hoang hon"))))))
    = Some result'
    /\ result' k_lighting = Some e'
    /\ vi e' = vi (mk_entry (VString (lit "dusk")) (VString (lit "hoang hon"))).
Proof.
  apply (populate_keeps_translations castle_data
           (assign no_fields k_lighting
              (mk_entry (VString (lit "dusk")) (VString (lit "hoang hon"))))
           k_lighting).
  reflexivity.
Defined.

Lemma populate_on_object {N : Numbers} (fields : list (jsstring * value))
        (st : option AnalysisResult) (p : jsstring) (k : field) :
  In (p, k) [(lit "mega", k_generationPrompt); (lit "lighting", k_lighting);
             (lit "scene", k_context); (lit "view", k_composition)] ->
  exists result',
    populateBananaData (VObject fields) st = (Some result', true)
    /\ (if truthy (lookup fields p)
        then exists e', result' k = Some e' /\ Some (en e') = lookup fields p
        else result' k = match st with Some result => result k | None => None end)
    /\ result' k_style = match st with Some result => result k_style | None => None end
    /\ result' k_materials
       = match st with Some result => result k_materials | None => None end
    /\ result' k_sketchPrompt
       = match st with Some result => result k_sketchPrompt | None => None end
    /\ result' k_multiViewPrompts
       = match st with Some result => result k_multiViewPrompts | None => None end.
Proof.
  intros Hin. unfold populateBananaData. cbn [get].
  set (r0 := match st with Some result => result | None => no_fields end).
  assert (Hr0 : forall key, r0 key
                = match st with Some result => result key | None => None end)
    by (intros key; unfold r0; destruct st; reflexivity).
  rewrite <- !Hr0.
  eexists. split; [reflexivity|]. split.
  - cbn [In] in Hin.
    destruct Hin as [E|[E|[E|[E|[]]]]]; injection E as <- <-.
    + rewrite !set_if_other by discriminate.
      pose proof (set_if_at r0 k_generationPrompt (lookup fields (lit "mega"))) as H.
      destruct (truthy (lookup fields (lit "mega"))); exact H.
    + rewrite !(set_if_other _ _ _ k_lighting) by discriminate.
      match goal with |- context [set_if ?r k_lighting ?v k_lighting] =>
        pose proof (set_if_at r k_lighting v) as H end.
      destruct (truthy (lookup fields (lit "lighting"))); [exact H|].
      rewrite H. apply set_if_other. discriminate.
    + rewrite !(set_if_other _ _ _ k_context) by discriminate.
      match goal with |- context [set_if ?r k_context ?v k_context] =>
        pose proof (set_if_at r k_context v) as H end.
      destruct (truthy (lookup fields (lit "scene"))); [exact H|].
      rewrite H. rewrite !set_if_other by discriminate. reflexivity.
    + match goal with |- context [set_if ?r k_composition ?v k_composition] =>
        pose proof (set_if_at r k_composition v) as H end.
      destruct (truthy (lookup fields (lit "view"))); [exact H|].
      rewrite H. rewrite !set_if_other by discriminate. reflexivity.
  - repeat split; rewrite !set_if_other by discriminate; reflexivity.
Qed.

(** X11. [populateBananaData] writes four keys only: it completes on
    every object, the property [p] of the data goes to [en] of the key
    [k] for the pairs mega/generationPrompt, lighting/lighting,
    scene/context and view/composition when it is truthy, and a key whose
    property is falsy or missing, like every other key, is left as it
    was. *)
Theorem populate_writes_truthy {N : Numbers} (fields : list (jsstring * value))
        (st : option AnalysisResult) (p : jsstring) (k : field) :
  In (p, k) [(lit "mega", k_generationPrompt); (lit "lighting", k_lighting);
             (lit "scene", k_context); (lit "view", k_composition)] ->
  exists result',
    populateBananaData (VObject fields) st = (Some result', true)
    /\ (if truthy (lookup fields p)
        then exists e', result' k = Some e' /\ Some (en e') = lookup fields p
        else result' k = match st with Some result => result k | None => None end)
    /\ result' k_style = match st with Some result => result k_style | None => None end
    /\ result' k_materials
       = match st with Some result => result k_materials | None => None end
    /\ result' k_sketchPrompt
       = match st with Some result => result k_sketchPrompt | None => None end
    /\ result' k_multiViewPrompts
       = match st with Some result => result k_multiViewPrompts | None => None end.
Proof. exact (populate_on_object fields st p k). Qed.

Lemma populate_writes_truthy_witness :
  exists result',
    populateBananaData castle_data None = (Some result', true)
    /\ (exists e', result' k_generationPrompt = Some e'
                   /\ en e' = VString (lit "a castle"))
    /\ result' k_style = None.
Proof.
  destruct (populate_writes_truthy
              [(lit "mega", VString (lit "a castle"));
               (lit "lighting", VString (lit "dawn"))]
              None (lit "mega") k_generationPrompt)
    as (r & Hr & Hk & Hs & _).
  - left. reflexivity.
  - exists r. split; [exact Hr|]. split; [|exact Hs].
    cbn in Hk. destruct Hk as (e' & He' & Hen).
    exists e'. split; [exact He'|]. injection Hen as ->. reflexivity.
Defined.

(** X12. The callers absorb every failure of the decoder: for every
    buffer and state both return normally; on a buffer shorter than four
    bytes, where the decoder throws, [getTextFromImage] gives the empty
    string and [processBlobForMetadata] gives [false] and leaves
    [lastAnalysisData] as it was. *)
Theorem callers_absorb_failures {N : Numbers} {J : Json} (buffer : bytes)
        (st : option AnalysisResult) :
  (exists v b st',
      getTextFromImage buffer = Normal v
      /\ processBlobForMetadata buffer st = Normal (b, st'))
  /\ if len buffer <? 4
     then getTextFromImage buffer = Normal (VString [])
          /\ processBlobForMetadata buffer st = Normal (false, st)
     else True.
Proof.
  pose proof (extract_throws_short buffer) as Hx.
  destruct (len buffer <? 4).
  - destruct (callers_on_throw buffer st Hx) as [Hg Hp].
    split; [|split; assumption].
    exists (VString []), false, st. split; assumption.
  - split; [|exact I]. destruct Hx as [r Hr].
    unfold getTextFromImage, processBlobForMetadata. rewrite Hr.
    destruct (metadata_present r) as [text|];
      [|exists (VString []), false, st; split; reflexivity].
    destruct (JSON_parse text) as [data|];
      [|exists (VString text), false, st; split; reflexivity].
    destruct (populateBananaData data st) as [st' b].
    destruct (text_of_data data) as [[v|]|];
      eexists; exists b, st'; split; reflexivity.
Qed.

(** What the encoder's output decodes to, for a stream whose first
    [IHDR] follows chunks that are stepped over. *)
Lemma extract_written hd pre ihdr (rest : bytes) (K V : jsstring) :
  signature_ok hd ->
  Forall stepped_over pre ->
  Forall (fun c => is_type c "IHDR" = false) pre ->
  well_formed_chunk ihdr -> is_type ihdr "IHDR" = true ->
  K = lit "BananaProData" \/ K = lit "parameters" ->
  utf8_string V -> hd_error V <> Some 0xFEFF ->
  len (text_data K V) < 2 ^ 32 ->
  exists out,
    writePngMetadata (hd ++ serialize_all pre ++ serialize ihdr ++ rest) K V
    = Normal out
    /\ extractPngMetadata out = Normal (Some V).
Proof.
  intros Hsig Hpre Hno Hi Hty HK HV Hbom Hlen.
  assert (Hwf : Forall well_formed_chunk pre).
  { eapply Forall_impl; [|exact Hpre]. intros c Hc. apply Hc. }
  destruct (write_inserts hd pre ihdr rest K V Hsig Hwf Hno Hi Hty)
    as (chunk & Hc & Hw).
  eexists. split; [exact Hw|].
  pose proof (decode_after_encode_stream hd pre ihdr rest K V
                Hsig Hpre Hno Hi Hty HK Hlen) as H.
  unfold decode_after_encode in H. rewrite Hw in H. cbn [bind] in H.
  rewrite H, decode_encode_id by assumption. reflexivity.
Qed.

(** X13. Embedding, then loading: when the JSON text written under
    [BananaProData] parses to an object whose [mega] is a non-empty
    string, [getTextFromImage] on the encoder's output returns that
    string, and [processBlobForMetadata] returns [true] and leaves it in
    [generationPrompt.en]. *)
Theorem embed_then_load {N : Numbers} {J : Json} hd pre ihdr (rest : bytes)
        (text : jsstring) (fields : list (jsstring * value)) (m : jsstring)
        (st : option AnalysisResult) :
  signature_ok hd ->
  Forall stepped_over pre ->
  Forall (fun c => is_type c "IHDR" = false) pre ->
  well_formed_chunk ihdr -> is_type ihdr "IHDR" = true ->
  utf8_string text -> hd_error text <> Some 0xFEFF -> text <> [] ->
  len (text_data (lit "BananaProData") text) < 2 ^ 32 ->
  JSON_parse text = Some (VObject fields) ->
  lookup fields (lit "mega") = Some (VString m) -> m <> [] ->
  exists out,
    writePngMetadata (hd ++ serialize_all pre ++ serialize ihdr ++ rest)
      (lit "BananaProData") text = Normal out
    /\ getTextFromImage out = Normal (VString m)
    /\ exists result' e',
         processBlobForMetadata out st = Normal (true, Some result')
         /\ result' k_generationPrompt = Some e' /\ en e' = VString m.
Proof.
  intros Hsig Hpre Hno Hi Hty HV Hbom Hne Hlen Hparse Hmega Hm.
  destruct (extract_written hd pre ihdr rest (lit "BananaProData") text
              Hsig Hpre Hno Hi Hty (or_introl eq_refl) HV Hbom Hlen)
    as (out & Hw & Hx).
  exists out. split; [exact Hw|].
  destruct (callers_on_payload out text (VObject fields) Hx Hne Hparse) as [Hg Hp].
  assert (Htruthy : truthy (Some (VString m)) = true).
  { cbn [truthy]. destruct (str_eqb m []) eqn:E; [|reflexivity].
    apply str_eqb_eq in E. contradiction. }
  split.
  - rewrite Hg. unfold text_of_data. cbn [get]. rewrite Hmega, Htruthy. reflexivity.
  - destruct (populate_on_object fields st (lit "mega") k_generationPrompt)
      as (r & Hr & Hk & _); [left; reflexivity|].
    rewrite Hmega, Htruthy in Hk. destruct Hk as (e' & He' & Hen).
    exists r, e'. rewrite Hp, Hr. split; [reflexivity|].
    split; [exact He'|]. injection Hen as ->. reflexivity.
Qed.

Lemma embed_then_load_witness :
  exists out,
    writePngMetadata
      (png_signature ++ serialize_all [] ++ serialize (ihdr_chunk dummy_header)
       ++ serialize iend_chunk) (lit "BananaProData") castle = Normal out
    /\ getTextFromImage out = Normal (VString (lit "a castle"))
    /\ exists result' e',
         processBlobForMetadata out None = Normal (true, Some result')
         /\ result' k_generationPrompt = Some e'
         /\ en e' = VString (lit "a castle").
Proof.
  apply (embed_then_load png_signature [] (ihdr_chunk dummy_header)
           (serialize iend_chunk) castle
           [(lit "mega", VString (lit "a castle"));
            (lit "lighting", VString (lit "dawn"))]
           (lit "a castle") None).
  - exact png_signature_ok.
  - constructor.
  - constructor.
  - split; [reflexivity | vm_compute; reflexivity].
  - vm_compute. reflexivity.
  - split; vm_compute; reflexivity.
  - vm_compute. discriminate.
  - vm_compute. discriminate.
  - vm_compute. reflexivity.
  - vm_compute. reflexivity.
  - vm_compute. reflexivity.
  - vm_compute. discriminate.
Defined.

(** X14. Text that is not JSON: when the text written under one of the
    two keywords does not parse, [getTextFromImage] on the encoder's
    output returns the text itself, and [processBlobForMetadata] returns
    [false] and leaves [lastAnalysisData] as it was. *)
Theorem raw_text_comes_back {N : Numbers} {J : Json} hd pre ihdr (rest : bytes)
        (K V : jsstring) (st : option AnalysisResult) :
  signature_ok hd ->
  Forall stepped_over pre ->
  Forall (fun c => is_type c "IHDR" = false) pre ->
  well_formed_chunk ihdr -> is_type ihdr "IHDR" = true ->
  K = lit "BananaProData" \/ K = lit "parameters" ->
  utf8_string V -> hd_error V <> Some 0xFEFF -> V <> [] ->
  len (text_data K V) < 2 ^ 32 ->
  JSON_parse V = None ->
  exists out,
    writePngMetadata (hd ++ serialize_all pre ++ serialize ihdr ++ rest) K V
    = Normal out
    /\ getTextFromImage out = Normal (VString V)
    /\ processBlobForMetadata out st = Normal (false, st).
Proof.
  intros Hsig Hpre Hno Hi Hty HK HV Hbom Hne Hlen Hparse.
  destruct (extract_written hd pre ihdr rest K V
              Hsig Hpre Hno Hi Hty HK HV Hbom Hlen) as (out & Hw & Hx).
  exists out. split; [exact Hw|].
  destruct (callers_on_raw_text out V Hx Hne Hparse) as [Hg Hp].
  split; [exact Hg | apply Hp].
Qed.

Lemma raw_text_comes_back_witness :
  exists out,
    writePngMetadata
      (png_signature ++ serialize_all [] ++ serialize (ihdr_chunk dummy_header)
       ++ serialize iend_chunk) (lit "parameters") (lit "a castle, dawn") = Normal out
    /\ getTextFromImage out = Normal (VString (lit "a castle, dawn"))
    /\ processBlobForMetadata out None = Normal (false, None).
Proof.
  apply (raw_text_comes_back png_signature [] (ihdr_chunk dummy_header)
           (serialize iend_chunk) (lit "parameters") (lit "a castle, dawn") None).
  - exact png_signature_ok.
  - constructor.
  - constructor.
  - split; [reflexivity | vm_compute; reflexivity].
  - vm_compute. reflexivity.
  - right. reflexivity.
  - split; vm_compute; reflexivity.
  - vm_compute. discriminate.
  - vm_compute. discriminate.
  - vm_compute. reflexivity.
  - vm_compute. reflexivity.
Defined.

(* ================================================================== *)
(** * The retry wrapper and the error report *)
(* ================================================================== *)

Section Retry.

Context {R : Type}.

(** The delays of [k] retries: [delay], twice that, four times that. *)
Lemma doubling_sum k : forall delay,
  fold_right Z.add 0 (map (fun i => delay * 2 ^ Z.of_nat i) (seq 0 k))
  = delay * (2 ^ Z.of_nat k - 1).
Proof.
  induction k as [|k IH]; intros delay; [cbn; lia|].
  cbn [seq map fold_right]. rewrite <- seq_shift, map_map.
  rewrite (map_ext _ (fun i => (delay * 2) * 2 ^ Z.of_nat i)).
  - rewrite IH. rewrite Nat2Z.inj_succ, Z.pow_succ_r by lia.
    change (2 ^ Z.of_nat 0) with 1. lia.
  - intros i. rewrite Nat2Z.inj_succ, Z.pow_succ_r by lia. lia.
Qed.

Lemma doubling_shift delay k :
  delay :: map (fun i => (delay * 2) * 2 ^ Z.of_nat i) (seq 0 k)
  = map (fun i => delay * 2 ^ Z.of_nat i) (seq 0 (S k)).
Proof.
  cbn [seq map]. change (2 ^ Z.of_nat 0) with 1. rewrite Z.mul_1_r. f_equal.
  rewrite <- seq_shift, map_map. apply map_ext.
  intros i. rewrite Nat2Z.inj_succ, Z.pow_succ_r by lia. lia.
Qed.

(** Every run ends within its budget; it made one call more than it
    waited, waited doubling delays at most [retries] times, got a
    retryable rejection from every call but the last, and settles as the
    last call did, with a rejection only when that one is not retryable
    or no retries are left. *)
Lemma retry_from_run fuel : forall (api : nat -> reply R) call retries delay,
  (Z.to_nat retries <= fuel)%nat ->
  exists r,
    retry_from fuel api call retries delay = Some r
    /\ calls r = (call + List.length (waits r) + 1)%nat
    /\ (List.length (waits r) <= Z.to_nat retries)%nat
    /\ waits r = map (fun i => delay * 2 ^ Z.of_nat i) (seq 0 (List.length (waits r)))
    /\ outcome r = api (call + List.length (waits r))%nat
    /\ (forall i, (i < List.length (waits r))%nat ->
          exists e, api (call + i)%nat = Rejected e /\ retryable e = true)
    /\ (forall e, outcome r = Rejected e ->
          retryable e = false \/ List.length (waits r) = Z.to_nat retries).
Proof.
  assert (Hnow : forall (api : nat -> reply R) call retries delay out,
            api call = out ->
            (forall e, out = Rejected e ->
               retryable e = false \/ 0%nat = Z.to_nat retries) ->
            let r := mk_run out [] (S call) in
            calls r = (call + List.length (waits r) + 1)%nat
            /\ (List.length (waits r) <= Z.to_nat retries)%nat
            /\ waits r = map (fun i => delay * 2 ^ Z.of_nat i)
                            (seq 0 (List.length (waits r)))
            /\ outcome r = api (call + List.length (waits r))%nat
            /\ (forall i, (i < List.length (waits r))%nat ->
                  exists e, api (call + i)%nat = Rejected e /\ retryable e = true)
            /\ (forall e, outcome r = Rejected e ->
                  retryable e = false \/ List.length (waits r) = Z.to_nat retries)).
  { intros api call retries delay out Ea Hrej r.
    cbn [r calls waits outcome List.length]. rewrite Nat.add_0_r.
    split; [lia|]. split; [lia|]. split; [reflexivity|].
    split; [symmetry; exact Ea|]. split; [intros i Hi; lia | exact Hrej]. }
  induction fuel as [|fuel IH]; intros api call retries delay Hf.
  - cbn [retry_from]. destruct (api call) as [resp|e] eqn:Ea.
    + eexists. split; [reflexivity|]. apply Hnow; [exact Ea|]. discriminate.
    + replace (retries >? 0) with false by lia. cbn [andb].
      eexists. split; [reflexivity|]. apply Hnow; [exact Ea|].
      intros e' _. right. lia.
  - cbn [retry_from]. destruct (api call) as [resp|e] eqn:Ea.
    + eexists. split; [reflexivity|]. apply Hnow; [exact Ea|]. discriminate.
    + destruct (Z.gtb_spec retries 0) as [Hpos|Hnon]; cbn [andb].
      * destruct (retryable e) eqn:Er.
        -- destruct (IH api (S call) (retries - 1) (delay * 2) ltac:(lia))
             as (r & Hr & Hc & Hk & Hw & Ho & Hall & Hrej).
           rewrite Hr. eexists. split; [reflexivity|].
           cbn [calls waits outcome List.length].
           split; [rewrite Hc; lia|]. split; [lia|].
           split; [rewrite Hw at 1; apply doubling_shift|].
           split; [rewrite Ho; f_equal; lia|]. split.
           ++ intros [|i] Hi.
              ** rewrite Nat.add_0_r. exists e. split; [exact Ea | exact Er].
              ** destruct (Hall i ltac:(lia)) as (e' & He' & Hre').
                 exists e'. split; [|exact Hre'].
                 rewrite <- He'. f_equal. lia.
           ++ intros e' He'. destruct (Hrej e' He') as [Hn|Hn]; [left; exact Hn|].
              right. lia.
        -- eexists. split; [reflexivity|]. apply Hnow; [exact Ea|].
           intros e' He'. injection He' as <-. left. exact Er.
      * eexists. split; [reflexivity|]. apply Hnow; [exact Ea|].
        intros e' _. right. lia.
Qed.

End Retry.

(** X15. The wrapper always settles, after one call more than it waited:
    with [retries] retries it calls the API at most [retries] + 1 times,
    and the delays it waits for are [delay], twice that, four times that,
    in all [delay] times (2^k - 1) for [k] waits (with the defaults, at
    most 4 calls and 7000 ms). *)
Theorem retry_is_bounded {R : Type} (api : nat -> reply R) (retries delay : Z) :
  exists r,
    generateContentWithRetry api retries delay = Some r
    /\ calls r = (List.length (waits r) + 1)%nat
    /\ (List.length (waits r) <= Z.to_nat retries)%nat
    /\ waits r = map (fun i => delay * 2 ^ Z.of_nat i) (seq 0 (List.length (waits r)))
    /\ fold_right Z.add 0 (waits r)
       = delay * (2 ^ Z.of_nat (List.length (waits r)) - 1).
Proof.
  unfold generateContentWithRetry.
  destruct (retry_from_run (Z.to_nat retries) api 0%nat retries delay (Nat.le_refl _))
    as (r & Hr & Hc & Hk & Hw & _).
  exists r. split; [exact Hr|]. split; [exact Hc|]. split; [exact Hk|].
  split; [exact Hw|]. rewrite Hw at 1. apply doubling_sum.
Qed.

(** X16. What the wrapper settles to: the reply of its last call, every
    earlier call having been rejected with a retryable error; a response
    is returned at once, and a rejection is rethrown only when it is not
    retryable or all the retries are used. *)
Theorem retry_settles_as_last_call {R : Type} (api : nat -> reply R)
        (retries delay : Z) :
  exists r,
    generateContentWithRetry api retries delay = Some r
    /\ outcome r = api (List.length (waits r))
    /\ (forall i, (i < List.length (waits r))%nat ->
          exists e, api i = Rejected e /\ retryable e = true)
    /\ (forall e, outcome r = Rejected e ->
          retryable e = false \/ List.length (waits r) = Z.to_nat retries).
Proof.
  unfold generateContentWithRetry.
  destruct (retry_from_run (Z.to_nat retries) api 0%nat retries delay (Nat.le_refl _))
    as (r & Hr & _ & _ & _ & Ho & Hall & Hrej).
  exists r. split; [exact Hr|]. split; [exact Ho|]. split; [exact Hall | exact Hrej].
Qed.

(** X17. The two functions agree on which errors are transient: an error
    [generateContentWithRetry] retries on is reported by [handleApiError]
    as quota exceeded or as server overloaded, never by its own message
    or the default one. *)
Theorem retried_errors_are_named (e : api_error) (defaultMsg : jsstring) :
  retryable e = true ->
  handleApiError e defaultMsg = lit "Quota exceeded (429). Check your billing or wait."
  \/ handleApiError e defaultMsg = lit "Server overloaded (503). Retrying might help.".
Proof.
  unfold retryable, handleApiError. cbv zeta. intros H.
  destruct (includes (error_text e) (lit "429")); [left; reflexivity|].
  destruct (includes (error_text e) (lit "RESOURCE_EXHAUSTED")); [left; reflexivity|].
  cbn [orb] in *.
  destruct (includes (error_text e) (lit "quota")); [left; reflexivity|].
  rewrite H. right. reflexivity.
Qed.

Lemma retried_errors_are_named_witness :
  handleApiError overloaded_error (lit "Error")
  = lit "Quota exceeded (429). Check your billing or wait."
  \/ handleApiError overloaded_error (lit "Error")
     = lit "Server overloaded (503). Retrying might help.".
Proof.
  apply (retried_errors_are_named overloaded_error (lit "Error")).
  vm_compute. reflexivity.
Defined.

(** X18. The message [handleApiError] shows is never longer than 50 code
    units, unless the default message it was given is: the error's own
    message is cut at 40 and marked with three dots. *)
Theorem error_report_is_short (e : api_error) (defaultMsg : jsstring) :
  (List.length (handleApiError e defaultMsg)
   <= Nat.max 50 (List.length defaultMsg))%nat.
Proof.
  unfold handleApiError. cbv zeta.
  destruct (_ || _ || _);
    [change (List.length (lit "Quota exceeded (429). Check your billing or wait."))
       with 49%nat; lia|].
  destruct (_ || _);
    [change (List.length (lit "Server overloaded (503). Retrying might help."))
       with 45%nat; lia|].
  destruct (negb _); [|lia].
  rewrite !length_app, length_firstn.
  change (List.length (lit "Error: ")) with 7%nat.
  destruct (Nat.ltb_spec 40 (List.length (e_message e))) as [Hl|Hs].
  - change (List.length (lit "...")) with 3%nat. lia.
  - cbn [List.length]. lia.
Qed.

(* ================================================================== *)
(** * More on encoding and decoding together *)
(* ================================================================== *)

(** X19. Whatever the input bytes, when the encoder returns, its output
    is the input or is longer than the input by exactly 12 bytes plus the
    UTF-8 of the key, one zero byte and the UTF-8 of the value. *)
Theorem write_grows_by_chunk (png : bytes) (K V : jsstring) (out : bytes) :
  writePngMetadata png K V = Normal out ->
  out = png
  \/ len out = len png + 12 + len (TextEncoder_encode K) + 1
               + len (TextEncoder_encode V).
Proof.
  unfold writePngMetadata. rewrite text_chunk_bytes. cbn [bind].
  destruct (_ || _).
  - intros H. injection H as <-. left. reflexivity.
  - intros H.
    match type of H with write_loop ?f png ?c 8 = _ =>
      destruct (write_loop_result f png c 8 ltac:(lia) ltac:(unfold len; lia))
        as [_ Hres]
    end.
    destruct (Hres out H) as [->|(n & Hn & ->)]; [left; reflexivity|].
    right. rewrite !len_app, len_be32.
    change (len (tag "tEXt")) with 4. unfold text_data. rewrite len_app, len_cons.
    assert (Hsplit : len (firstn n png) + len (skipn n png) = len png).
    { rewrite <- len_app, firstn_skipn. reflexivity. }
    rewrite len_be32. lia.
Qed.

Lemma write_grows_by_chunk_witness :
  png_signature ++ serialize (ihdr_chunk dummy_header)
  ++ serialize (payload_chunk (lit "BananaProData") castle) ++ serialize iend_chunk
  = minimal_png dummy_header
  \/ len (png_signature ++ serialize (ihdr_chunk dummy_header)
          ++ serialize (payload_chunk (lit "BananaProData") castle)
          ++ serialize iend_chunk)
     = len (minimal_png dummy_header) + 12
       + len (TextEncoder_encode (lit "BananaProData")) + 1
       + len (TextEncoder_encode castle).
Proof.
  apply (write_grows_by_chunk (minimal_png dummy_header) (lit "BananaProData") castle).
  vm_compute. reflexivity.
Defined.

(** Whole chunks in front change the walk's answer only through what
    follows them. *)
Lemma read_loop_after_chunks cs : forall f (t1 t2 : bytes),
  Forall well_formed_chunk cs ->
  len (serialize_all cs ++ t1) <= Z.of_nat f ->
  len (serialize_all cs ++ t2) <= Z.of_nat f ->
  read_loop f t1 0 = read_loop f t2 0 ->
  read_loop f (serialize_all cs ++ t1) 0 = read_loop f (serialize_all cs ++ t2) 0.
Proof.
  induction cs as [|c cs IH]; intros f t1 t2 Hwf H1 H2 Ht; [exact Ht|].
  inversion Hwf as [|c' cs' Hc Hcs]; subst.
  unfold serialize_all in *. cbn [flat_map] in *. rewrite <- !app_assoc in *.
  rewrite !read_chunk by assumption.
  destruct (if is_type c "tEXt" then _ else _); [reflexivity|].
  destruct (is_type c "IEND"); [reflexivity|].
  rewrite len_app in H1, H2. pose proof (len_nonneg (serialize c)).
  apply IH; try assumption; lia.
Qed.

(** X20. A key that is not one of the two keywords is invisible to the
    decoder: when the UTF-8 of the key holds no zero byte and does not
    decode to a recognized keyword, decoding the encoder's output gives
    what decoding the input gives, for every stream of whole chunks with
    an [IHDR]. *)
Theorem other_keys_are_invisible hd pre ihdr (tail : bytes) (K V : jsstring) :
  signature_ok hd ->
  Forall well_formed_chunk pre ->
  Forall (fun c => is_type c "IHDR" = false) pre ->
  well_formed_chunk ihdr -> is_type ihdr "IHDR" = true ->
  has_separator (TextEncoder_encode K) = false ->
  recognized_keyword (TextDecoder_decode (TextEncoder_encode K)) = false ->
  len (text_data K V) < 2 ^ 32 ->
  decode_after_encode (hd ++ serialize_all pre ++ serialize ihdr ++ tail) K V
  = extractPngMetadata (hd ++ serialize_all pre ++ serialize ihdr ++ tail).
Proof.
  intros Hsig Hpre Hno Hi Hty Hsep Hrec Hlen. unfold decode_after_encode.
  destruct (write_inserts hd pre ihdr tail K V Hsig Hpre Hno Hi Hty)
    as (chunk & Hc & Hw).
  rewrite text_chunk_serialize in Hc by exact Hlen. injection Hc as <-.
  rewrite Hw. cbn [bind].
  set (p := payload_chunk K V).
  set (f := List.length (serialize_all pre ++ serialize ihdr ++ serialize p ++ tail)).
  rewrite (extract_stream hd _ f Hsig) by (unfold f, len; lia).
  rewrite (extract_stream hd (serialize_all pre ++ serialize ihdr ++ tail) f Hsig)
    by (unfold f, len; rewrite !length_app; lia).
  assert (Hall : Forall well_formed_chunk (pre ++ [ihdr]))
    by (apply Forall_app; split; [assumption | constructor; [assumption|constructor]]).
  assert (E : forall t : bytes, serialize_all pre ++ serialize ihdr ++ t
                                = serialize_all (pre ++ [ihdr]) ++ t).
  { intros t. unfold serialize_all. rewrite flat_map_app. cbn [flat_map].
    rewrite app_nil_r, <- app_assoc. reflexivity. }
  assert (Hf : len (serialize_all (pre ++ [ihdr]) ++ serialize p ++ tail)
               <= Z.of_nat f) by (rewrite <- E; unfold f, len; lia).
  assert (Hp : len (serialize p) >= 12).
  { rewrite len_serialize. pose proof (len_nonneg (cdata p)).
    change (len (ctype p)) with 4. lia. }
  rewrite !E. apply read_loop_after_chunks; try assumption.
  - rewrite !len_app in *. lia.
  - assert (Hstep : stepped_over p).
    { split; [apply payload_chunk_well_formed; exact Hlen|]. split; [|reflexivity].
      unfold carries_payload, p. cbn [payload_chunk cdata]. unfold text_data.
      rewrite keyword_bytes_app, Hrec by exact Hsep. apply andb_false_r. }
    assert (H := read_stepped_over [p] f tail).
    unfold serialize_all in H. cbn [flat_map] in H. rewrite app_nil_r in H.
    apply H; [constructor; [exact Hstep|constructor]|].
    rewrite !len_app in *. pose proof (len_nonneg (serialize_all (pre ++ [ihdr]))).
    lia.
Qed.

Lemma other_keys_are_invisible_witness :
  decode_after_encode
    (png_signature ++ serialize_all [] ++ serialize (ihdr_chunk dummy_header)
     ++ serialize (payload_chunk (lit "parameters") castle) ++ serialize iend_chunk)
    (lit "Comment") bom_text
  = extractPngMetadata
      (png_signature ++ serialize_all [] ++ serialize (ihdr_chunk dummy_header)
       ++ serialize (payload_chunk (lit "parameters") castle) ++ serialize iend_chunk).
Proof.
  apply (other_keys_are_invisible png_signature [] (ihdr_chunk dummy_header)
           (serialize (payload_chunk (lit "parameters") castle) ++ serialize iend_chunk)
           (lit "Comment") bom_text).
  - exact png_signature_ok.
  - constructor.
  - constructor.
  - split; [reflexivity | vm_compute; reflexivity].
  - vm_compute. reflexivity.
  - vm_compute. reflexivity.
  - vm_compute. reflexivity.
  - vm_compute. reflexivity.
Defined.

(** X21. A payload that parses to [null]: reading [data.mega] throws, so
    [getTextFromImage] returns the raw text, and
    [processBlobForMetadata] returns [false]; but [populateBananaData] has
    by then replaced a [null] [lastAnalysisData] by the empty object (a
    state that is there is left as it was). *)
Theorem null_payload {N : Numbers} {J : Json} (buffer : bytes) (text : jsstring)
        (st : option AnalysisResult) :
  extractPngMetadata buffer = Normal (Some text) ->
  text <> [] -> JSON_parse text = Some VNull ->
  getTextFromImage buffer = Normal (VString text)
  /\ processBlobForMetadata buffer st
     = Normal (false, Some (match st with
                            | Some result => result
                            | None => no_fields
                            end)).
Proof.
  intros Hx Hne Hparse.
  destruct (callers_on_payload buffer text VNull Hx Hne Hparse) as [Hg Hp].
  split; [rewrite Hg; reflexivity | rewrite Hp; reflexivity].
Qed.

Lemma null_payload_witness :
  getTextFromImage
    (png_signature ++ serialize_all [ihdr_chunk dummy_header]
     ++ serialize (payload_chunk (lit "parameters") (lit "null")) ++ [])
  = Normal (VString (lit "null"))
  /\ processBlobForMetadata
       (png_signature ++ serialize_all [ihdr_chunk dummy_header]
        ++ serialize (payload_chunk (lit "parameters") (lit "null")) ++ [])
       None
     = Normal (false, Some no_fields).
Proof.
  apply (null_payload
           (png_signature ++ serialize_all [ihdr_chunk dummy_header]
            ++ serialize (payload_chunk (lit "parameters") (lit "null")) ++ [])
           (lit "null") None).
  - vm_compute. reflexivity.
  - vm_compute. discriminate.
  - vm_compute. reflexivity.
Defined.
